(** * MinecraftLauncher-core: a shallow embedding of [components/handler.js]
    and [components/launcher.js]

    The launcher is JavaScript: values are dynamically typed, arrays are
    shared mutable objects, and most methods talk to the file system, the
    network or a child process.  The embedding keeps those three aspects
    explicit:

    - [value] is the fragment of JavaScript values the argument engine
      manipulates, with [truthy] and [typeof_object] as the source uses them;
    - arrays that the source mutates in place ([splice], [push], indexed
      assignment) live in a store [gmap loc (list value)], so aliasing
      between a descriptor and the local variable of [getLaunchOptions] is
      visible;
    - file system, network and subprocess effects are state passing over a
      [World] that records every request in a log.

    Exceptions ([TypeError] on a property of [undefined]) are the [Throw]
    branch of [completion]. *)

From Stdlib Require Import Ascii.
From stdpp Require Import gmap strings list fin_maps.

Open Scope string_scope.
Open Scope list_scope.
Open Scope stdpp_scope.
Open Scope nat_scope.

(** ** Completions: normal return or a thrown exception *)

Inductive completion (A : Type) : Type :=
| Normal (a : A)
| Throw (e : string).
Arguments Normal {A} a.
Arguments Throw {A} e.

#[global] Instance completion_ret : MRet completion := fun _ a => Normal a.

#[global] Instance completion_bind : MBind completion := fun _ _ k c =>
  match c with
  | Normal a => k a
  | Throw e => Throw e
  end.

Definition TypeError : string := "TypeError".

(** ** Strings as the source uses them *)

Module Str.

Definition eqb (a b : string) : bool := String.eqb a b.

(** [s.split(c)] for a one-character separator.  An empty subject gives
    one empty field, as in JavaScript. *)
Fixpoint split_go (c : ascii) (cur : string) (s : string) : list string :=
  match s with
  | EmptyString => [String.rev cur]
  | String a r =>
      if Ascii.eqb a c
      then String.rev cur :: split_go c EmptyString r
      else split_go c (String a cur) r
  end.

Definition split (c : ascii) (s : string) : list string :=
  split_go c EmptyString s.

(** [arr.join(sep)] on an array of strings. *)
Fixpoint join (sep : string) (l : list string) : string :=
  match l with
  | [] => ""
  | [x] => x
  | x :: r => x +:+ sep +:+ join sep r
  end.

(** [s.replace(/\./g, '/')] *)
Fixpoint dots_to_slashes (s : string) : string :=
  match s with
  | EmptyString => EmptyString
  | String a r =>
      String (if Ascii.eqb a "."%char then "/"%char else a) (dots_to_slashes r)
  end.

(** A template literal prints a missing array element as [undefined]. *)
Definition template_nth (l : list string) (i : nat) : string :=
  default "undefined" (l !! i).

(** Truthiness of a string. *)
Definition nonempty (s : string) : bool :=
  match s with EmptyString => false | _ => true end.

End Str.

(** ** JavaScript values *)

(** A rule of a library or of a structured argument:
    [{action, os?: {name?}}]. *)
Record OsClause := { os_name : option string }.

Record Rule := { action : string; os : option OsClause }.

(** A structured game argument [{value, rules}].  The launcher never looks
    inside one: it only asks [typeof arg === 'object']. *)
Record StructuredArg := { sa_value : list string; sa_rules : list Rule }.

Inductive value : Type :=
| VUndefined
| VNull
| VBool (b : bool)
| VNumber (n : Z)
| VString (s : string)
| VObject (o : StructuredArg).

#[global] Instance OsClause_eq_dec : EqDecision OsClause.
Proof. solve_decision. Defined.

#[global] Instance Rule_eq_dec : EqDecision Rule.
Proof. solve_decision. Defined.

#[global] Instance StructuredArg_eq_dec : EqDecision StructuredArg.
Proof. solve_decision. Defined.

#[global] Instance value_eq_dec : EqDecision value.
Proof. solve_decision. Defined.

(** [ToBoolean] *)
Definition truthy (v : value) : bool :=
  match v with
  | VUndefined | VNull => false
  | VBool b => b
  | VNumber n => negb (n =? 0)%Z
  | VString s => Str.nonempty s
  | VObject _ => true
  end.

(** [typeof v === 'object'] (which also holds of [null]). *)
Definition typeof_object (v : value) : bool :=
  match v with
  | VNull | VObject _ => true
  | _ => false
  end.

(** [a || b] on values. *)
Definition js_or (a b : value) : value := if truthy a then a else b.

(** ** The platform: Node's [process] and [path] modules

    [path.join] and [path.resolve] belong to Node, not to the launcher, so
    a handler carries them as fields.  [posix] is the instance used for
    the worked examples. *)

Record Platform := {
  process_platform : string;
  path_sep : string;
  path_join : string → string → string;
  path_normalize : string → string;
  path_resolve : string → string
}.

Definition posix (plat : string) : Platform := {|
  process_platform := plat;
  path_sep := "/";
  path_join := fun a b => a +:+ "/" +:+ b;
  path_normalize := fun p => p;
  path_resolve := fun p => p
|}.

(** ** Version descriptors and launch options *)

Abbreviation loc := nat.

Record Artifact := {
  art_path : option string;
  art_url : string;
  art_sha1 : string
}.

Record Downloads := {
  artifact : option Artifact;
  classifiers : option (list (string * Artifact))
}.

Record Library := {
  lib_name : string;
  lib_downloads : option Downloads;
  lib_rules : option (list Rule);
  lib_url : option string;
  serverreq : value;
  clientreq : value
}.

(** [arguments_game] is a reference: the array of a parsed descriptor is
    one object in the store, and whoever holds the descriptor holds it. *)
Record Descriptor := {
  id : string;
  mainClass : string;
  assets : string;
  assetIndex_id : string;
  minecraftArguments : option string;
  arguments_game : option loc;
  libraries : list Library;
  mavenFiles : option (list Library)
}.

Record Authorization := {
  access_token : value;
  auth_name : value;
  uuid : value;
  user_properties : value
}.

Record Window := { fullscreen : value; width : value; height : value }.
Record Server := { server_host : value; server_port : value }.
Record Proxy := {
  proxy_host : value; proxy_port : value;
  proxy_username : value; proxy_password : value
}.

Record Overrides := {
  minArgs : value;
  assetRoot : option string;
  natives : option string;
  libraryRoot : option string;
  versionJson : option string;
  classes : option (list string);
  minecraftJar : option string;
  url_meta : string;
  url_mavenForge : string;
  url_defaultRepoForge : string;
  url_fallbackMaven : string
}.

Record ForgeWrapper := { fw_jar : string; fw_version : string }.

Record Options := {
  opt_os : option string;
  root : string;
  directory : string;
  version_number : string;
  version_type : value;
  version_custom : option string;
  authorization : Authorization;
  window : option Window;
  server : option Server;
  proxy : option Proxy;
  customLaunchArgs : option (list value);
  forge : option string;
  javaPath : option string;
  forgeWrapper : ForgeWrapper;
  overrides : Overrides
}.

(** The handler object: [this.options], [this.version] and the platform it
    runs on. *)
Record Handler := {
  platform : Platform;
  options : Options;
  version : Descriptor
}.

(** ** [getOS] and [isLegacy] *)

Definition platform_os (p : Platform) : string :=
  if Str.eqb (process_platform p) "win32" then "windows"
  else if Str.eqb (process_platform p) "darwin" then "osx"
  else "linux".

Definition getOS (h : Handler) : string :=
  match opt_os (options h) with
  | Some o => if Str.nonempty o then o else platform_os (platform h)
  | None => platform_os (platform h)
  end.

Definition isLegacy (h : Handler) : bool :=
  Str.eqb (assets (version h)) "legacy" || Str.eqb (assets (version h)) "pre-1.6".

(** ** 4.F  [parseRule]

    The result is the value the source returns: [true], [false] or, when
    control falls off the end of the single-rule branch, [undefined].
    Both callers test it for truthiness and drop the library when it is
    truthy, so a truthy result means excluded. *)

Definition os_is_osx (o : OsClause) : bool :=
  match os_name o with
  | Some n => Str.eqb n "osx"
  | None => false
  end.

Definition parseRule (h : Handler) (lib : Library) : completion value :=
  match lib_rules lib with
  | Some rules =>
      if bool_decide (1 < length rules) then
        match rules !! 0, rules !! 1 with
        | Some r0, Some r1 =>
            if Str.eqb (action r0) "allow" then
              if Str.eqb (action r1) "disallow" then
                match os r1 with
                | Some o =>
                    if os_is_osx o
                    then Normal (VBool (Str.eqb (getOS h) "osx"))
                    else Normal (VBool true)
                | None => Throw TypeError
                end
              else Normal (VBool true)
            else Normal (VBool true)
        | _, _ => Throw TypeError
        end
      else
        match rules !! 0 with
        | Some r0 =>
            if Str.eqb (action r0) "allow" && bool_decide (is_Some (os r0))
            then Normal (VBool (negb (Str.eqb (getOS h) "osx")))
            else Normal VUndefined
        | None => Throw TypeError
        end
  | None => Normal (VBool false)
  end.

(** What the callers make of it: [!this.parseRule(lib)]. *)
Definition included (h : Handler) (lib : Library) : completion bool :=
  r ← parseRule h lib; mret (negb (truthy r)).

(** The table of section 4.F, following the words of the specification. *)
Definition spec_4F_included (rules : option (list Rule)) (current_os : string) : bool :=
  match rules with
  | None | Some [] => true
  | Some [r] =>
      if Str.eqb (action r) "allow" && bool_decide (is_Some (os r))
      then negb (Str.eqb current_os "osx")
      else false
  | Some [r0; r1] =>
      if Str.eqb (action r0) "allow" && Str.eqb (action r1) "disallow"
         && from_option os_is_osx false (os r1)
      then Str.eqb current_os "osx"
      else false
  | Some _ => false
  end.

(** *** Worked inputs *)

Definition no_overrides : Overrides := {|
  minArgs := VUndefined; assetRoot := None; natives := None;
  libraryRoot := None; versionJson := None; classes := None;
  minecraftJar := None;
  url_meta := "https://launchermeta.mojang.com";
  url_mavenForge := "http://files.minecraftforge.net/maven/";
  url_defaultRepoForge := "https://libraries.minecraft.net/";
  url_fallbackMaven := "https://search.maven.org/remotecontent?filepath="
|}.

Definition steve : Authorization := {|
  access_token := VString "T"; auth_name := VString "Steve";
  uuid := VString "U"; user_properties := VString "{}"
|}.

Definition bundled_wrapper : ForgeWrapper :=
  {| fw_jar := "/opt/mclc/components/fw.jar"; fw_version := "1.4.1-mclc" |}.

Definition plain_options (number : string) : Options := {|
  opt_os := None; root := "/tmp/mc";
  directory := "/tmp/mc/versions/" +:+ number;
  version_number := number; version_type := VString "release";
  version_custom := None; authorization := steve;
  window := None; server := None; proxy := None;
  customLaunchArgs := None; forge := None; javaPath := None;
  forgeWrapper := bundled_wrapper; overrides := no_overrides
|}.

Definition bare_descriptor (i : string) (a : string) : Descriptor := {|
  id := i; mainClass := "net.minecraft.client.main.Main";
  assets := a; assetIndex_id := a;
  minecraftArguments := None; arguments_game := None;
  libraries := []; mavenFiles := None
|}.

Definition handler_on (plat : string) : Handler := {|
  platform := posix plat;
  options := plain_options "1.8.9";
  version := bare_descriptor "1.8.9" "1.8"
|}.

Definition allow_any : Rule := {| action := "allow"; os := None |}.
Definition allow_os (n : string) : Rule :=
  {| action := "allow"; os := Some {| os_name := Some n |} |}.
Definition disallow_os (n : string) : Rule :=
  {| action := "disallow"; os := Some {| os_name := Some n |} |}.

Definition lib_with_rules (rs : option (list Rule)) : Library := {|
  lib_name := "org.lwjgl.lwjgl:lwjgl:2.9.4";
  lib_downloads := None; lib_rules := rs; lib_url := None;
  serverreq := VUndefined; clientreq := VUndefined
|}.

(** ** The store of arrays

    An array is an object: two variables may hold the same one.  [concat]
    and [split] build a new array; [splice], [push] and indexed assignment
    change the one they are applied to. *)

Definition alloc (st : gmap loc (list value)) (l : list value)
  : gmap loc (list value) * loc :=
  let r := fresh (dom st) in (<[r := l]> st, r).

Arguments alloc : simpl never.

Definition read (st : gmap loc (list value)) (r : loc) : completion (list value) :=
  match st !! r with
  | Some l => Normal l
  | None => Throw "ReferenceError"
  end.

(** ** 4.K  [getLaunchOptions] *)

(** [o || d] for an optional string option. *)
Definition str_or (o : option string) (d : string) : string :=
  match o with
  | Some s => if Str.nonempty s then s else d
  | None => d
  end.

Definition minecraftArguments_set (d : Descriptor) : option string :=
  match minecraftArguments d with
  | Some s => if Str.nonempty s then Some s else None
  | None => None
  end.

(** [d.minecraftArguments ? d.minecraftArguments.split(' ') : d.arguments.game]
    as the initial value of [args]: a new array in the first case, the
    descriptor's own array in the second. *)
Definition game_array (d : Descriptor) (st : gmap loc (list value))
  : completion (gmap loc (list value) * loc) :=
  match minecraftArguments_set d with
  | Some s => Normal (alloc st (VString <$> Str.split " " s))
  | None =>
      match arguments_game d with
      | Some r => Normal (st, r)
      | None => Throw TypeError
      end
  end.

(** The same expression where only its elements matter (the argument of
    [concat]). *)
Definition game_tokens (d : Descriptor) (st : gmap loc (list value))
  : completion (list value) :=
  match minecraftArguments_set d with
  | Some s => Normal (VString <$> Str.split " " s)
  | None =>
      match arguments_game d with
      | Some r => read st r
      | None => Throw TypeError
      end
  end.

Definition assetPath (h : Handler) : string :=
  let p := platform h in
  let assetRoot :=
    path_resolve p (str_or (assetRoot (overrides (options h)))
                           (path_join p (root (options h)) "assets")) in
  if isLegacy h then path_join p assetRoot "legacy" else path_normalize p assetRoot.

(** [this.options.overrides.minArgs || this.isLegacy() ? 5 : 11]: the
    conditional operator binds looser than [||]. *)
Definition minArgs_threshold (h : Handler) : nat :=
  if truthy (js_or (minArgs (overrides (options h))) (VBool (isLegacy h)))
  then 5 else 11.

(** The substitution table, in source order. *)
Definition fields (h : Handler) : list (string * value) :=
  let a := authorization (options h) in
  [ ("${auth_access_token}", access_token a);
    ("${auth_session}", access_token a);
    ("${auth_player_name}", auth_name a);
    ("${auth_uuid}", uuid a);
    ("${user_properties}", user_properties a);
    ("${user_type}", VString "mojang");
    ("${version_name}", VString (version_number (options h)));
    ("${assets_index_name}", VString (assetIndex_id (version h)));
    ("${game_directory}", VString (root (options h)));
    ("${assets_root}", VString (assetPath h));
    ("${game_assets}", VString (assetPath h));
    ("${version_type}", version_type (options h)) ].

Fixpoint assoc (k : string) (t : list (string * value)) : option value :=
  match t with
  | [] => None
  | (k', v) :: r => if Str.eqb k k' then Some v else assoc k r
  end.

(** [Object.keys(fields).includes(v)] together with [fields[v]]. *)
Definition field_of (t : list (string * value)) (v : value) : option value :=
  match v with
  | VString s => assoc s t
  | _ => None
  end.

(** [args.splice(index, 2)] *)
Definition splice2 (index : nat) (args : list value) : list value :=
  take index args ++ drop (index + 2) args.

(** One iteration of the loop at lines 515-520, on the contents of [args]. *)
Definition substitute_step (t : list (string * value)) (index : nat)
    (args : list value) : list value :=
  let args1 :=
    if from_option typeof_object false (args !! index)
    then splice2 index args else args in
  match args1 !! index with
  | Some v =>
      match field_of t v with
      | Some x => <[index := x]> args1
      | None => args1
      end
  | None => args1
  end.

(** The loop: [index] runs up while it is below the current length.  The
    length never grows, so [length args - index] iterations suffice. *)
Fixpoint substitute_from (fuel : nat) (t : list (string * value)) (index : nat)
    (args : list value) : list value :=
  match fuel with
  | 0 => args
  | S fuel' =>
      if bool_decide (index < length args)
      then substitute_from fuel' t (S index) (substitute_step t index args)
      else args
  end.

Definition substitute (t : list (string * value)) (args : list value) : list value :=
  substitute_from (length args) t 0 args.

Definition window_tokens (o : Options) : list value :=
  match window o with
  | Some w =>
      if truthy (fullscreen w) then [VString "--fullscreen"]
      else [VString "--width"; width w; VString "--height"; height w]
  | None => []
  end.

Definition server_tokens (o : Options) : list value :=
  match server o with
  | Some s => [VString "--server"; server_host s; VString "--port";
               js_or (server_port s) (VString "25565")]
  | None => []
  end.

Definition proxy_tokens (o : Options) : list value :=
  match proxy o with
  | Some p => [VString "--proxyHost"; proxy_host p;
               VString "--proxyPort"; js_or (proxy_port p) (VString "8080");
               VString "--proxyUser"; proxy_username p;
               VString "--proxyPass"; proxy_password p]
  | None => []
  end.

(** Everything [push]ed onto [args] after the loop. *)
Definition pushed_tokens (o : Options) : list value :=
  window_tokens o ++ server_tokens o ++ proxy_tokens o.

Definition getLaunchOptions (h : Handler) (modification : option Descriptor)
    (st : gmap loc (list value)) : completion (gmap loc (list value) * loc) :=
  let type := default (version h) modification in
  '(st, args) ← game_array type st;
  toks ← read st args;
  '(st, args) ←
     (if bool_decide (length toks < minArgs_threshold h)
      then vanilla ← game_tokens (version h) st;
           mret (alloc st (toks ++ vanilla))
      else mret (st, args));
  toks ← read st args;
  let st := <[args := substitute (fields h) toks ++ pushed_tokens (options h)]> st in
  match customLaunchArgs (options h) with
  | Some extra =>
      toks ← read st args;
      mret (alloc st (toks ++ extra))
  | None => mret (st, args)
  end.

(** The array the call returns. *)
Definition launch_options (h : Handler) (modification : option Descriptor)
    (st : gmap loc (list value)) : completion (list value) :=
  '(st', r) ← getLaunchOptions h modification st; read st' r.

(** *** Worked inputs *)

Definition demo_arg : StructuredArg :=
  {| sa_value := ["--demo"];
     sa_rules := [ {| action := "allow"; os := None |} ] |}.

Definition resolution_arg : StructuredArg :=
  {| sa_value := ["--width"; "${resolution_width}"; "--height"; "${resolution_height}"];
     sa_rules := [ {| action := "allow"; os := None |} ] |}.

Definition quickplay_arg : StructuredArg :=
  {| sa_value := ["--quickPlayPath"; "${quickPlayPath}"];
     sa_rules := [ {| action := "allow"; os := None |} ] |}.

Definition modern_game : list value :=
  [ VString "--username"; VString "${auth_player_name}";
    VString "--version"; VString "${version_name}";
    VString "--gameDir"; VString "${game_directory}";
    VString "--assetsDir"; VString "${assets_root}";
    VString "--assetIndex"; VString "${assets_index_name}";
    VString "--uuid"; VString "${auth_uuid}";
    VString "--accessToken"; VString "${auth_access_token}" ].

Definition modern_descriptor (r : loc) : Descriptor := {|
  id := "1.19.2"; mainClass := "net.minecraft.client.main.Main";
  assets := "1.19"; assetIndex_id := "1.19";
  minecraftArguments := None; arguments_game := Some r;
  libraries := []; mavenFiles := None
|}.

Definition modern_handler (o : Options) (r : loc) : Handler := {|
  platform := posix "linux"; options := o; version := modern_descriptor r
|}.

(** *** The loop in closed form

    [subst1] is what the loop does to a token it keeps; [sweep] walks the
    list once: a structured entry goes together with its successor, and
    the token that slides into the freed index is substituted, but is not
    asked again whether it is an object. *)

Definition subst1 (t : list (string * value)) (v : value) : value :=
  default v (field_of t v).

Fixpoint sweep (t : list (string * value)) (l : list value) : list value :=
  match l with
  | [] => []
  | x :: r =>
      if typeof_object x then
        match r with
        | _ :: y :: r' => subst1 t y :: sweep t r'
        | _ => []
        end
      else subst1 t x :: sweep t r
  end.

(** The tokens of the input that the loop keeps, whatever the table is:
    a structured entry and its successor are gone, the token that slides
    into their place stays without being looked at. *)
Fixpoint survivors (l : list value) : list value :=
  match l with
  | [] => []
  | x :: r =>
      if typeof_object x then
        match r with
        | _ :: y :: r' => y :: survivors r'
        | _ => []
        end
      else x :: survivors r
  end.

(** A token that is one of the keys of the table. *)
Definition is_placeholder (t : list (string * value)) (v : value) : bool :=
  match field_of t v with Some _ => true | None => false end.

(** The tokens [args] holds when the loop starts. *)
Definition selected_tokens (h : Handler) (toks vanilla : list value) : list value :=
  if bool_decide (length toks < minArgs_threshold h) then toks ++ vanilla else toks.

(** [args] is still the descriptor's own array when the loop runs: the
    descriptor has no usable [minecraftArguments] and its array is long
    enough that no [concat] copy is made. *)
Definition in_place (h : Handler) (d : Descriptor) (toks : list value) : Prop :=
  minecraftArguments_set d = None ∧ minArgs_threshold h ≤ length toks.

(** The threshold as section 9 of the specification words it:
    [overrides.minArgs] if set, else 5 for legacy versions and 11 for
    modern ones. *)
Definition spec_minArgs_threshold (h : Handler) : Z :=
  match minArgs (overrides (options h)) with
  | VNumber n => if (n =? 0)%Z then (if isLegacy h then 5 else 11)%Z else n
  | _ => (if isLegacy h then 5 else 11)%Z
  end.

Definition with_minArgs (n : Z) (o : Overrides) : Overrides := {|
  minArgs := VNumber n; assetRoot := assetRoot o; natives := natives o;
  libraryRoot := libraryRoot o; versionJson := versionJson o;
  classes := classes o; minecraftJar := minecraftJar o;
  url_meta := url_meta o; url_mavenForge := url_mavenForge o;
  url_defaultRepoForge := url_defaultRepoForge o;
  url_fallbackMaven := url_fallbackMaven o
|}.

Definition options_minArgs (n : Z) : Options := {|
  opt_os := None; root := "/tmp/mc";
  directory := "/tmp/mc/versions/1.19.2";
  version_number := "1.19.2"; version_type := VString "release";
  version_custom := Some "custom-1.19.2"; authorization := steve;
  window := None; server := None; proxy := None;
  customLaunchArgs := None; forge := None; javaPath := None;
  forgeWrapper := bundled_wrapper;
  overrides := with_minArgs n no_overrides
|}.

Definition options_customLaunchArgs (extra : list value) : Options := {|
  opt_os := None; root := "/tmp/mc";
  directory := "/tmp/mc/versions/1.19.2";
  version_number := "1.19.2"; version_type := VString "release";
  version_custom := None; authorization := steve;
  window := Some {| fullscreen := VBool true; width := VUndefined; height := VUndefined |};
  server := None; proxy := None;
  customLaunchArgs := Some extra; forge := None; javaPath := None;
  forgeWrapper := bundled_wrapper; overrides := no_overrides
|}.

(** A custom descriptor with seven game tokens. *)
Definition custom_game : list value :=
  [ VString "--username"; VString "${auth_player_name}";
    VString "--tweakClass"; VString "cpw.mods.fml.common.launcher.FMLTweaker";
    VString "--uuid"; VString "${auth_uuid}"; VString "--demo" ].

(** A loader descriptor with a short argument list. *)
Definition loader_game : list value :=
  [ VString "--loader"; VString "${auth_uuid}"; VObject demo_arg; VString "--demo" ].

Definition custom_descriptor (r : loc) : Descriptor := {|
  id := "custom-1.19.2"; mainClass := "net.fabricmc.loader.launch.knot.KnotClient";
  assets := "1.19"; assetIndex_id := "1.19";
  minecraftArguments := None; arguments_game := Some r;
  libraries := []; mavenFiles := None
|}.

Definition three_structured : list value :=
  modern_game ++ [VObject demo_arg; VObject resolution_arg; VObject quickplay_arg].

(** The handlers and stores of the worked examples. *)
Definition vanilla_1_19 : Handler := modern_handler (plain_options "1.19.2") 0.

Definition handler_minArgs_20 : Handler := modern_handler (options_minArgs 20) 0.

Definition handler_customLaunchArgs (extra : list value) : Handler :=
  modern_handler (options_customLaunchArgs extra) 0.

Definition store_three : gmap loc (list value) := {[ 0 := three_structured ]}.

Definition store_vanilla : gmap loc (list value) := {[ 0 := modern_game ]}.

Definition store_custom : gmap loc (list value) :=
  {[ 0 := modern_game; 1 := custom_game ]}.

Definition store_loader : gmap loc (list value) :=
  {[ 0 := modern_game; 1 := loader_game ]}.

(** ** The world: file system, network and child processes

    Every method that touches the outside is a function from a [World] to
    a [World].  A file is known by the SHA-1 of its contents; a directory
    by the names in it.  The network is an oracle from URLs to responses.
    [trace] records, in order, every request and command the launcher
    issues.

    [Promise.all] over an array is taken in array order, each callback
    run to its end before the next: the launcher starts the callbacks in
    that order, and this is one of the orders in which they may
    complete.  A list the callbacks push to is in completion order in
    the source, so what is proved about such a list is proved up to
    permutation, or for every completion order
    ([downloadToDirectory_in]).  [emit] calls and the progress counter
    are left out. *)

Inductive Effect : Type :=
| Download (url directory name : string)
| Get (url : string)
| Exec (command : string)
| Unzip (archive directory : string)
| Remove (path : string)
| Mkdir (path : string).

#[global] Instance Effect_eq_dec : EqDecision Effect.
Proof. solve_decision. Defined.

Inductive Response : Type :=
| Served (sha1 : string)        (* 2xx, with the digest of the body *)
| NotFound (sha1 : string)      (* 404, with the digest of the error page *)
| Unreachable.                  (* transport error *)

(** What is known of a JAR or ZIP: its entry names and, for a Forge
    universal JAR, the descriptor its [version.json] parses to. *)
Record Archive := {
  entries : list string;
  version_json : option Descriptor
}.

Record World := {
  files : gmap string string;
  listing : gmap string (list string);
  descriptors : gmap string Descriptor;
  archives : gmap string Archive;
  remote : string → Response;
  manifest : option (list (string * string));
  remote_descriptor : string → option Descriptor;
  trace : list Effect
}.

Definition empty_sha1 : string := "da39a3ee5e6b4b0d3255bfef95601890afd80709".

Definition log (e : Effect) (w : World) : World := {|
  files := files w; listing := listing w; descriptors := descriptors w;
  archives := archives w; remote := remote w; manifest := manifest w;
  remote_descriptor := remote_descriptor w;
  trace := trace w ++ [e]
|}.

(** [exists(file)] *)
Definition exists_ (w : World) (file : string) : bool :=
  bool_decide (is_Some (files w !! file)) || bool_decide (is_Some (listing w !! file)).

(** [shelljs.mkdir('-p', directory)] *)
Definition mkdir_p (directory : string) (w : World) : World :=
  let w := log (Mkdir directory) w in {|
  files := files w;
  listing := <[directory := default [] (listing w !! directory)]> (listing w);
  descriptors := descriptors w; archives := archives w; remote := remote w;
  manifest := manifest w; remote_descriptor := remote_descriptor w;
  trace := trace w
|}.

Definition write_file (directory name sha1 : string) (p : Platform) (w : World) : World := {|
  files := <[path_join p directory name := sha1]> (files w);
  listing := <[directory := name :: default [] (listing w !! directory)]> (listing w);
  descriptors := descriptors w; archives := archives w; remote := remote w;
  manifest := manifest w; remote_descriptor := remote_descriptor w;
  trace := trace w
|}.

(** [shelljs.rm(path.join(directory, name))] *)
Definition rm (directory name : string) (p : Platform) (w : World) : World :=
  let w := log (Remove (path_join p directory name)) w in {|
  files := delete (path_join p directory name) (files w);
  listing := <[directory := filter (λ n, n ≠ name) (default [] (listing w !! directory))]> (listing w);
  descriptors := descriptors w; archives := archives w; remote := remote w;
  manifest := manifest w; remote_descriptor := remote_descriptor w;
  trace := trace w
|}.

(** One attempt of [downloadAsync] whose write stream finishes: the
    directory is made, the request is issued, and the stream leaves a
    file behind: the body on a response, nothing but an empty file on a
    transport error.  The attempts whose stream raises an error (the
    handler at lines 90-96) are [download_attempt_stream]. *)
Definition download_attempt (h : Handler) (url directory name : string) (w : World)
  : World :=
  let w := mkdir_p directory w in
  let w := log (Download url directory name) w in
  match remote w url with
  | Served d | NotFound d => write_file directory name d (platform h) w
  | Unreachable => write_file directory name empty_sha1 (platform h) w
  end.

(** [downloadAsync(url, directory, name, retry, type)] when no write
    stream raises an error; [downloadAsync_stream] is the general case.
    The boolean is the truthiness of what the promise resolves with: an
    object on success, [false] on 404, [undefined] after an error. *)
Definition downloadAsync (h : Handler) (url directory name : string) (retry : bool)
    (w : World) : World * bool :=
  let w1 := download_attempt h url directory name w in
  match remote w url with
  | Served _ => (w1, true)
  | NotFound _ => (w1, false)
  | Unreachable =>
      if retry then (download_attempt h url directory name w1, false)
      else (w1, false)
  end.

(** [checkSum(hash, file)] *)
Definition checkSum (w : World) (hash file : string) : bool :=
  match files w !! file with
  | Some d => Str.eqb hash d
  | None => false
  end.

(** The network requests among the effects. *)
Definition is_fetch (e : Effect) : bool :=
  match e with
  | Download _ _ _ | Get _ => true
  | _ => false
  end.

Definition fetches (t : list Effect) : list Effect :=
  filter (λ e, is_fetch e = true) t.

(** ** [popString], [cleanUp] *)

Definition popString (path : string) : string :=
  let tempArray := Str.split "/" path in
  Str.join "/" (take (length tempArray - 1) tempArray).

Definition includes (l : list string) (x : string) : bool := bool_decide (x ∈ l).

(** The loop of [cleanUp], with [newArray] as accumulator. *)
Fixpoint cleanUp_from (newArray array : list string) : list string :=
  match array with
  | [] => newArray
  | x :: r =>
      if includes newArray x then cleanUp_from newArray r
      else cleanUp_from (newArray ++ [x]) r
  end.

Definition cleanUp (array : list string) : list string := cleanUp_from [] array.

(** Duplicate removal that keeps each first occurrence, as the
    specification words it. *)
Fixpoint first_occurrences (l : list string) : list string :=
  match l with
  | [] => []
  | x :: r => x :: filter (λ y, y ≠ x) (first_occurrences r)
  end.

(** ** 4.G  [downloadToDirectory] *)

Definition libraryDirectory (h : Handler) : string :=
  path_resolve (platform h)
    (str_or (libraryRoot (overrides (options h)))
            (path_join (platform h) (root (options h)) "libraries")).

Definition artifact_path (library : Library) : option string :=
  d ← lib_downloads library; a ← artifact d; p ← art_path a;
  if Str.nonempty p then Some p else None.

(** [name] and [jarPath] of a library, lines 411-421. *)
Definition jar_name (library : Library) : string :=
  let lib := Str.split ":" (lib_name library) in
  match artifact_path library with
  | Some p => default "" (last (Str.split "/" p))
  | None =>
      Str.template_nth lib 1 +:+ "-" +:+ Str.template_nth lib 2
        +:+ (match lib !! 3 with
             | Some c => if Str.nonempty c then "-" +:+ c else ""
             | None => ""
             end)
        +:+ ".jar"
  end.

Definition maven_dir (lib : list string) : string :=
  Str.dots_to_slashes (Str.template_nth lib 0) +:+ "/" +:+ Str.template_nth lib 1
    +:+ "/" +:+ Str.template_nth lib 2.

Definition jar_path (h : Handler) (directory : string) (library : Library) : string :=
  let lib := Str.split ":" (lib_name library) in
  match artifact_path library with
  | Some p => path_join (platform h) directory (popString p)
  | None => path_join (platform h) directory (maven_dir lib)
  end.

Definition url_set (library : Library) : option string :=
  match lib_url library with
  | Some u => if Str.nonempty u then Some u else None
  | None => None
  end.

Definition artifact_of (library : Library) : option Artifact :=
  d ← lib_downloads library; artifact d.

(** The body of the callback at lines 409-440 for one library. *)
Definition download_library (h : Handler) (directory : string)
    (library : option Library) (s : World * list string) : World * list string :=
  match library with
  | None => s
  | Some library =>
      let '(w, libs) := s in
      let lib := Str.split ":" (lib_name library) in
      let name := jar_name library in
      let jarPath := jar_path h directory library in
      let w :=
        if negb (exists_ w (path_join (platform h) jarPath name)) then
          match url_set library with
          | Some u =>
              (downloadAsync h (u +:+ maven_dir lib +:+ "/" +:+ name)
                             jarPath name true w).1
          | None =>
              match artifact_of library with
              | Some a => (downloadAsync h (art_url a) jarPath name true w).1
              | None => w
              end
          end
        else w in
      (w, libs ++ [jarPath +:+ path_sep (platform h) +:+ name])
  end.

(** [downloadToDirectory(directory, libraries, eventName)], the
    callbacks taken in array order.  The source's list is in completion
    order: [downloadToDirectory_in] takes that order as an argument. *)
Definition downloadToDirectory (h : Handler) (directory : string)
    (libraries : list (option Library)) (w : World) : World * list string :=
  foldl (λ s library, download_library h directory library s) (w, []) libraries.

(** ** 4.H  [getNatives] *)

Definition nativeDirectory (h : Handler) : string :=
  let p := platform h in
  path_resolve p
    (str_or (natives (overrides (options h)))
            (path_join p (path_join p (root (options h)) "natives") (id (version h)))).

Definition readdir (w : World) (directory : string) : list string :=
  default [] (listing w !! directory).

(** [fsPromises.readdir(nativeDirectory).length]: member access binds
    tighter than [await], so this is the [length] property of the promise
    that [readdir] returns, and a promise has none.  The listing is never
    looked at. *)
Definition readdir_promise_length (w : World) (directory : string) : value :=
  VUndefined.

Fixpoint classifier (c : list (string * Artifact)) (k : string) : option Artifact :=
  match c with
  | [] => None
  | (k', a) :: r => if Str.eqb k k' then Some a else classifier r k
  end.

Definition select_native (h : Handler) (c : list (string * Artifact)) : option Artifact :=
  if Str.eqb (getOS h) "osx"
  then match classifier c "natives-osx" with
       | Some a => Some a
       | None => classifier c "natives-macos"
       end
  else classifier c ("natives-" +:+ getOS h).

(** The inner function [natives], lines 247-260. *)
Fixpoint collect_natives (h : Handler) (libs : list Library)
  : completion (list (option Artifact)) :=
  match libs with
  | [] => Normal []
  | lib :: r =>
      match lib_downloads lib with
      | None => Throw TypeError
      | Some d =>
          match classifiers d with
          | None => collect_natives h r
          | Some c =>
              v ← parseRule h lib;
              if truthy v then collect_natives h r
              else rest ← collect_natives h r; mret (select_native h c :: rest)
          end
      end
  end.

(** The callback at lines 269-293 for one selected native.  [Unzip]
    records that the archive is handed to the extractor inside the
    [try] block; the files the extractor adds to the directory or
    overwrites there are not tracked, so nothing is proved about the
    other files of the natives directory. *)
Definition install_native (h : Handler) (directory : string)
    (native : option Artifact) (w : World) : completion World :=
  match native with
  | None => Normal w
  | Some n =>
      match art_path n with
      | None => Throw TypeError
      | Some p =>
          let name := default "" (last (Str.split "/" p)) in
          let w := (downloadAsync h (art_url n) directory name true w).1 in
          let w :=
            if negb (checkSum w (art_sha1 n) (path_join (platform h) directory name))
            then (downloadAsync h (art_url n) directory name true w).1
            else w in
          let w := log (Unzip (path_join (platform h) directory name) directory) w in
          Normal (rm directory name (platform h) w)
      end
  end.

Fixpoint install_natives (h : Handler) (directory : string)
    (stat : list (option Artifact)) (w : World) : completion World :=
  match stat with
  | [] => Normal w
  | native :: r =>
      w ← install_native h directory native w;
      install_natives h directory r w
  end.

Definition getNatives (h : Handler) (w : World) : completion (World * string) :=
  let nativeDirectory := nativeDirectory h in
  if negb (exists_ w nativeDirectory)
     || negb (truthy (readdir_promise_length w nativeDirectory))
  then
    let w := mkdir_p nativeDirectory w in
    stat ← collect_natives h (libraries (version h));
    w ← install_natives h nativeDirectory stat w;
    mret (w, nativeDirectory)
  else mret (w, nativeDirectory).

(** ** 4.J  Forge *)

(** What [getForgeDependenciesLegacy] returns: [false] for an installer
    JAR, [null] when [version.json] cannot be extracted, and otherwise
    [{paths, forge}]. *)
Inductive ForgeResult : Type :=
| ForgeFalse
| ForgeNull
| ForgeLegacy (paths : list string) (forge_json : Descriptor).

(** [s.includes('forge')] *)
Definition includes_forge (s : string) : bool :=
  bool_decide (is_Some (String.index 0 "forge" s)).

(** The callback at lines 334-371 for one library of the Forge descriptor. *)
Definition forge_library (h : Handler) (library : Library)
    (s : World * list string) : completion (World * list string) :=
  let '(w, paths) := s in
  let p := platform h in
  let lib := Str.split ":" (lib_name library) in
  skip ←
    (if Str.eqb (Str.template_nth lib 0) "net.minecraftforge" then
       match lib !! 1 with
       | Some a => Normal (includes_forge a)
       | None => Throw TypeError
       end
     else Normal false);
  if (skip : bool) then Normal s else
  let jarPath := path_join p (libraryDirectory h) (maven_dir lib) in
  let name := Str.template_nth lib 1 +:+ "-" +:+ Str.template_nth lib 2 +:+ ".jar" in
  let url :=
    match url_set library with
    | Some _ => Some (url_mavenForge (overrides (options h)))
    | None =>
        if truthy (js_or (serverreq library) (clientreq library))
        then Some (url_defaultRepoForge (overrides (options h)))
        else None
    end in
  match url with
  | None => Normal s
  | Some url =>
      let downloadLink := url +:+ maven_dir lib +:+ "/" +:+ name in
      if exists_ w (path_join p jarPath name)
      then Normal (w, paths ++ [jarPath +:+ path_sep p +:+ name])
      else
        let w := if negb (exists_ w jarPath) then mkdir_p jarPath w else w in
        let '(w, download) := downloadAsync h downloadLink jarPath name true w in
        let w :=
          if negb download
          then (downloadAsync h (url_fallbackMaven (overrides (options h))
                                   +:+ maven_dir lib +:+ "/" +:+ name)
                              jarPath name true w).1
          else w in
        Normal (w, paths ++ [jarPath +:+ path_sep p +:+ name])
  end.

(** The callbacks of lines 334-371 taken in array order; the source's
    [paths] is in completion order. *)
Fixpoint forge_libraries (h : Handler) (libs : list Library)
    (s : World * list string) : completion (World * list string) :=
  match libs with
  | [] => Normal s
  | library :: r => s ← forge_library h library s; forge_libraries h r s
  end.

(** [forgePath] is [this.options.forge] after [launch] has resolved it. *)
Definition getForgeDependenciesLegacy (h : Handler) (forgePath : string) (w : World)
  : completion (World * ForgeResult) :=
  let p := platform h in
  let forgeDir := path_join p (root (options h)) "forge" in
  let w := if negb (exists_ w forgeDir) then mkdir_p forgeDir w else w in
  match archives w !! forgePath with
  | None => Throw "ZipError"
  | Some zipFile =>
      if bool_decide ("install_profile.json" ∈ entries zipFile)
      then Normal (w, ForgeFalse)
      else
        match version_json zipFile with
        | None => Normal (w, ForgeNull)
        | Some forge_json =>
            let w := log (Unzip forgePath (path_join p forgeDir (id (version h)))) w in
            '(w, paths) ← forge_libraries h (libraries forge_json) (w, []);
            mret (w, ForgeLegacy paths forge_json)
        end
  end.

(** The value [launch] holds in [custom]. *)
Inductive CustomValue : Type :=
| CustomNull
| CustomDescriptor (d : Descriptor)
| CustomFactory.    (* the function object [getForgedWrapped] returns *)

Definition dquote : string := String (Ascii.ascii_of_nat 34) EmptyString.

(** The command line built at lines 382-384. *)
Definition forgeWrapper_command (h : Handler) (forgePath : string) : string :=
  let p := platform h in
  dquote +:+ str_or (javaPath (options h)) "java" +:+ dquote +:+ " -jar "
    +:+ path_resolve p (fw_jar (forgeWrapper (options h)))
    +:+ " --installer=" +:+ forgePath
    +:+ " --instance=" +:+ root (options h)
    +:+ " --saveTo="
    +:+ path_join p (path_join p (path_join p (path_join p (path_join p
          (libraryDirectory h) "io") "github") "zekerzhayard") "ForgeWrapper")
          (fw_version (forgeWrapper (options h))).

(** The body of the function at lines 380-396, were it ever called: it
    runs the wrapper and reads [version.json], and has no [return]. *)
Definition forgeWrapper_body (h : Handler) (forgePath : string) (w : World)
  : World * value :=
  (log (Exec (forgeWrapper_command h forgePath)) w, VUndefined).

(** [getForgedWrapped()]: the method only builds that function and
    returns it. *)
Definition getForgedWrapped (h : Handler) (forgePath : string) (w : World)
  : World * CustomValue :=
  (w, CustomFactory).

(** ** 4.G  [getClasses] *)

(** The [map] at lines 458-460: a library is kept when it has
    [downloads.artifact] and [parseRule] does not exclude it; otherwise
    its slot holds [undefined]. *)
Fixpoint parsed_libraries (h : Handler) (libs : list Library)
  : completion (list (option Library)) :=
  match libs with
  | [] => Normal []
  | lib :: r =>
      match lib_downloads lib with
      | None => Throw TypeError
      | Some d =>
          keep ←
            match artifact d with
            | Some _ => v ← parseRule h lib; mret (negb (truthy v))
            | None => Normal false
            end;
          rest ← parsed_libraries h r;
          mret ((if (keep : bool) then Some lib else None) :: rest)
      end
  end.

(** [getClasses(classJson)].  Each of the two lists it concatenates is
    in the completion order of its [downloadToDirectory]; here both
    are in array order. *)
Definition getClasses (h : Handler) (classJson : CustomValue) (w : World)
  : completion (World * list string) :=
  let libraryDirectory := libraryDirectory h in
  '(w, libs) ←
     match classJson with
     | CustomNull => Normal (w, [])
     | CustomDescriptor d =>
         let w :=
           match mavenFiles d with
           | Some mf => (downloadToDirectory h libraryDirectory (Some <$> mf) w).1
           | None => w
           end in
         Normal (downloadToDirectory h libraryDirectory (Some <$> libraries d) w)
     | CustomFactory =>
         (* a function has no [libraries]: [undefined.map] *)
         Throw TypeError
     end;
  parsed ← parsed_libraries h (libraries (version h));
  let '(w, more) := downloadToDirectory h libraryDirectory parsed w in
  mret (w, libs ++ more).

(** ** 4.E  [getVersion] *)

Inductive Settled : Type :=
| Pending
| Resolved (d : Descriptor)
| ResolvedError.

(** [resolve(v)] on a promise: only the first call counts. *)
Definition resolve (s new : Settled) : Settled :=
  match s with
  | Pending => new
  | _ => s
  end.

Record VersionRun := {
  settled : Settled;
  this_version : option Descriptor;
  world_after : World
}.

Definition versionJsonPath (h : Handler) : string :=
  str_or (versionJson (overrides (options h)))
         (path_join (platform h) (directory (options h))
                    (version_number (options h) +:+ ".json")).

Definition manifest_url (h : Handler) : string :=
  url_meta (overrides (options h)) +:+ "/mc/game/version_manifest.json".

(** The callback of the inner [request.get], for one manifest entry. *)
Definition fetch_listed_version (h : Handler) (entry : string * string)
    (run : VersionRun) : VersionRun :=
  if Str.eqb entry.1 (version_number (options h)) then
    let w := log (Get entry.2) (world_after run) in
    match remote_descriptor w entry.2 with
    | Some d =>
        {| settled := resolve (settled run) (Resolved d);
           this_version := Some d; world_after := w |}
    | None =>
        {| settled := resolve (settled run) ResolvedError;
           this_version := this_version run; world_after := w |}
    end
  else run.

(** [getVersion], with its callbacks run to completion.  When the file
    cannot be read, [.catch()] installs no handler, the [await] throws
    inside the executor and the promise stays pending. *)
Definition getVersion (h : Handler) (w : World) : VersionRun :=
  match descriptors w !! versionJsonPath h with
  | None => {| settled := Pending; this_version := None; world_after := w |}
  | Some d =>
      let run := {| settled := resolve Pending (Resolved d);
                    this_version := Some d;
                    world_after := log (Get (manifest_url h)) w |} in
      match manifest w with
      | None =>
          {| settled := resolve (settled run) ResolvedError;
             this_version := this_version run; world_after := world_after run |}
      | Some versions =>
          foldl (λ run entry, fetch_listed_version h entry run) run versions
      end
  end.

(** ** 4.L  [launch], lines 64-124: Forge, custom descriptor, class path *)

Definition forge_set (o : Options) : option string :=
  match forge o with
  | Some f => if Str.nonempty f then Some f else None
  | None => None
  end.

Definition version_custom_set (o : Options) : option string :=
  match version_custom o with
  | Some c => if Str.nonempty c then Some c else None
  | None => None
  end.

Definition mcPath (h : Handler) : string :=
  let p := platform h in
  let o := options h in
  str_or (minecraftJar (overrides o))
    (match version_custom_set o with
     | Some c => path_join p (path_join p (path_join p (root o) "versions") c) (c +:+ ".jar")
     | None => path_join p (directory o) (version_number o +:+ ".jar")
     end).

(** Lines 78-89: the values of [forge] and [custom]. *)
Definition forge_phase (h : Handler) (w : World)
  : completion (World * option ForgeResult * CustomValue) :=
  let p := platform h in
  '(w, forge, custom) ←
     match forge_set (options h) with
     | Some f =>
         let forgePath := path_resolve p f in
         '(w, forge) ← getForgeDependenciesLegacy h forgePath w;
         match forge with
         | ForgeFalse =>
             let '(w, custom) := getForgedWrapped h forgePath w in
             mret (w, Some forge, custom)
         | _ => mret (w, Some forge, CustomNull)
         end
     | None => mret (w, None, CustomNull)
     end;
  match custom with
  | CustomNull =>
      match version_custom_set (options h) with
      | Some c =>
          match descriptors w !! path_join p (path_join p (path_join p
                  (root (options h)) "versions") c) (c +:+ ".json") with
          | Some d => mret (w, forge, CustomDescriptor d)
          | None => Throw "ENOENT"
          end
      | None => mret (w, forge, custom)
      end
  | _ => mret (w, forge, custom)
  end.

Definition separator_char (h : Handler) : ascii :=
  if Str.eqb (getOS h) "windows" then ";"%char else ":"%char.

Definition separator (h : Handler) : string := String (separator_char h) EmptyString.

(** The array [classPaths] without its first element [-cp]: the class
    path string and the main class. *)
Record ClassPaths := { cp : string; main : value }.

Definition launch_classpath (h : Handler) (w : World) : completion (World * ClassPaths) :=
  let p := platform h in
  let sep := separator h in
  '(w, forge, custom) ← forge_phase h w;
  '(w, classes) ←
     match classes (overrides (options h)) with
     | Some c => Normal (w, c)
     | None => '(w, raw) ← getClasses h custom w; mret (w, cleanUp raw)
     end;
  match forge with
  | Some (ForgeLegacy paths forge_json) =>
      mret (w, {| cp := path_resolve p (path_resolve p (default "" (forge_set (options h))))
                        +:+ sep +:+ Str.join sep paths
                        +:+ sep +:+ Str.join sep classes
                        +:+ sep +:+ mcPath h;
                  main := VString (mainClass forge_json) |})
  | _ =>
      let jar :=
        if exists_ w (mcPath h) then sep +:+ mcPath h
        else sep +:+ path_join p (directory (options h))
                               (version_number (options h) +:+ ".jar") in
      mret (w, {| cp := Str.join sep classes +:+ jar;
                  main := match custom with
                          | CustomDescriptor d => VString (mainClass d)
                          | CustomFactory => VUndefined
                          | CustomNull => VString (mainClass (version h))
                          end |})
  end.

(** The entries of a class path string, as the JVM reads it. *)
Definition classpath_entries (h : Handler) (c : string) : list string :=
  Str.split (separator_char h) c.

(** ** Worked inputs for the world *)

Definition empty_world (net : string → Response) : World := {|
  files := ∅; listing := ∅; descriptors := ∅; archives := ∅;
  remote := net; manifest := None; remote_descriptor := λ _, None;
  trace := []
|}.

Definition serving (sha1 : string) : string → Response := λ _, Served sha1.

(** *** Natives already extracted *)

Definition lwjgl_natives : Library := {|
  lib_name := "org.lwjgl.lwjgl:lwjgl-platform:2.9.4-nightly-20150209";
  lib_downloads := Some {|
    artifact := None;
    classifiers := Some
      [ ("natives-linux",
         {| art_path := Some "org/lwjgl/lwjgl/lwjgl-platform/2.9.4-nightly-20150209/lwjgl-platform-2.9.4-nightly-20150209-natives-linux.jar";
            art_url := "https://libraries.minecraft.net/org/lwjgl/lwjgl/lwjgl-platform/2.9.4-nightly-20150209/lwjgl-platform-2.9.4-nightly-20150209-natives-linux.jar";
            art_sha1 := "931074f46c795d2f7b30ed6395df5715cfd7675b" |}) ] |};
  lib_rules := None; lib_url := None;
  serverreq := VUndefined; clientreq := VUndefined
|}.

Definition handler_1_8_9 : Handler := {|
  platform := posix "linux";
  options := plain_options "1.8.9";
  version := {|
    id := "1.8.9"; mainClass := "net.minecraft.client.main.Main";
    assets := "1.8"; assetIndex_id := "1.8";
    minecraftArguments := Some "--username ${auth_player_name} --version ${version_name} --gameDir ${game_directory} --assetsDir ${assets_root} --assetIndex ${assets_index_name} --uuid ${auth_uuid} --accessToken ${auth_access_token} --userProperties ${user_properties} --userType ${user_type}";
    arguments_game := None;
    libraries := [lwjgl_natives]; mavenFiles := None |}
|}.

Definition natives_present : World := {|
  files := {[ "/tmp/mc/natives/1.8.9/liblwjgl.so" := "0f4a" ]};
  listing := {[ "/tmp/mc/natives/1.8.9" := ["liblwjgl.so"] ]};
  descriptors := {[ "/tmp/mc/versions/1.8.9/1.8.9.json" := version handler_1_8_9 ]};
  archives := ∅;
  remote := serving "931074f46c795d2f7b30ed6395df5715cfd7675b";
  manifest := Some [ ("1.9", "https://launchermeta.mojang.com/v1/packages/1.9.json");
                     ("1.8.9", "https://launchermeta.mojang.com/v1/packages/1.8.9.json") ];
  remote_descriptor := λ _, Some (version handler_1_8_9);
  trace := []
|}.

(** *** A modern Forge installer *)

Definition forge_installer : string := "/tmp/forge-1.16.5-36.2.39-installer.jar".

Definition options_forge (f : string) : Options := {|
  opt_os := None; root := "/tmp/mc";
  directory := "/tmp/mc/versions/1.8.9";
  version_number := "1.8.9"; version_type := VString "release";
  version_custom := None; authorization := steve;
  window := None; server := None; proxy := None;
  customLaunchArgs := None; forge := Some f; javaPath := None;
  forgeWrapper := bundled_wrapper; overrides := no_overrides
|}.

Definition handler_forge (f : string) (libs : list Library) : Handler := {|
  platform := posix "linux";
  options := options_forge f;
  version := {|
    id := "1.8.9"; mainClass := "net.minecraft.client.main.Main";
    assets := "1.8"; assetIndex_id := "1.8";
    minecraftArguments := Some "--username ${auth_player_name}";
    arguments_game := None;
    libraries := libs; mavenFiles := None |}
|}.

Definition installer_world : World := {|
  files := {[ forge_installer := "77aa" ]};
  listing := ∅; descriptors := ∅;
  archives := {[ forge_installer :=
                   {| entries := ["install_profile.json"; "version.json"; "data/client.lzma"];
                      version_json := None |} ]};
  remote := serving "00"; manifest := None; remote_descriptor := λ _, None;
  trace := []
|}.

(** *** A legacy Forge JAR that shares a library with the vanilla list *)

Definition forge_universal : string := "/tmp/forge-1.8.9-universal.jar".

Definition guava_forge : Library := {|
  lib_name := "com.google.guava:guava:17.0";
  lib_downloads := None; lib_rules := None; lib_url := None;
  serverreq := VBool true; clientreq := VBool true
|}.

Definition guava_vanilla : Library := {|
  lib_name := "com.google.guava:guava:17.0";
  lib_downloads := Some {|
    artifact := Some {| art_path := Some "com/google/guava/guava/17.0/guava-17.0.jar";
                        art_url := "https://libraries.minecraft.net/com/google/guava/guava/17.0/guava-17.0.jar";
                        art_sha1 := "9c6ef172e8de35fd8d4d8783e4821e57cdef7445" |};
    classifiers := None |};
  lib_rules := None; lib_url := None;
  serverreq := VUndefined; clientreq := VUndefined
|}.

Definition universal_world : World := {|
  files := {[ forge_universal := "55bb" ]};
  listing := ∅; descriptors := ∅;
  archives := {[ forge_universal :=
                   {| entries := ["version.json"; "net/minecraftforge/common/ForgeVersion.class"];
                      version_json := Some {|
                        id := "1.8.9-forge1.8.9-11.15.1.2318";
                        mainClass := "net.minecraft.launchwrapper.Launch";
                        assets := "1.8"; assetIndex_id := "1.8";
                        minecraftArguments := Some "--username ${auth_player_name} --tweakClass net.minecraftforge.fml.common.launcher.FMLTweaker";
                        arguments_game := None;
                        libraries := [guava_forge]; mavenFiles := None |} |} ]};
  remote := serving "9c6ef172e8de35fd8d4d8783e4821e57cdef7445";
  manifest := None; remote_descriptor := λ _, None;
  trace := []
|}.

(** *** A library with neither [downloads.artifact] nor [url] *)

Definition bare_library : Library := {|
  lib_name := "com.example:optional:1.0";
  lib_downloads := None; lib_rules := None; lib_url := None;
  serverreq := VUndefined; clientreq := VUndefined
|}.

(** The class path entry [downloadToDirectory] pushes for a library. *)
Definition library_entry (h : Handler) (directory : string) (library : Library) : string :=
  jar_path h directory library +:+ path_sep (platform h) +:+ jar_name library.

(** ** Further parts of the source *)

(** [s.includes(c)] for a single character [c]. *)
Fixpoint has_char (c : ascii) (s : string) : bool :=
  match s with
  | EmptyString => false
  | String a r => Ascii.eqb a c || has_char c r
  end.

(** A transport error. *)
Definition unreachable (r : Response) : bool :=
  match r with
  | Unreachable => true
  | _ => false
  end.

(** A library that [downloadToDirectory] passes over without a request:
    its JAR is on disk, or it names no source. *)
Definition library_at_rest (h : Handler) (directory : string) (w : World)
    (library : Library) : Prop :=
  exists_ w (path_join (platform h) (jar_path h directory library) (jar_name library)) = true
  ∨ (url_set library = None ∧ artifact_of library = None).

Definition libraries_at_rest (h : Handler) (directory : string) (w : World)
    (libraries : list (option Library)) : Prop :=
  Forall (λ o, from_option (library_at_rest h directory w) True o) libraries.

(** *** Natives *)

(** The file name [install_native] gives the archive of a native. *)
Definition native_name (n : Artifact) : string :=
  default "" (last (Str.split "/" (default "" (art_path n)))).

Definition native_archive (h : Handler) (n : Artifact) : string :=
  path_join (platform h) (nativeDirectory h) (native_name n).

(** A selected native that [install_native] can name: [undefined], or an
    artifact with a [path]. *)
Definition has_path (native : option Artifact) : Prop :=
  from_option (λ n, is_Some (art_path n)) True native.

(** A library entry of a Forge descriptor without a colon-free name. *)
Definition launchwrapper_bare : Library := {|
  lib_name := "launchwrapper"; lib_downloads := None;
  lib_rules := None; lib_url := None;
  serverreq := VUndefined; clientreq := VUndefined
|}.

(** *** Forge libraries *)

Definition forge_jar_dir (h : Handler) (library : Library) : string :=
  path_join (platform h) (libraryDirectory h)
            (maven_dir (Str.split ":" (lib_name library))).

Definition forge_jar_name (library : Library) : string :=
  Str.template_nth (Str.split ":" (lib_name library)) 1 +:+ "-"
    +:+ Str.template_nth (Str.split ":" (lib_name library)) 2 +:+ ".jar".

(** The file [forge_library] tests and fetches, and the entry it pushes. *)
Definition forge_target (h : Handler) (library : Library) : string :=
  path_join (platform h) (forge_jar_dir h library) (forge_jar_name library).

Definition forge_entry (h : Handler) (library : Library) : string :=
  forge_jar_dir h library +:+ path_sep (platform h) +:+ forge_jar_name library.

(** *** The version manifest *)

(** The URLs of the manifest entries whose [id] is the wanted version. *)
Definition matching_urls (h : Handler) (versions : list (string * string)) : list string :=
  (λ entry, entry.2) <$> filter (λ entry, entry.1 = version_number (options h)) versions.


(** *** The class path *)

(** The client JAR [launch] appends in the branch without legacy Forge,
    lines 119-121. *)
Definition client_jar (h : Handler) (w : World) : string :=
  if exists_ w (mcPath h) then mcPath h
  else path_join (platform h) (directory (options h))
                 (version_number (options h) +:+ ".jar").

(** A path that can stand in a class path: it does not contain the
    separator. *)
Definition no_separator (h : Handler) (path : string) : Prop :=
  has_char (separator_char h) path = false.

Definition handler_guava : Handler := {|
  platform := posix "linux";
  options := plain_options "1.8.9";
  version := {|
    id := "1.8.9"; mainClass := "net.minecraft.client.main.Main";
    assets := "1.8"; assetIndex_id := "1.8";
    minecraftArguments := Some "--username ${auth_player_name}";
    arguments_game := None;
    libraries := [guava_vanilla; guava_vanilla]; mavenFiles := None |}
|}.

(** The first entry of the legacy Forge class path, line 114:
    [path.resolve] of the already resolved [options.forge]. *)
Definition forge_jar (h : Handler) : string :=
  path_resolve (platform h)
    (path_resolve (platform h) (default "" (forge_set (options h)))).

(** ** [getJar]

    Two things the method reads are not part of the records above and
    are passed in: [client_url] is [this.version.downloads.client.url],
    and [json_sha1] is the digest of [JSON.stringify(this.version, null, 4)].
    The file written parses back to [this.version]. *)

Definition write_json (directory name sha1 : string) (d : Descriptor)
    (p : Platform) (w : World) : World := {|
  files := <[path_join p directory name := sha1]> (files w);
  listing := <[directory := name :: default [] (listing w !! directory)]> (listing w);
  descriptors := <[path_join p directory name := d]> (descriptors w);
  archives := archives w; remote := remote w; manifest := manifest w;
  remote_descriptor := remote_descriptor w;
  trace := trace w
|}.

Definition getJar (h : Handler) (client_url json_sha1 : string) (w : World) : World :=
  let o := options h in
  let w := (downloadAsync h client_url (directory o)
                          (version_number o +:+ ".jar") true w).1 in
  write_json (directory o) (version_number o +:+ ".json") json_sha1 (version h)
             (platform h) w.

(** ** 4.I  [getAssets]

    [index_url] is [this.version.assetIndex.url] and [resource] is
    [this.options.overrides.url.resource].  [parse_index] stands for
    [JSON.parse] followed by reading [objects]: it takes the digest of
    the index file to the pairs of asset name and hash, in key order, and
    is [None] when that fails.  [copyFile] gives the target the digest of
    the source. *)

Definition assetDirectory (h : Handler) : string :=
  path_resolve (platform h)
    (str_or (assetRoot (overrides (options h)))
            (path_join (platform h) (root (options h)) "assets")).

Definition subhash (hash : string) : string := String.substring 0 2 hash.

Definition subAsset (h : Handler) (hash : string) : string :=
  path_join (platform h) (path_join (platform h) (assetDirectory h) "objects")
            (subhash hash).

(** [path.join(subAsset, hash)] *)
Definition asset_file (h : Handler) (hash : string) : string :=
  path_join (platform h) (subAsset h hash) hash.

Definition asset_url (resource hash : string) : string :=
  resource +:+ "/" +:+ subhash hash +:+ "/" +:+ hash.

(** The callback at lines 167-182 for one object. *)
Definition fetch_asset (h : Handler) (resource : string) (w : World)
    (object : string * string) : World :=
  let hash := object.2 in
  if negb (exists_ w (asset_file h hash))
     || negb (checkSum w hash (asset_file h hash))
  then (downloadAsync h (asset_url resource hash) (subAsset h hash) hash true w).1
  else w.

Definition legacy_file (h : Handler) (asset : string) : string :=
  path_join (platform h) (path_join (platform h) (assetDirectory h) "legacy") asset.

Definition copy_file (src_sha1 dst : string) (w : World) : World := {|
  files := <[dst := src_sha1]> (files w);
  listing := listing w; descriptors := descriptors w;
  archives := archives w; remote := remote w; manifest := manifest w;
  remote_descriptor := remote_descriptor w;
  trace := trace w
|}.

(** The callback at lines 195-216 for one object. *)
Definition copy_legacy (h : Handler) (object : string * string) (w : World)
  : completion World :=
  let asset := object.1 in
  let hash := object.2 in
  let legacyDir := legacy_file h (popString asset) in
  let w := if negb (exists_ w legacyDir) then mkdir_p legacyDir w else w in
  if negb (exists_ w (legacy_file h asset)) then
    match files w !! asset_file h hash with
    | Some sha1 => Normal (copy_file sha1 (legacy_file h asset) w)
    | None => Throw "ENOENT"
    end
  else Normal w.

Fixpoint copy_all (h : Handler) (objects : list (string * string)) (w : World)
  : completion World :=
  match objects with
  | [] => Normal w
  | object :: r => w ← copy_legacy h object w; copy_all h r w
  end.

Definition index_file (h : Handler) : string :=
  path_join (platform h) (path_join (platform h) (assetDirectory h) "indexes")
            (assetIndex_id (version h) +:+ ".json").

Definition getAssets (h : Handler) (index_url resource : string)
    (parse_index : string → option (list (string * string))) (w : World)
  : completion World :=
  let p := platform h in
  let w :=
    if negb (exists_ w (index_file h))
    then (downloadAsync h index_url (path_join p (assetDirectory h) "indexes")
                        (assetIndex_id (version h) +:+ ".json") true w).1
    else w in
  match files w !! index_file h with
  | None => Throw "ENOENT"
  | Some sha1 =>
      match parse_index sha1 with
      | None => Throw "SyntaxError"
      | Some objects =>
          let w := foldl (fetch_asset h resource) w objects in
          if isLegacy h then copy_all h objects w else Normal w
      end
  end.

(** *** Worked inputs *)

Definition icon_hash : string := "bdf48ef6b5d0d23bbb02e17d04865216179f510a".
Definition lang_hash : string := "e9c4ff0f1e2b4d8c9a3f5b7d6e8a0c1b2d3f4a5b".

Definition index_1_8 (sha1 : string) : option (list (string * string)) :=
  if Str.eqb sha1 "1d5c" then
    Some [ ("icons/icon_16x16.png", icon_hash);
           ("minecraft/lang/en_GB.lang", lang_hash) ]
  else None.

(** A resource server that serves every object under its hash. *)
Definition content_addressed : string → Response := λ url,
  Served (default "" (last (Str.split "/" url))).

Definition assets_indexed : World := {|
  files := {[ "/tmp/mc/assets/indexes/1.8.json" := "1d5c" ]};
  listing := ∅; descriptors := ∅; archives := ∅;
  remote := content_addressed;
  manifest := None; remote_descriptor := λ _, None;
  trace := []
|}.

Definition assets_complete : World := {|
  files := {[ "/tmp/mc/assets/indexes/1.8.json" := "1d5c";
              "/tmp/mc/assets/objects/bd/bdf48ef6b5d0d23bbb02e17d04865216179f510a" := icon_hash;
              "/tmp/mc/assets/objects/e9/e9c4ff0f1e2b4d8c9a3f5b7d6e8a0c1b2d3f4a5b" := lang_hash ]};
  listing := ∅; descriptors := ∅; archives := ∅;
  remote := λ _, Unreachable;
  manifest := None; remote_descriptor := λ _, None;
  trace := []
|}.



(** ** The write stream of [downloadAsync]

    The stream [fs.createWriteStream] returns either finishes or raises
    an error, because the file cannot be opened or because a write
    fails.  On an error the handler at lines 90-96 removes the file if
    there is one and, like the request's error handler, calls
    [downloadAsync] once more with [retry] false when [retry] is set. *)
Inductive Stream : Type :=
| Finishes
| OpenFails
| WriteFails.

Definition finishes (s : Stream) : bool :=
  match s with
  | Finishes => true
  | _ => false
  end.

(** One attempt whose stream behaves as [s], up to and including the
    removal by the stream's error handler. *)
Definition download_attempt_stream (h : Handler) (url directory name : string)
    (s : Stream) (w : World) : World :=
  let p := platform h in
  match s with
  | Finishes => download_attempt h url directory name w
  | OpenFails =>
      let w := mkdir_p directory w in
      let w := log (Download url directory name) w in
      if exists_ w (path_join p directory name) then rm directory name p w else w
  | WriteFails =>
      let w := mkdir_p directory w in
      let w := log (Download url directory name) w in
      let w := write_file directory name empty_sha1 p w in
      if exists_ w (path_join p directory name) then rm directory name p w else w
  end.

(** [downloadAsync(url, directory, name, retry, type)] in general.
    [streams 0] is the stream of the first attempt, [streams 1] that of
    the attempt the request's error handler starts, [streams 2] that of
    the attempt the stream's error handler starts.  When the request
    and the stream of the first attempt both fail, both handlers run;
    they are taken here in the order in which they are registered. *)
Definition downloadAsync_stream (h : Handler) (url directory name : string)
    (retry : bool) (streams : nat → Stream) (w : World) : World * bool :=
  let w1 := download_attempt_stream h url directory name (streams 0) w in
  let w2 :=
    if retry && unreachable (remote w url)
    then download_attempt_stream h url directory name (streams 1) w1
    else w1 in
  let w3 :=
    if retry && negb (finishes (streams 0))
    then download_attempt_stream h url directory name (streams 2) w2
    else w2 in
  (w3, match remote w url with
       | Served _ => finishes (streams 0)
       | _ => false
       end).

(** ** Completion order of [downloadToDirectory]

    Every callback of [downloadToDirectory] pushes its path after its
    own awaits, so the list the method returns is in the order in which
    the callbacks complete.  [order] lists the indices of the array in
    that order; an index outside the array reads [undefined]. *)
Definition downloadToDirectory_in (h : Handler) (directory : string)
    (libraries : list (option Library)) (order : list nat) (w : World)
  : World * list string :=
  foldl (λ s i, download_library h directory
                  (libraries !! i ≫= λ library, library) s)
        (w, []) order.

(** The elements of an array in a given order. *)
Definition in_order {A : Type} (l : list (option A)) (order : list nat)
  : list (option A) :=
  (λ i, l !! i ≫= λ x, x) <$> order.

(** * Theorems *)

(** ** String equality *)

Lemma Str_eqb_spec (a b : string) : Str.eqb a b = true ↔ a = b.
Proof. apply String.eqb_eq. Qed.

Lemma Str_eqb_false (a b : string) : Str.eqb a b = false ↔ a ≠ b.
Proof. apply String.eqb_neq. Qed.

(** ** 4.F  The rule evaluator *)

(** C1, as the specification states it, fails: a library whose rules are
    [allow] followed by [disallow] on osx is excluded on osx by
    [parseRule], while the table of 4.F includes it there. *)
Lemma parseRule_spec_table_fails :
  included (handler_on "darwin")
           (lib_with_rules (Some [allow_any; disallow_os "osx"]))
    = Normal false
  ∧ spec_4F_included (Some [allow_any; disallow_os "osx"])
                     (getOS (handler_on "darwin")) = true.
Proof. split; reflexivity. Qed.

(** C1 (amended): the inclusion decision [parseRule] makes, shape by
    shape.  No [rules] field: included.  A single rule that is [allow]
    with an [os] clause: included exactly on osx.  Any other single rule:
    included (the function returns [undefined]).  Two or more rules whose
    first is [allow] and whose second is [disallow] with [os.name] osx:
    included exactly off osx.  Two or more rules whose first is [allow]
    and whose second is [disallow] without an [os] clause: a TypeError.
    Two or more rules of any other shape: excluded.  An empty [rules]
    array: a TypeError. *)
Theorem parseRule_inclusion_table (h : Handler) (lib : Library) :
  (lib_rules lib = None → included h lib = Normal true)
  ∧ (∀ r, lib_rules lib = Some [r] →
       action r = "allow" → is_Some (os r) →
       included h lib = Normal (bool_decide (getOS h = "osx")))
  ∧ (∀ r, lib_rules lib = Some [r] →
       action r ≠ "allow" ∨ os r = None →
       included h lib = Normal true)
  ∧ (∀ r0 r1 rest o, lib_rules lib = Some (r0 :: r1 :: rest) →
       action r0 = "allow" → action r1 = "disallow" →
       os r1 = Some o → os_name o = Some "osx" →
       included h lib = Normal (bool_decide (getOS h ≠ "osx")))
  ∧ (∀ r0 r1 rest, lib_rules lib = Some (r0 :: r1 :: rest) →
       action r0 ≠ "allow" ∨ action r1 ≠ "disallow"
         ∨ (∃ o, os r1 = Some o ∧ os_name o ≠ Some "osx") →
       included h lib = Normal false)
  ∧ (∀ r0 r1 rest, lib_rules lib = Some (r0 :: r1 :: rest) →
       action r0 = "allow" → action r1 = "disallow" → os r1 = None →
       included h lib = Throw TypeError)
  ∧ (lib_rules lib = Some [] → included h lib = Throw TypeError).
Proof.
  unfold included, parseRule.
  split; [|split; [|split; [|split; [|split; [|split]]]]].
  - by intros ->.
  - intros r -> Hact [o Ho].
    rewrite bool_decide_false by (cbn; lia). cbn. rewrite Hact, Ho. cbn.
    f_equal. rewrite negb_involutive.
    destruct (Str.eqb (getOS h) "osx") eqn:E.
    + apply Str_eqb_spec in E. by rewrite bool_decide_true.
    + apply Str_eqb_false in E. by rewrite bool_decide_false.
  - intros r -> Hr.
    rewrite bool_decide_false by (cbn; lia). cbn.
    destruct (Str.eqb (action r) "allow") eqn:E; [|done].
    apply Str_eqb_spec in E. destruct Hr as [Hr | Hr]; [done|].
    by rewrite Hr.
  - intros r0 r1 rest o -> H0 H1 Ho Hn.
    rewrite bool_decide_true by (cbn; lia). cbn.
    rewrite H0, H1, Ho. cbn. unfold os_is_osx. rewrite Hn. cbn. f_equal.
    destruct (Str.eqb (getOS h) "osx") eqn:E.
    + apply Str_eqb_spec in E. rewrite bool_decide_false; [done|]. by intros ?.
    + apply Str_eqb_false in E. by rewrite bool_decide_true.
  - intros r0 r1 rest -> Hshape.
    rewrite bool_decide_true by (cbn; lia). cbn.
    destruct (Str.eqb (action r0) "allow") eqn:E0; [|done].
    destruct (Str.eqb (action r1) "disallow") eqn:E1; [|done].
    apply Str_eqb_spec in E0. apply Str_eqb_spec in E1.
    destruct Hshape as [? | [? | (o & Ho & Hn)]]; [done | done |].
    rewrite Ho. unfold os_is_osx.
    destruct (os_name o) as [n|] eqn:En; [|done].
    destruct (Str.eqb n "osx") eqn:E; [|done].
    apply Str_eqb_spec in E. by subst.
  - intros r0 r1 rest -> H0 H1 Ho.
    rewrite bool_decide_true by (cbn; lia). cbn.
    by rewrite H0, H1, Ho.
  - intros ->. by rewrite bool_decide_false by (cbn; lia).
Qed.

Lemma parseRule_inclusion_table_witness :
  included (handler_on "linux") (lib_with_rules None) = Normal true
  ∧ included (handler_on "darwin") (lib_with_rules (Some [allow_os "osx"]))
      = Normal true
  ∧ included (handler_on "linux") (lib_with_rules (Some [allow_any]))
      = Normal true
  ∧ included (handler_on "linux")
             (lib_with_rules (Some [allow_any; disallow_os "osx"]))
      = Normal true
  ∧ included (handler_on "linux")
             (lib_with_rules (Some [allow_any; disallow_os "windows"]))
      = Normal false
  ∧ included (handler_on "linux")
             (lib_with_rules (Some [allow_any; {| action := "disallow"; os := None |}]))
      = Throw TypeError
  ∧ included (handler_on "linux") (lib_with_rules (Some [])) = Throw TypeError.
Proof.
  pose proof (parseRule_inclusion_table (handler_on "linux") (lib_with_rules None)) as H1.
  pose proof (parseRule_inclusion_table (handler_on "darwin")
               (lib_with_rules (Some [allow_os "osx"]))) as H2.
  pose proof (parseRule_inclusion_table (handler_on "linux")
               (lib_with_rules (Some [allow_any]))) as H3.
  pose proof (parseRule_inclusion_table (handler_on "linux")
               (lib_with_rules (Some [allow_any; disallow_os "osx"]))) as H4.
  pose proof (parseRule_inclusion_table (handler_on "linux")
               (lib_with_rules (Some [allow_any; disallow_os "windows"]))) as H5.
  pose proof (parseRule_inclusion_table (handler_on "linux")
               (lib_with_rules (Some [allow_any; {| action := "disallow"; os := None |}])))
    as H6.
  pose proof (parseRule_inclusion_table (handler_on "linux")
               (lib_with_rules (Some []))) as H7.
  split; [exact (proj1 H1 eq_refl)|].
  split; [exact (proj1 (proj2 H2) _ eq_refl eq_refl (ex_intro _ _ eq_refl))|].
  split; [exact (proj1 (proj2 (proj2 H3)) _ eq_refl (or_intror eq_refl))|].
  split; [exact (proj1 (proj2 (proj2 (proj2 H4))) _ _ _ _ eq_refl eq_refl eq_refl eq_refl eq_refl)|].
  split.
  { refine (proj1 (proj2 (proj2 (proj2 (proj2 H5)))) _ _ _ eq_refl _).
    right; right. eexists. split; [reflexivity|]. discriminate. }
  split; [exact (proj1 (proj2 (proj2 (proj2 (proj2 (proj2 H6))))) _ _ _ eq_refl eq_refl eq_refl eq_refl)|].
  exact (proj2 (proj2 (proj2 (proj2 (proj2 (proj2 H7))))) eq_refl).
Defined.

(** ** 4.K  The substitution loop *)

Lemma assoc_Some_elem (k : string) (t : list (string * value)) (v : value) :
  assoc k t = Some v → (k, v) ∈ t.
Proof.
  induction t as [|[k' v'] t IH]; cbn; [done|].
  destruct (Str.eqb k k') eqn:E.
  - apply Str_eqb_spec in E. intros [= ->]. subst. apply list_elem_of_here.
  - intros H. apply list_elem_of_further. auto.
Qed.

Lemma substitute_step_plain (t : list (string * value)) (pre : list value)
    (x : value) (r : list value) :
  typeof_object x = false →
  substitute_step t (length pre) (pre ++ x :: r) = pre ++ subst1 t x :: r.
Proof.
  intros Hx. unfold substitute_step.
  rewrite list_lookup_middle by done. cbn. rewrite Hx.
  rewrite list_lookup_middle by done. unfold subst1.
  destruct (field_of t x) as [v|]; cbn; [|done].
  by rewrite insert_app_r_alt, Nat.sub_diag by lia.
Qed.

Lemma splice2_middle (pre : list value) (l : list value) :
  splice2 (length pre) (pre ++ l) = pre ++ drop 2 l.
Proof.
  unfold splice2. rewrite take_app_length. f_equal.
  rewrite drop_app_ge by lia. f_equal. lia.
Qed.

Lemma substitute_step_object_end (t : list (string * value)) (pre : list value)
    (x : value) (r : list value) :
  typeof_object x = true → length r ≤ 1 →
  substitute_step t (length pre) (pre ++ x :: r) = pre.
Proof.
  intros Hx Hr. unfold substitute_step.
  rewrite list_lookup_middle by done. cbn. rewrite Hx.
  rewrite splice2_middle.
  assert (drop 2 (x :: r) = []) as -> by (apply drop_ge; cbn; lia).
  rewrite app_nil_r. by rewrite lookup_ge_None_2 by lia.
Qed.

Lemma substitute_step_object (t : list (string * value)) (pre : list value)
    (x z y : value) (r : list value) :
  typeof_object x = true →
  substitute_step t (length pre) (pre ++ x :: z :: y :: r)
    = pre ++ subst1 t y :: r.
Proof.
  intros Hx. unfold substitute_step.
  rewrite list_lookup_middle by done. cbn. rewrite Hx.
  rewrite splice2_middle. cbn.
  rewrite list_lookup_middle by done. unfold subst1.
  destruct (field_of t y) as [v|]; cbn; [|done].
  by rewrite insert_app_r_alt, Nat.sub_diag by lia.
Qed.

Lemma substitute_from_done (fuel : nat) (t : list (string * value))
    (index : nat) (args : list value) :
  length args ≤ index → substitute_from fuel t index args = args.
Proof.
  intros H. destruct fuel; cbn; [done|].
  by rewrite bool_decide_false by lia.
Qed.

(** With enough fuel the loop computes [sweep] on the part of the array it
    has not visited yet. *)
Lemma substitute_from_sweep (t : list (string * value)) (fuel : nat) :
  ∀ (pre l : list value), length l ≤ fuel →
    substitute_from fuel t (length pre) (pre ++ l) = pre ++ sweep t l.
Proof.
  induction fuel as [|fuel IH]; intros pre l Hl.
  - destruct l; [|cbn in Hl; lia]. done.
  - destruct l as [|x r].
    + rewrite substitute_from_done; [done|]. rewrite length_app. cbn. lia.
    + cbn [substitute_from].
      rewrite bool_decide_true by (rewrite length_app; cbn; lia).
      cbn in Hl. cbn [sweep].
      destruct (typeof_object x) eqn:Hx.
      * destruct r as [|z [|y r']].
        -- rewrite substitute_step_object_end by (done || cbn; lia).
           rewrite substitute_from_done by lia. by rewrite app_nil_r.
        -- rewrite substitute_step_object_end by (done || cbn; lia).
           rewrite substitute_from_done by lia. by rewrite app_nil_r.
        -- rewrite substitute_step_object by done.
           specialize (IH (pre ++ [subst1 t y]) r').
           rewrite length_app in IH. cbn in IH.
           rewrite Nat.add_1_r in IH. rewrite <- (assoc_L (++)) in IH.
           cbn in IH, Hl. rewrite IH by lia. by rewrite <- (assoc_L (++)).
      * rewrite substitute_step_plain by done.
        specialize (IH (pre ++ [subst1 t x]) r).
        rewrite length_app in IH. cbn in IH.
        rewrite Nat.add_1_r in IH. rewrite <- (assoc_L (++)) in IH.
        cbn in IH. rewrite IH by lia. by rewrite <- (assoc_L (++)).
Qed.

Lemma substitute_sweep (t : list (string * value)) (args : list value) :
  substitute t args = sweep t args.
Proof. apply (substitute_from_sweep t (length args) [] args). done. Qed.

(** More fuel than the length changes nothing: the loop has stopped. *)
Lemma substitute_from_fuel (t : list (string * value)) (fuel : nat)
    (args : list value) :
  length args ≤ fuel → substitute_from fuel t 0 args = substitute t args.
Proof.
  intros H. rewrite substitute_sweep.
  by apply (substitute_from_sweep t fuel [] args).
Qed.

Lemma sweep_length (t : list (string * value)) (l : list value) :
  length (sweep t l) ≤ length l.
Proof.
  induction l as [l IH] using (induction_ltof1 _ (@length value)).
  unfold ltof in IH.
  destruct l as [|x r]; cbn; [done|].
  destruct (typeof_object x).
  - destruct r as [|z [|y r']]; cbn; [lia | lia |].
    pose proof (IH r' ltac:(cbn; lia)). lia.
  - pose proof (IH r ltac:(cbn; lia)). cbn. lia.
Qed.

(** Every token the loop leaves behind is either a table value or an
    input token that is not a key. *)
Lemma sweep_elem (t : list (string * value)) (l : list value) (v : value) :
  v ∈ sweep t l →
  (∃ k, (k, v) ∈ t) ∨ (v ∈ l ∧ is_placeholder t v = false).
Proof.
  induction l as [l IH] using (induction_ltof1 _ (@length value)).
  unfold ltof in IH.
  assert (Hsub : ∀ y, v = subst1 t y →
            (∃ k, (k, v) ∈ t) ∨ (v = y ∧ is_placeholder t v = false)).
  { intros y ->. unfold subst1, is_placeholder.
    destruct (field_of t y) as [w|] eqn:E; cbn; [left | right].
    - destruct y; try discriminate. cbn in E. eauto using assoc_Some_elem.
    - by rewrite E. }
  destruct l as [|x r]; cbn; [by intros ?%elem_of_nil|].
  destruct (typeof_object x).
  - destruct r as [|z [|y r']]; [by intros ?%elem_of_nil.. |].
    intros [->|Hin]%elem_of_cons.
    + destruct (Hsub y eq_refl) as [?|[Hy ?]]; [by left|right].
      split; [|done]. rewrite Hy at 1. set_solver.
    + destruct (IH r') as [?|[? ?]]; [cbn; lia | done | by left |].
      right. split; [set_solver | done].
  - intros [->|Hin]%elem_of_cons.
    + destruct (Hsub x eq_refl) as [?|[Hy ?]]; [by left|right].
      split; [|done]. rewrite Hy at 1. set_solver.
    + destruct (IH r) as [?|[? ?]]; [cbn; lia | done | by left |].
      right. split; [set_solver | done].
Qed.

(** A structured entry two places after another one is the token that
    slides into the freed index: it is kept. *)
Lemma substitute_keeps_sliding_object (t : list (string * value))
    (x z : value) (o : StructuredArg) (r : list value) :
  typeof_object x = true →
  substitute t (x :: z :: VObject o :: r) = VObject o :: substitute t r.
Proof.
  intros Hx. rewrite !substitute_sweep. cbn [sweep]. by rewrite Hx.
Qed.

(** The threshold the source computes depends on [overrides.minArgs]
    through its truthiness alone. *)
Lemma minArgs_threshold_cases (h : Handler) :
  minArgs_threshold h
  = if truthy (minArgs (overrides (options h))) || isLegacy h then 5 else 11.
Proof.
  unfold minArgs_threshold, js_or.
  destruct (truthy (minArgs (overrides (options h)))) eqn:E; cbn; [|done].
  by rewrite E.
Qed.

(** The loop's output has one token for each token it keeps: the table
    value for a key, the token itself otherwise. *)
Lemma sweep_survivors (t : list (string * value)) (l : list value) :
  sweep t l = subst1 t <$> survivors l.
Proof.
  induction l as [l IH] using (induction_ltof1 _ (@length value)).
  unfold ltof in IH.
  destruct l as [|x r]; cbn; [done|].
  destruct (typeof_object x).
  - destruct r as [|z [|y r']]; [done | done |].
    cbn. f_equal. apply IH. cbn. lia.
  - cbn. f_equal. apply IH. cbn. lia.
Qed.

Lemma survivors_strings (l : list value) :
  Forall (λ v, typeof_object v = false) l → survivors l = l.
Proof. induction 1 as [|x r Hx _ IH]; [done|]. cbn. by rewrite Hx, IH. Qed.

Lemma subst1_key (t : list (string * value)) (k : string) (x : value) :
  assoc k t = Some x → subst1 t (VString k) = x.
Proof. intros H. unfold subst1. cbn. by rewrite H. Qed.

Lemma subst1_other (t : list (string * value)) (v : value) :
  is_placeholder t v = false → subst1 t v = v.
Proof.
  unfold is_placeholder, subst1. by destruct (field_of t v).
Qed.

(** ** The store: allocation and framing *)

Lemma alloc_lookup_new (st : gmap loc (list value)) (l : list value) :
  (alloc st l).1 !! (alloc st l).2 = Some l.
Proof. unfold alloc. cbn. apply lookup_insert_eq. Qed.

Lemma alloc_lookup_old (st : gmap loc (list value)) (l : list value) (r : loc) :
  is_Some (st !! r) → (alloc st l).1 !! r = st !! r.
Proof.
  intros Hr. unfold alloc. cbn. apply lookup_insert_ne.
  intros <-. apply elem_of_dom in Hr. by apply is_fresh in Hr.
Qed.

Lemma alloc_new_not_old (st : gmap loc (list value)) (l : list value) (r : loc) :
  is_Some (st !! r) → (alloc st l).2 ≠ r.
Proof.
  intros Hr <-. unfold alloc in Hr. cbn in Hr.
  apply elem_of_dom in Hr. by apply is_fresh in Hr.
Qed.

Lemma alloc_eta (st : gmap loc (list value)) (l : list value) :
  mret (alloc st l) = Normal ((alloc st l).1, (alloc st l).2).
Proof. by destruct (alloc st l). Qed.

Lemma read_Normal (st : gmap loc (list value)) (r : loc) (l : list value) :
  read st r = Normal l ↔ st !! r = Some l.
Proof.
  unfold read. destruct (st !! r); split; intros H; by inversion H.
Qed.

Lemma game_tokens_alloc (d : Descriptor) (st : gmap loc (list value))
    (l toks : list value) :
  game_tokens d st = Normal toks → game_tokens d (alloc st l).1 = Normal toks.
Proof.
  unfold game_tokens. destruct (minecraftArguments_set d); [done|].
  destruct (arguments_game d) as [r|]; [|done].
  intros H%read_Normal. apply read_Normal.
  rewrite alloc_lookup_old; by eauto.
Qed.

(** [game_array] yields an array holding [game_tokens]; it is the
    descriptor's own array unless [minecraftArguments] was split. *)
Lemma game_array_tokens (d : Descriptor) (st : gmap loc (list value))
    (toks : list value) :
  game_tokens d st = Normal toks →
  ∃ st1 r, game_array d st = Normal (st1, r)
    ∧ st1 !! r = Some toks
    ∧ (∀ r0, is_Some (st !! r0) → st1 !! r0 = st !! r0)
    ∧ (minecraftArguments_set d = None → st1 = st ∧ arguments_game d = Some r)
    ∧ (is_Some (minecraftArguments_set d) → st !! r = None).
Proof.
  unfold game_tokens, game_array.
  destruct (minecraftArguments_set d) as [s|].
  - intros [= <-]. eexists _, _. split; [reflexivity|].
    split; [apply alloc_lookup_new|].
    split; [intros; by apply alloc_lookup_old|].
    split; [done|]. intros _. unfold alloc. cbn.
    apply not_elem_of_dom, is_fresh.
  - destruct (arguments_game d) as [r|]; [|done].
    intros H%read_Normal. exists st, r.
    split; [done|]. split; [done|]. split; [done|].
    split; [done|]. by intros [? ?].
Qed.

(** ** 4.K  What one call of [getLaunchOptions] does *)

Lemma getLaunchOptions_run (h : Handler) (m : option Descriptor)
    (st : gmap loc (list value)) (toks vanilla : list value) :
  game_tokens (default (version h) m) st = Normal toks →
  game_tokens (version h) st = Normal vanilla →
  ∃ st' r,
    getLaunchOptions h m st = Normal (st', r)
    ∧ st' !! r = Some (substitute (fields h) (selected_tokens h toks vanilla)
                       ++ pushed_tokens (options h)
                       ++ default [] (customLaunchArgs (options h)))
    ∧ (∀ r0, in_place h (default (version h) m) toks →
             arguments_game (default (version h) m) = Some r0 →
             st' !! r0 = Some (substitute (fields h) toks
                               ++ pushed_tokens (options h)))
    ∧ (∀ r0, is_Some (st !! r0) →
             ¬ (in_place h (default (version h) m) toks
                ∧ arguments_game (default (version h) m) = Some r0) →
             st' !! r0 = st !! r0).
Proof.
  intros Htoks Hvan. unfold getLaunchOptions.
  destruct (game_array_tokens _ _ _ Htoks)
    as (st1 & a1 & -> & Ha1 & Hframe1 & Hsame & Hnew).
  cbn. rewrite (proj2 (read_Normal _ _ _) Ha1). cbn.
  unfold selected_tokens, in_place.
  assert (Hvan1 : game_tokens (version h) st1 = Normal vanilla).
  { destruct (minecraftArguments_set (default (version h) m)) as [s|] eqn:Es.
    - unfold game_tokens in Hvan |- *.
      destruct (minecraftArguments_set (version h)); [done|].
      destruct (arguments_game (version h)) as [rv|]; [|done].
      apply read_Normal in Hvan. apply read_Normal.
      rewrite Hframe1; by eauto.
    - by destruct (Hsame eq_refl) as [-> _]. }
  destruct (bool_decide (length toks < minArgs_threshold h)) eqn:Eshort.
  - apply bool_decide_eq_true in Eshort.
    rewrite Hvan1. cbn.
    pose proof (alloc_lookup_new st1 (toks ++ vanilla)) as Ha2.
    pose proof (alloc_lookup_old st1 (toks ++ vanilla)) as Ho2.
    pose proof (alloc_new_not_old st1 (toks ++ vanilla)) as Hn2.
    destruct (alloc st1 (toks ++ vanilla)) as [st2 a2]. cbn in Ha2, Ho2, Hn2.
    rewrite (proj2 (read_Normal _ _ _) Ha2). cbn.
    assert (Hold : ∀ r0, is_Some (st !! r0) →
              <[a2 := substitute (fields h) (toks ++ vanilla)
                      ++ pushed_tokens (options h)]> st2 !! r0 = st !! r0).
    { intros r0 Hr0.
      assert (is_Some (st1 !! r0)) by (rewrite Hframe1; done).
      rewrite lookup_insert_ne by (by apply Hn2).
      rewrite Ho2 by done. by apply Hframe1. }
    destruct (customLaunchArgs (options h)) as [extra|]; cbn.
    + rewrite (proj2 (read_Normal _ _ _) (lookup_insert_eq _ _ _)). cbn.
      eexists _, _. split; [apply alloc_eta|].
      split; [rewrite alloc_lookup_new; by rewrite <- (assoc_L (++))|].
      split; [intros r0 [_ ?]; lia|].
      intros r0 Hr0 _. rewrite alloc_lookup_old; [by apply Hold|].
      rewrite Hold; done.
    + eexists _, _. split; [reflexivity|].
      split; [by rewrite lookup_insert_eq, app_nil_r|].
      split; [intros r0 [_ ?]; lia|].
      intros r0 Hr0 _. by apply Hold.
  - apply bool_decide_eq_false in Eshort. cbn.
    rewrite (proj2 (read_Normal _ _ _) Ha1). cbn.
    assert (Hold : ∀ r0, is_Some (st !! r0) →
              ¬ (minecraftArguments_set (default (version h) m) = None
                 ∧ arguments_game (default (version h) m) = Some r0) →
              <[a1 := substitute (fields h) toks
                      ++ pushed_tokens (options h)]> st1 !! r0 = st !! r0).
    { intros r0 Hr0 Hno.
      destruct (minecraftArguments_set (default (version h) m)) as [s|] eqn:Es.
      - rewrite lookup_insert_ne; [by apply Hframe1|].
        intros <-. rewrite Hnew in Hr0 by eauto. by destruct Hr0.
      - destruct (Hsame eq_refl) as [-> Harr].
        rewrite lookup_insert_ne; [done|]. intros <-. by apply Hno. }
    assert (Hali : ∀ r0,
              minecraftArguments_set (default (version h) m) = None →
              arguments_game (default (version h) m) = Some r0 →
              <[a1 := substitute (fields h) toks
                      ++ pushed_tokens (options h)]> st1 !! r0
              = Some (substitute (fields h) toks ++ pushed_tokens (options h))).
    { intros r0 Hnone Harr. destruct (Hsame Hnone) as [_ Harr'].
      rewrite Harr in Harr'. injection Harr' as ->. apply lookup_insert_eq. }
    assert (Hsome : ∀ r0, is_Some (st !! r0) →
              is_Some (<[a1 := substitute (fields h) toks
                      ++ pushed_tokens (options h)]> st1 !! r0)).
    { intros r0 Hr0. destruct (decide (a1 = r0)) as [->|Hne].
      - rewrite lookup_insert_eq. eauto.
      - rewrite lookup_insert_ne by done. by rewrite Hframe1. }
    destruct (customLaunchArgs (options h)) as [extra|]; cbn.
    + rewrite (proj2 (read_Normal _ _ _) (lookup_insert_eq _ _ _)). cbn.
      eexists _, _. split; [apply alloc_eta|].
      split; [rewrite alloc_lookup_new; by rewrite <- (assoc_L (++))|].
      split.
      * intros r0 [Hnone _] Harr.
        rewrite alloc_lookup_old; [by apply Hali|].
        rewrite Hali; by eauto.
      * intros r0 Hr0 Hno. rewrite alloc_lookup_old by (by apply Hsome).
        apply Hold; [done|]. intros [? ?]. apply Hno. split; [|done].
        split; [done|lia].
    + eexists _, _. split; [reflexivity|].
      split; [by rewrite lookup_insert_eq, app_nil_r|].
      split.
      * intros r0 [Hnone _] Harr. by apply Hali.
      * intros r0 Hr0 Hno. apply Hold; [done|].
        intros [? ?]. apply Hno. split; [|done]. split; [done|lia].
Qed.

(** ** 4.K  Claims about [getLaunchOptions] *)

Lemma launch_options_of_run (h : Handler) (m : option Descriptor)
    (st st' : gmap loc (list value)) (r : loc) (l : list value) :
  getLaunchOptions h m st = Normal (st', r) → st' !! r = Some l →
  launch_options h m st = Normal l.
Proof.
  intros Hrun Hl. unfold launch_options. rewrite Hrun. cbn.
  by apply read_Normal.
Qed.

(** C4 (the code departs from the claim).  With [overrides.minArgs = 20]
    on a modern version the threshold the specification calls canonical
    is 20, yet the source computes 5; a custom descriptor with seven game
    tokens therefore gets no vanilla tokens appended, although 7 < 20. *)
Theorem minArgs_override_ignored :
  spec_minArgs_threshold handler_minArgs_20 = 20%Z
  ∧ minArgs_threshold handler_minArgs_20 = 5
  ∧ length custom_game = 7
  ∧ launch_options handler_minArgs_20 (Some (custom_descriptor 1)) store_custom
    = Normal [ VString "--username"; VString "Steve";
               VString "--tweakClass";
               VString "cpw.mods.fml.common.launcher.FMLTweaker";
               VString "--uuid"; VString "U"; VString "--demo" ].
Proof. split; [|split; [|split]]; by vm_compute. Qed.

(** C5 (the code departs from the claim).  With three structured entries
    at the end of [arguments.game], the first is spliced out together
    with the second, the third slides into the freed index and is never
    tested again: it is still in the returned list. *)
Theorem getLaunchOptions_leaves_structured_arg :
  launch_options vanilla_1_19 None store_three
  = Normal [ VString "--username"; VString "Steve";
             VString "--version"; VString "1.19.2";
             VString "--gameDir"; VString "/tmp/mc";
             VString "--assetsDir"; VString "/tmp/mc/assets";
             VString "--assetIndex"; VString "1.19";
             VString "--uuid"; VString "U";
             VString "--accessToken"; VString "T";
             VObject quickplay_arg ]
  ∧ typeof_object (VObject quickplay_arg) = true.
Proof. split; by vm_compute. Qed.

(** C6, as stated, fails: a placeholder given in [customLaunchArgs] is
    concatenated after the substitution loop has run and reaches the
    returned list as it is. *)
Lemma customLaunchArgs_placeholder_survives :
  ∃ l, launch_options (handler_customLaunchArgs [VString "${auth_uuid}"])
                      None store_vanilla = Normal l
       ∧ VString "${auth_uuid}" ∈ l
       ∧ is_placeholder (fields (handler_customLaunchArgs [VString "${auth_uuid}"]))
                        (VString "${auth_uuid}") = true.
Proof.
  eexists. split; [by vm_compute|]. split; [|by vm_compute].
  repeat first [apply list_elem_of_here | apply list_elem_of_further].
Qed.

(** C6 (amended): the returned list is the loop's output followed by the
    tokens pushed for window, server and proxy and by [customLaunchArgs].
    The loop's output has one token for each descriptor token the loop
    keeps (all of them when there is no structured entry), in the same
    order: a kept token that is a key of the table has been replaced by
    its table value, any other kept token is as it was.  When no value
    of the table is itself one of its keys, no token of the loop's
    output is a placeholder of the table.  The tokens appended
    afterwards are passed on as given. *)
Theorem getLaunchOptions_substitutes_descriptor_tokens
    (h : Handler) (m : option Descriptor) (st : gmap loc (list value))
    (toks vanilla : list value) :
  game_tokens (default (version h) m) st = Normal toks →
  game_tokens (version h) st = Normal vanilla →
  Forall (λ kv, is_placeholder (fields h) kv.2 = false) (fields h) →
  ∃ body,
    body = substitute (fields h) (selected_tokens h toks vanilla)
    ∧ launch_options h m st
      = Normal (body ++ pushed_tokens (options h)
                     ++ default [] (customLaunchArgs (options h)))
    ∧ Forall (λ v, is_placeholder (fields h) v = false) body
    ∧ length body = length (survivors (selected_tokens h toks vanilla))
    ∧ (∀ i k x,
         survivors (selected_tokens h toks vanilla) !! i = Some (VString k) →
         assoc k (fields h) = Some x →
         body !! i = Some x)
    ∧ (∀ i v,
         survivors (selected_tokens h toks vanilla) !! i = Some v →
         is_placeholder (fields h) v = false →
         body !! i = Some v)
    ∧ (Forall (λ v, typeof_object v = false) (selected_tokens h toks vanilla) →
       survivors (selected_tokens h toks vanilla) = selected_tokens h toks vanilla).
Proof.
  intros Htoks Hvan Hvals.
  destruct (getLaunchOptions_run h m st toks vanilla Htoks Hvan)
    as (st' & r & Hrun & Hres & _).
  eexists. split; [reflexivity|].
  split; [by eapply launch_options_of_run|].
  split.
  { apply Forall_forall. intros v Hv. rewrite substitute_sweep in Hv.
    apply sweep_elem in Hv as [[k Hk] | [_ Hv]]; [|done].
    rewrite Forall_forall in Hvals. by apply (Hvals (k, v)). }
  rewrite substitute_sweep, sweep_survivors.
  split; [by rewrite length_fmap|].
  split; [|split].
  - intros i k x Hi Hk. rewrite list_lookup_fmap, Hi.
    exact (f_equal Some (subst1_key _ _ _ Hk)).
  - intros i v Hi Hv. rewrite list_lookup_fmap, Hi.
    exact (f_equal Some (subst1_other _ _ Hv)).
  - apply survivors_strings.
Qed.

Lemma getLaunchOptions_substitutes_descriptor_tokens_witness :
  ∃ body,
    launch_options (handler_customLaunchArgs [VString "--quickPlay"]) None store_three
      = Normal (body ++ [VString "--fullscreen"; VString "--quickPlay"])
    ∧ Forall (λ v, is_placeholder
                     (fields (handler_customLaunchArgs [VString "--quickPlay"])) v
                   = false) body
    ∧ length body = 15
    ∧ body !! 1 = Some (VString "Steve")
    ∧ body !! 0 = Some (VString "--username").
Proof.
  destruct (getLaunchOptions_substitutes_descriptor_tokens
              (handler_customLaunchArgs [VString "--quickPlay"])
              None store_three three_structured three_structured)
    as (body & _ & Hrun & Hnone & Hlen & Hkey & Hother & _).
  - reflexivity.
  - reflexivity.
  - repeat constructor.
  - exists body. split; [exact Hrun|]. split; [exact Hnone|].
    split; [exact Hlen|]. split.
    + apply (Hkey 1 "${auth_player_name}" (VString "Steve")); reflexivity.
    + apply (Hother 0 (VString "--username")); reflexivity.
Defined.

(** C10, as stated, fails: a descriptor that supplies [arguments.game]
    with fewer entries than the threshold is not modified; [concat] has
    made a new array before the loop runs.  The returned array has lost
    the structured entry and its successor and has [${auth_uuid}]
    substituted; the descriptor's array still has all four tokens. *)
Lemma short_descriptor_array_untouched :
  arguments_game (custom_descriptor 1) = Some 1
  ∧ store_loader !! 1 = Some loader_game
  ∧ ∃ st' r,
      getLaunchOptions vanilla_1_19 (Some (custom_descriptor 1)) store_loader
        = Normal (st', r)
      ∧ st' !! 1 = Some loader_game
      ∧ st' !! r = Some ([VString "--loader"; VString "U"]
                         ++ substitute (fields vanilla_1_19) modern_game)
      ∧ r ≠ 1.
Proof.
  split; [done|]. split; [done|]. eexists _, _.
  split; [by vm_compute|]. split; [by vm_compute|].
  split; [by vm_compute|]. by vm_compute.
Qed.

(** C10 (amended): when the descriptor in use has no [minecraftArguments]
    and supplies [arguments.game] with at least as many entries as the
    threshold, [getLaunchOptions] works on that very array: after the call
    the descriptor's array holds the spliced and substituted tokens
    followed by the pushed window, server and proxy tokens, and this is
    what a second call reads as the descriptor's game arguments.  When
    the array is shorter than the threshold it is left as it was. *)
Theorem getLaunchOptions_mutates_in_place
    (h : Handler) (m : option Descriptor) (st : gmap loc (list value))
    (r : loc) (toks vanilla : list value) :
  minecraftArguments_set (default (version h) m) = None →
  arguments_game (default (version h) m) = Some r →
  st !! r = Some toks →
  game_tokens (version h) st = Normal vanilla →
  ∃ st' r',
    getLaunchOptions h m st = Normal (st', r')
    ∧ (minArgs_threshold h ≤ length toks →
         st' !! r = Some (substitute (fields h) toks ++ pushed_tokens (options h))
         ∧ game_tokens (default (version h) m) st'
           = Normal (substitute (fields h) toks ++ pushed_tokens (options h)))
    ∧ (length toks < minArgs_threshold h → st' !! r = Some toks).
Proof.
  intros Hnone Harr Hr Hvan.
  assert (Htoks : game_tokens (default (version h) m) st = Normal toks).
  { unfold game_tokens. rewrite Hnone, Harr. by apply read_Normal. }
  destruct (getLaunchOptions_run h m st toks vanilla Htoks Hvan)
    as (st' & r' & Hrun & _ & Hali & Hframe).
  exists st', r'. split; [done|]. split.
  - intros Hlen.
    assert (st' !! r = Some (substitute (fields h) toks
                             ++ pushed_tokens (options h))) as Hnew
      by (apply Hali; [by split | done]).
    split; [done|]. unfold game_tokens. rewrite Hnone, Harr.
    by apply read_Normal.
  - intros Hlen. rewrite Hframe; [done | by eauto |].
    intros [[_ ?] _]. lia.
Qed.

Lemma getLaunchOptions_mutates_in_place_witness :
  ∃ st' r',
    getLaunchOptions vanilla_1_19 None store_three = Normal (st', r')
    ∧ st' !! 0 = Some (substitute (fields vanilla_1_19) three_structured)
    ∧ st' !! 0 ≠ store_three !! 0.
Proof.
  destruct (getLaunchOptions_mutates_in_place vanilla_1_19 None store_three
              0 three_structured three_structured
              eq_refl eq_refl eq_refl eq_refl)
    as (st' & r' & Hrun & Hlong & _).
  exists st', r'. split; [exact Hrun|].
  assert (Hlen : minArgs_threshold vanilla_1_19 ≤ length three_structured)
    by (vm_compute; lia).
  destruct (Hlong Hlen) as [Hnew _].
  rewrite Hnew. split; [by rewrite app_nil_r|]. by vm_compute.
Defined.

(** ** 4.G  [cleanUp] *)

Section first_occurrences_filter.
Context (P : string → Prop) `{∀ x, Decision (P x)}.

Lemma first_occurrences_filter (l : list string) :
  first_occurrences (filter P l) = filter P (first_occurrences l).
Proof.
  induction l as [|x r IH]; [done|].
  cbn [first_occurrences]. rewrite !filter_cons.
  destruct (decide (P x)) as [HP|HP].
  - cbn [first_occurrences]. rewrite IH. f_equal.
    rewrite !list_filter_filter. apply list_filter_iff. tauto.
  - rewrite IH, list_filter_filter. apply list_filter_iff.
    intros y. split; [|tauto]. intros Hy. split; [done|]. by intros ->.
Qed.

End first_occurrences_filter.

Lemma cleanUp_from_first_occurrences (l acc : list string) :
  cleanUp_from acc l = acc ++ first_occurrences (filter (λ y, y ∉ acc) l).
Proof.
  revert acc. induction l as [|x r IH]; intros acc; cbn [cleanUp_from].
  - by rewrite app_nil_r.
  - unfold includes. rewrite filter_cons. case_bool_decide as Hx.
    + rewrite decide_False by tauto. apply IH.
    + rewrite decide_True by done. rewrite IH. cbn [first_occurrences].
      rewrite <- (assoc_L (++)). cbn. do 2 f_equal.
      rewrite <- (first_occurrences_filter (λ y, y ≠ x)). f_equal.
      rewrite list_filter_filter. apply list_filter_iff.
      intros y. rewrite elem_of_app, list_elem_of_singleton. tauto.
Qed.

Lemma first_occurrences_elem (l : list string) (x : string) :
  x ∈ first_occurrences l ↔ x ∈ l.
Proof.
  induction l as [|y r IH]; [done|]. cbn.
  rewrite !elem_of_cons, list_elem_of_filter, IH.
  destruct (decide (x = y)); tauto.
Qed.

Lemma first_occurrences_NoDup (l : list string) : NoDup (first_occurrences l).
Proof.
  induction l as [|y r IH]; cbn; [constructor|].
  constructor; [|by apply NoDup_filter].
  rewrite list_elem_of_filter. tauto.
Qed.

Lemma cleanUp_eq (array : list string) : cleanUp array = first_occurrences array.
Proof.
  unfold cleanUp. rewrite cleanUp_from_first_occurrences. cbn. f_equal.
  induction array as [|x r IH]; [done|].
  rewrite filter_cons_True by apply not_elem_of_nil. by rewrite IH.
Qed.

Lemma cleanUp_elem (array : list string) (x : string) :
  x ∈ cleanUp array ↔ x ∈ array.
Proof. rewrite cleanUp_eq. apply first_occurrences_elem. Qed.

(** C7, as stated, fails: with a legacy Forge JAR whose descriptor lists
    guava as a required library and a vanilla descriptor that lists guava
    too, the string after [-cp] names the same guava JAR twice.  Only the
    vanilla and custom libraries went through [cleanUp]. *)
Lemma forge_classpath_repeats_entry :
  ∃ w c,
    launch_classpath (handler_forge forge_universal [guava_vanilla]) universal_world
      = Normal (w, c)
    ∧ classpath_entries (handler_forge forge_universal [guava_vanilla]) (cp c)
      = [ "/tmp/forge-1.8.9-universal.jar";
          "/tmp/mc/libraries/com/google/guava/guava/17.0/guava-17.0.jar";
          "/tmp/mc/libraries/com/google/guava/guava/17.0/guava-17.0.jar";
          "/tmp/mc/versions/1.8.9/1.8.9.jar" ]
    ∧ ¬ NoDup (classpath_entries (handler_forge forge_universal [guava_vanilla]) (cp c)).
Proof.
  eexists _, _. split; [by vm_compute|].
  assert (Hentries : ∀ l, l = [ "/tmp/forge-1.8.9-universal.jar";
          "/tmp/mc/libraries/com/google/guava/guava/17.0/guava-17.0.jar";
          "/tmp/mc/libraries/com/google/guava/guava/17.0/guava-17.0.jar";
          "/tmp/mc/versions/1.8.9/1.8.9.jar" ] → ¬ NoDup l).
  { intros l -> Hnd. apply NoDup_cons in Hnd as [_ Hnd].
    apply NoDup_cons in Hnd as [Hnotin _]. apply Hnotin. apply list_elem_of_here. }
  split; [by vm_compute|]. apply Hentries. by vm_compute.
Qed.

(** C7 (amended): [cleanUp] returns the list it is given with every
    repeated path removed, each path kept at its first occurrence and in
    the original order: the result has no duplicates and the same
    members.  [launch] applies it to the list [getClasses] returns and
    to nothing else: with [overrides.classes] that list is used as
    given and [getClasses] is not called; and the string after [-cp] is
    the Forge JAR, the Forge library paths as returned, these classes
    and the client JAR joined by the separator (Forge legacy), or the
    classes and the client JAR (otherwise), with nothing removed after
    joining. *)
Theorem cleanUp_in_launch_classpath (h : Handler) (w w1 : World)
    (forge : option ForgeResult) (custom : CustomValue) :
  forge_phase h w = Normal (w1, forge, custom) →
  (∀ array,
     cleanUp array = first_occurrences array
     ∧ NoDup (cleanUp array)
     ∧ (∀ x, x ∈ cleanUp array ↔ x ∈ array))
  ∧ (∀ c, classes (overrides (options h)) = Some c →
       ∃ r, launch_classpath h w = Normal (w1, r)
         ∧ cp r = match forge with
                  | Some (ForgeLegacy paths _) =>
                      forge_jar h
                      +:+ separator h +:+ Str.join (separator h) paths
                      +:+ separator h +:+ Str.join (separator h) c
                      +:+ separator h +:+ mcPath h
                  | _ => Str.join (separator h) c
                         +:+ separator h +:+ client_jar h w1
                  end)
  ∧ (∀ w2 raw, classes (overrides (options h)) = None →
       getClasses h custom w1 = Normal (w2, raw) →
       ∃ r, launch_classpath h w = Normal (w2, r)
         ∧ cp r = match forge with
                  | Some (ForgeLegacy paths _) =>
                      forge_jar h
                      +:+ separator h +:+ Str.join (separator h) paths
                      +:+ separator h +:+ Str.join (separator h) (cleanUp raw)
                      +:+ separator h +:+ mcPath h
                  | _ => Str.join (separator h) (cleanUp raw)
                         +:+ separator h +:+ client_jar h w2
                  end).
Proof.
  intros Hf. split; [|split].
  - intros array. rewrite cleanUp_eq. split; [done|].
    split; [apply first_occurrences_NoDup|].
    intros x. apply first_occurrences_elem.
  - intros c Hc. unfold launch_classpath. rewrite Hf. cbn. rewrite Hc. cbn.
    unfold client_jar.
    destruct forge as [[| |paths fj]|]; (eexists; split; [reflexivity|]);
      cbn [cp]; try reflexivity; by destruct (exists_ w1 (mcPath h)).
  - intros w2 raw Hc Hg. unfold launch_classpath. rewrite Hf. cbn.
    rewrite Hc, Hg. cbn. unfold client_jar.
    destruct forge as [[| |paths fj]|]; (eexists; split; [reflexivity|]);
      cbn [cp]; try reflexivity; by destruct (exists_ w2 (mcPath h)).
Qed.

Lemma cleanUp_in_launch_classpath_witness :
  ∃ w2 r,
    launch_classpath (handler_forge forge_universal [guava_vanilla]) universal_world
      = Normal (w2, r)
    ∧ cp r = "/tmp/forge-1.8.9-universal.jar"
             +:+ ":/tmp/mc/libraries/com/google/guava/guava/17.0/guava-17.0.jar"
             +:+ ":/tmp/mc/libraries/com/google/guava/guava/17.0/guava-17.0.jar"
             +:+ ":/tmp/mc/versions/1.8.9/1.8.9.jar".
Proof.
  destruct (forge_phase (handler_forge forge_universal [guava_vanilla]) universal_world)
    as [[[w1 forge] custom]|e] eqn:Ef; [|vm_compute in Ef; discriminate].
  assert (Hfc : ∃ fj, forge = Some (ForgeLegacy
                  ["/tmp/mc/libraries/com/google/guava/guava/17.0/guava-17.0.jar"] fj)
                ∧ custom = CustomNull).
  { pose proof Ef as E'. vm_compute in E'. injection E' as _ <- <-.
    eexists. split; reflexivity. }
  destruct Hfc as (fj & -> & ->).
  destruct (getClasses (handler_forge forge_universal [guava_vanilla]) CustomNull w1)
    as [[w2 raw]|e] eqn:Eg.
  2:{ pose proof Ef as E'. vm_compute in E'. injection E' as <- _.
      vm_compute in Eg. discriminate. }
  assert (Hraw : raw = ["/tmp/mc/libraries/com/google/guava/guava/17.0/guava-17.0.jar"]).
  { pose proof Ef as E'. vm_compute in E'. injection E' as <- _.
    vm_compute in Eg. by injection Eg as _ <-. }
  destruct (cleanUp_in_launch_classpath
              (handler_forge forge_universal [guava_vanilla])
              universal_world w1 _ _ Ef) as (_ & _ & Hrun).
  destruct (Hrun w2 raw) as (r & Hr & Hcp).
  - reflexivity.
  - exact Eg.
  - exists w2, r. split; [exact Hr|]. rewrite Hcp, Hraw. reflexivity.
Defined.

(** ** 4.H  The natives phase *)

(** C2 (the code departs from the claim).  The guard of [getNatives]
    holds whatever the directory contains, because the length it tests is
    that of a promise: the phase always runs.  With the natives directory
    of 1.8.9 present and holding an extracted library, the native archive
    is downloaded, extracted and deleted again. *)
Theorem getNatives_never_skips :
  (∀ h w, getNatives h w
          = (stat ← collect_natives h (libraries (version h));
             w' ← install_natives h (nativeDirectory h) stat
                    (mkdir_p (nativeDirectory h) w);
             mret (w', nativeDirectory h)))
  ∧ exists_ natives_present (nativeDirectory handler_1_8_9) = true
  ∧ readdir natives_present (nativeDirectory handler_1_8_9) = ["liblwjgl.so"]
  ∧ ∃ w', getNatives handler_1_8_9 natives_present
            = Normal (w', "/tmp/mc/natives/1.8.9")
          ∧ trace w'
            = [ Mkdir "/tmp/mc/natives/1.8.9";
                Mkdir "/tmp/mc/natives/1.8.9";
                Download
                  "https://libraries.minecraft.net/org/lwjgl/lwjgl/lwjgl-platform/2.9.4-nightly-20150209/lwjgl-platform-2.9.4-nightly-20150209-natives-linux.jar"
                  "/tmp/mc/natives/1.8.9"
                  "lwjgl-platform-2.9.4-nightly-20150209-natives-linux.jar";
                Unzip
                  "/tmp/mc/natives/1.8.9/lwjgl-platform-2.9.4-nightly-20150209-natives-linux.jar"
                  "/tmp/mc/natives/1.8.9";
                Remove
                  "/tmp/mc/natives/1.8.9/lwjgl-platform-2.9.4-nightly-20150209-natives-linux.jar" ].
Proof.
  split.
  { intros h w. unfold getNatives, readdir_promise_length. cbn [truthy negb].
    by rewrite orb_true_r. }
  split; [by vm_compute|]. split; [by vm_compute|].
  eexists. split; by vm_compute.
Qed.

(** ** 4.J  The modern Forge installer *)

(** C3 (the code departs from the claim).  For an installer JAR,
    [getForgeDependenciesLegacy] answers [false] and [getForgedWrapped]
    hands back a function without calling it: no subprocess is started,
    [custom] is that function, and [getClasses] throws on its missing
    [libraries]. *)
Theorem getForgedWrapped_never_runs_wrapper :
  (∀ h f w, getForgedWrapped h f w = (w, CustomFactory))
  ∧ (∀ h w, ∃ e, getClasses h CustomFactory w = Throw e)
  ∧ (∃ w', forge_phase (handler_forge forge_installer []) installer_world
             = Normal (w', Some ForgeFalse, CustomFactory)
           ∧ trace w' = [Mkdir "/tmp/mc/forge"])
  ∧ launch_classpath (handler_forge forge_installer []) installer_world
    = Throw TypeError.
Proof.
  split; [done|]. split; [by eexists|].
  split; [eexists; split; by vm_compute | by vm_compute].
Qed.

(** ** 4.G  Libraries without a source *)

Lemma download_library_entries (h : Handler) (directory : string)
    (libraries : list (option Library)) :
  ∀ (w : World) (acc : list string),
    (foldl (λ s library, download_library h directory library s) (w, acc) libraries).2
    = acc ++ (library_entry h directory <$> omap (λ library, library) libraries).
Proof.
  induction libraries as [|[library|] r IH]; intros w acc; cbn [foldl].
  - cbn. by rewrite app_nil_r.
  - cbn [download_library]. rewrite IH. cbn. by rewrite <- (assoc_L (++)).
  - cbn [download_library]. by rewrite IH.
Qed.

(** C8, as stated, fails: a library with neither [downloads.artifact] nor
    [url] is not downloaded, yet its path is in the returned list. *)
Lemma undownloadable_library_is_returned :
  artifact_of bare_library = None
  ∧ lib_url bare_library = None
  ∧ ∃ w', downloadToDirectory handler_1_8_9 "/tmp/mc/libraries"
                              [Some bare_library] (empty_world (serving "00"))
          = (w', ["/tmp/mc/libraries/com/example/optional/1.0/optional-1.0.jar"])
        ∧ trace w' = [].
Proof.
  split; [done|]. split; [done|]. eexists. split; by vm_compute.
Qed.

(** C8 (amended): for a library with neither [downloads.artifact] nor
    [url] that is passed to [downloadToDirectory], no download is
    attempted and the world is left as it was, while the path derived
    from its Maven coordinate is appended to the returned list all the
    same.  Only [undefined] entries are left out of the result: the
    returned list holds, in some order, exactly one entry for each
    defined element of the array. *)
Theorem downloadToDirectory_keeps_undownloadable
    (h : Handler) (directory : string) (library : Library)
    (libraries : list (option Library)) (w : World) :
  artifact_of library = None →
  lib_url library = None →
  Some library ∈ libraries →
  (∀ w0 libs, download_library h directory (Some library) (w0, libs)
              = (w0, libs ++ [library_entry h directory library]))
  ∧ library_entry h directory library ∈ (downloadToDirectory h directory libraries w).2
  ∧ (downloadToDirectory h directory libraries w).2
    ≡ₚ library_entry h directory <$> omap (λ library, library) libraries
  ∧ (∀ w0 libs, download_library h directory None (w0, libs) = (w0, libs)).
Proof.
  intros Hart Hurl Hin. split; [|split; [|split]].
  - intros w0 libs. cbn [download_library]. unfold url_set.
    rewrite Hurl, Hart. by destruct (negb _).
  - unfold downloadToDirectory. rewrite download_library_entries. cbn.
    apply list_elem_of_fmap. exists library. split; [done|].
    apply list_elem_of_omap. by exists (Some library).
  - unfold downloadToDirectory. by rewrite download_library_entries.
  - done.
Qed.

Lemma downloadToDirectory_keeps_undownloadable_witness :
  (∀ w0 libs, download_library handler_1_8_9 "/tmp/mc/libraries"
                (Some bare_library) (w0, libs)
              = (w0, libs ++ ["/tmp/mc/libraries/com/example/optional/1.0/optional-1.0.jar"]))
  ∧ "/tmp/mc/libraries/com/example/optional/1.0/optional-1.0.jar"
    ∈ (downloadToDirectory handler_1_8_9 "/tmp/mc/libraries"
         [Some guava_vanilla; None; Some bare_library]
         (empty_world (serving "00"))).2
  ∧ (downloadToDirectory handler_1_8_9 "/tmp/mc/libraries"
       [Some guava_vanilla; None; Some bare_library]
       (empty_world (serving "00"))).2
    ≡ₚ [ "/tmp/mc/libraries/com/google/guava/guava/17.0/guava-17.0.jar";
         "/tmp/mc/libraries/com/example/optional/1.0/optional-1.0.jar" ].
Proof.
  destruct (downloadToDirectory_keeps_undownloadable handler_1_8_9 "/tmp/mc/libraries"
              bare_library [Some guava_vanilla; None; Some bare_library]
              (empty_world (serving "00"))) as (H1 & H2 & H3 & _).
  - reflexivity.
  - reflexivity.
  - apply list_elem_of_further, list_elem_of_further, list_elem_of_here.
  - split; [exact H1|]. split; [exact H2|]. exact H3.
Defined.

(** ** 4.E  The version resolver *)

Lemma fetch_listed_versions_keep (h : Handler) (d : Descriptor) (e : Effect)
    (versions : list (string * string)) :
  ∀ run, settled run = Resolved d → e ∈ trace (world_after run) →
    settled (foldl (λ run entry, fetch_listed_version h entry run) run versions)
      = Resolved d
    ∧ e ∈ trace (world_after
           (foldl (λ run entry, fetch_listed_version h entry run) run versions)).
Proof.
  induction versions as [|entry r IH]; intros run Hs He; cbn [foldl]; [done|].
  apply IH.
  - unfold fetch_listed_version. destruct (Str.eqb _ _); [|done].
    destruct (remote_descriptor _ _); cbn; by rewrite Hs.
  - unfold fetch_listed_version. destruct (Str.eqb _ _); [|done].
    destruct (remote_descriptor _ _); cbn; apply elem_of_app; by left.
Qed.

(** C9 (the code departs from the claim).  When the descriptor is on
    disk, [getVersion] resolves with it and then goes on to request the
    version manifest all the same: the second run is not free of network
    fetches. *)
Theorem getVersion_contacts_manifest (h : Handler) (w : World) (d : Descriptor) :
  descriptors w !! versionJsonPath h = Some d →
  settled (getVersion h w) = Resolved d
  ∧ Get (manifest_url h) ∈ fetches (trace (world_after (getVersion h w))).
Proof.
  intros Hd. unfold getVersion. rewrite Hd. unfold fetches.
  rewrite list_elem_of_filter.
  assert (Hlog : Get (manifest_url h) ∈ trace (log (Get (manifest_url h)) w)).
  { cbn. apply elem_of_app. right. apply list_elem_of_here. }
  destruct (manifest w) as [versions|]; cbn [settled world_after resolve].
  - destruct (fetch_listed_versions_keep h d (Get (manifest_url h)) versions
                {| settled := Resolved d; this_version := Some d;
                   world_after := log (Get (manifest_url h)) w |}
                eq_refl Hlog) as [Hs He].
    by rewrite Hs.
  - done.
Qed.

Lemma getVersion_contacts_manifest_witness :
  settled (getVersion handler_1_8_9 natives_present)
    = Resolved (version handler_1_8_9)
  ∧ Get "https://launchermeta.mojang.com/mc/game/version_manifest.json"
    ∈ fetches (trace (world_after (getVersion handler_1_8_9 natives_present))).
Proof.
  apply (getVersion_contacts_manifest handler_1_8_9 natives_present
           (version handler_1_8_9)).
  reflexivity.
Defined.

(** * Further properties of the source *)

(** ** Strings: [split], [join], [popString] *)

Lemma string_app_nil_r (s : string) : s +:+ "" = s.
Proof. induction s as [|a s IH]; [done|]. cbn. unfold String.app. cbn. f_equal. exact IH. Qed.

Lemma string_app_assoc (s t u : string) : (s +:+ t) +:+ u = s +:+ (t +:+ u).
Proof.
  induction s as [|a s IH]; [done|].
  change (String a ((s +:+ t) +:+ u) = String a (s +:+ (t +:+ u))). by rewrite IH.
Qed.

Lemma rev_app_app (s t : string) : String.rev_app s t = String.rev s +:+ t.
Proof.
  revert t. induction s as [|a s IH]; intros t; [done|].
  unfold String.rev. cbn [String.rev_app].
  rewrite (IH (String a t)), (IH (String a "")), string_app_assoc. done.
Qed.

Lemma rev_cons (a : ascii) (s : string) :
  String.rev (String a s) = String.rev s +:+ String a "".
Proof. unfold String.rev at 1. cbn [String.rev_app]. apply rev_app_app. Qed.

Lemma has_char_app (c : ascii) (s t : string) :
  has_char c (s +:+ t) = has_char c s || has_char c t.
Proof.
  induction s as [|a s IH]; [done|].
  change (has_char c (String a (s +:+ t)) = has_char c (String a s) || has_char c t).
  cbn. rewrite IH. by rewrite orb_assoc.
Qed.

Lemma has_char_rev (c : ascii) (s : string) :
  has_char c (String.rev s) = has_char c s.
Proof.
  induction s as [|a s IH]; [done|].
  rewrite rev_cons, has_char_app, IH. cbn. rewrite orb_false_r. apply orb_comm.
Qed.

Lemma split_go_nonempty (c : ascii) (s cur : string) : Str.split_go c cur s ≠ [].
Proof.
  revert cur. induction s as [|a s IH]; intros cur; cbn; [done|].
  destruct (Ascii.eqb a c); [done | apply IH].
Qed.

Lemma join_cons (sep x : string) (l : list string) :
  l ≠ [] → Str.join sep (x :: l) = x +:+ sep +:+ Str.join sep l.
Proof. by destruct l. Qed.

Lemma join_split_go (c : ascii) (s cur : string) :
  Str.join (String c "") (Str.split_go c cur s) = String.rev cur +:+ s.
Proof.
  revert cur. induction s as [|a s IH]; intros cur; cbn [Str.split_go].
  - cbn. by rewrite string_app_nil_r.
  - destruct (Ascii.eqb a c) eqn:E.
    + apply Ascii.eqb_eq in E as ->.
      rewrite join_cons by apply split_go_nonempty. by rewrite IH.
    + rewrite IH, rev_cons, string_app_assoc. done.
Qed.

Lemma split_go_fields (c : ascii) (s cur : string) :
  has_char c cur = false →
  Forall (λ f, has_char c f = false) (Str.split_go c cur s).
Proof.
  revert cur. induction s as [|a s IH]; intros cur Hcur; cbn [Str.split_go].
  - constructor; [by rewrite has_char_rev | constructor].
  - destruct (Ascii.eqb a c) eqn:E.
    + constructor; [by rewrite has_char_rev | by apply IH].
    + apply IH. cbn. by rewrite E, Hcur.
Qed.

Lemma split_go_plain (c : ascii) (s cur : string) :
  has_char c s = false → Str.split_go c cur s = [String.rev cur +:+ s].
Proof.
  revert cur. induction s as [|a s IH]; intros cur Hs; cbn [Str.split_go].
  - by rewrite string_app_nil_r.
  - cbn in Hs. apply orb_false_iff in Hs as [-> Hs].
    rewrite IH by done. by rewrite rev_cons, string_app_assoc.
Qed.

Lemma split_go_app (c : ascii) (a b cur : string) :
  Str.split_go c cur (a +:+ String c b)
  = Str.split_go c cur a ++ Str.split c b.
Proof.
  revert cur. induction a as [|x a IH]; intros cur.
  - change (Str.split_go c cur (String c b) = [String.rev cur] ++ Str.split c b).
    cbn [Str.split_go]. by rewrite Ascii.eqb_refl.
  - change (Str.split_go c cur (String x (a +:+ String c b))
            = Str.split_go c cur (String x a) ++ Str.split c b).
    cbn [Str.split_go]. destruct (Ascii.eqb x c).
    + rewrite IH. done.
    + apply IH.
Qed.

Lemma split_plain (c : ascii) (s : string) :
  has_char c s = false → Str.split c s = [s].
Proof. intros H. unfold Str.split. by rewrite split_go_plain. Qed.

(** X1.  Joining the fields of [s.split(c)] with [c] gives [s] back,
    there is always at least one field, and no field contains [c]. *)
Theorem split_join_roundtrip (c : ascii) (s : string) :
  Str.join (String c "") (Str.split c s) = s
  ∧ Str.split c s ≠ []
  ∧ Forall (λ f, has_char c f = false) (Str.split c s).
Proof.
  split; [apply (join_split_go c s "")|].
  split; [apply split_go_nonempty | by apply split_go_fields].
Qed.

Lemma split_join_fields (c : ascii) (l : list string) :
  l ≠ [] → Forall (λ f, has_char c f = false) l →
  Str.split c (Str.join (String c "") l) = l.
Proof.
  induction l as [|x [|y r] IH]; intros Hne Hl; [done| |].
  - cbn. apply split_plain. by inversion Hl.
  - rewrite join_cons by done. inversion Hl as [|? ? Hx Hr]; subst.
    change (x +:+ String c "" +:+ Str.join (String c "") (y :: r))
      with (x +:+ String c (Str.join (String c "") (y :: r))).
    unfold Str.split at 1. rewrite split_go_app.
    change (Str.split_go c "" x) with (Str.split c x).
    rewrite split_plain by done. rewrite IH by done. done.
Qed.

(** X2.  Splitting undoes joining: a non-empty list of fields, none of
    which contains the separator, is recovered from its joined string. *)
Theorem join_split_roundtrip (c : ascii) (l : list string) :
  l ≠ [] → Forall (λ f, has_char c f = false) l →
  Str.split c (Str.join (String c "") l) = l.
Proof. apply split_join_fields. Qed.

Lemma join_split_roundtrip_witness :
  Str.split ":" (Str.join ":" ["/l/a.jar"; "/l/b.jar"; ""]) = ["/l/a.jar"; "/l/b.jar"; ""].
Proof.
  apply (join_split_roundtrip ":" ["/l/a.jar"; "/l/b.jar"; ""]).
  - discriminate.
  - repeat constructor.
Defined.

Lemma split_dir_name (d n : string) :
  has_char "/" n = false →
  Str.split "/" (d +:+ "/" +:+ n) = Str.split "/" d ++ [n].
Proof.
  intros Hn. change (d +:+ "/" +:+ n) with (d +:+ String "/" n).
  unfold Str.split at 1. rewrite split_go_app. by rewrite (split_plain _ n).
Qed.

Lemma popString_split (d n : string) :
  has_char "/" n = false →
  popString (d +:+ "/" +:+ n) = d
  ∧ last (Str.split "/" (d +:+ "/" +:+ n)) = Some n.
Proof.
  intros Hn. unfold popString. rewrite split_dir_name by done.
  rewrite last_snoc, length_app. cbn [length].
  replace (length (Str.split "/" d) + 1 - 1) with (length (Str.split "/" d)) by lia.
  rewrite take_app_length. split; [apply (join_split_go "/" d "") | done].
Qed.

(** X3.  [popString] and the last field of [split('/')] take a path apart
    into its directory and its file name; a path without a slash has the
    empty directory. *)
Theorem popString_dir_name (d n : string) :
  has_char "/" n = false →
  popString (d +:+ "/" +:+ n) = d
  ∧ last (Str.split "/" (d +:+ "/" +:+ n)) = Some n
  ∧ popString n = "".
Proof.
  intros Hn. destruct (popString_split d n Hn) as [Hd Hl].
  split; [done|]. split; [done|].
  unfold popString. by rewrite split_plain.
Qed.

Lemma popString_dir_name_witness :
  popString "com/google/guava/guava/17.0/guava-17.0.jar" = "com/google/guava/guava/17.0"
  ∧ last (Str.split "/" "com/google/guava/guava/17.0/guava-17.0.jar") = Some "guava-17.0.jar"
  ∧ popString "guava-17.0.jar" = "".
Proof.
  apply (popString_dir_name "com/google/guava/guava/17.0" "guava-17.0.jar").
  reflexivity.
Defined.

(** ** [parseRule]: errors and the operating system *)

Lemma parseRule_osx_only (h1 h2 : Handler) (lib : Library) :
  Str.eqb (getOS h1) "osx" = Str.eqb (getOS h2) "osx" →
  parseRule h1 lib = parseRule h2 lib.
Proof. intros H. unfold parseRule. by rewrite H. Qed.

(** X4.  [parseRule] asks one thing of the operating system: whether it
    is osx.  On any two systems other than osx it returns the same
    value, so a rule that names windows or linux decides nothing. *)
Theorem parseRule_same_off_osx (h1 h2 : Handler) (lib : Library) :
  getOS h1 ≠ "osx" → getOS h2 ≠ "osx" → parseRule h1 lib = parseRule h2 lib.
Proof.
  intros H1%Str_eqb_false H2%Str_eqb_false.
  apply parseRule_osx_only. by rewrite H1, H2.
Qed.

Lemma parseRule_same_off_osx_witness :
  parseRule (handler_on "win32") (lib_with_rules (Some [allow_os "windows"]))
  = parseRule (handler_on "linux") (lib_with_rules (Some [allow_os "windows"])).
Proof.
  apply (parseRule_same_off_osx (handler_on "win32") (handler_on "linux")).
  - vm_compute. discriminate.
  - vm_compute. discriminate.
Defined.

(** X5.  [parseRule] throws in exactly two cases, whatever the operating
    system: the [rules] array is empty, or it has two or more rules, the
    first [allow], the second [disallow] without an [os] clause. *)
Theorem parseRule_throws_iff (h : Handler) (lib : Library) (e : string) :
  parseRule h lib = Throw e ↔
  e = TypeError
  ∧ (lib_rules lib = Some []
     ∨ ∃ r0 r1 rest, lib_rules lib = Some (r0 :: r1 :: rest)
         ∧ action r0 = "allow" ∧ action r1 = "disallow" ∧ os r1 = None).
Proof.
  unfold parseRule. destruct (lib_rules lib) as [[|r0 [|r1 rest]]|] eqn:Hr.
  - rewrite bool_decide_false by (cbn; lia). cbn. split.
    + intros [= <-]. split; [done | by left].
    + by intros [-> _].
  - rewrite bool_decide_false by (cbn; lia). cbn.
    split.
    + by destruct (Str.eqb (action r0) "allow" && _).
    + intros [_ [? | (? & ? & ? & ? & _)]]; discriminate.
  - rewrite bool_decide_true by (cbn; lia). cbn.
    destruct (Str.eqb (action r0) "allow") eqn:E0;
      [apply Str_eqb_spec in E0 | apply Str_eqb_false in E0].
    2:{ split; [done|]. intros [_ [? | (? & ? & ? & [= <- <- <-] & ? & _)]]; done. }
    destruct (Str.eqb (action r1) "disallow") eqn:E1;
      [apply Str_eqb_spec in E1 | apply Str_eqb_false in E1].
    2:{ split; [done|]. intros [_ [? | (? & ? & ? & [= <- <- <-] & _ & ? & _)]]; done. }
    destruct (os r1) as [o|] eqn:Eo.
    + split; [by destruct (os_is_osx o)|].
      intros [_ [? | (? & ? & ? & [= <- <- <-] & _ & _ & ?)]]; [done|congruence].
    + split.
      * intros [= <-]. split; [done|]. right. by exists r0, r1, rest.
      * by intros [-> _].
  - split; [done|]. intros [_ [? | (? & ? & ? & ? & _)]]; discriminate.
Qed.

(** ** [downloadAsync] *)

Lemma exists_write_file (p : Platform) (w : World) (directory name sha1 : string) :
  exists_ (write_file directory name sha1 p w) (path_join p directory name) = true.
Proof.
  unfold exists_, write_file. cbn.
  rewrite lookup_insert_eq. by rewrite bool_decide_true by eauto.
Qed.

Lemma exists_mono_files (w w' : World) (path : string) :
  (∀ x, is_Some (files w !! x) → is_Some (files w' !! x)) →
  (∀ x, is_Some (listing w !! x) → is_Some (listing w' !! x)) →
  exists_ w path = true → exists_ w' path = true.
Proof.
  intros Hf Hl. unfold exists_. rewrite !orb_true_iff, !bool_decide_eq_true.
  intros [?|?]; [left | right]; auto.
Qed.

Lemma exists_download_attempt (h : Handler) (url directory name path : string)
    (w : World) :
  exists_ w path = true →
  exists_ (download_attempt h url directory name w) path = true.
Proof.
  apply exists_mono_files; intros x Hx; unfold download_attempt;
    destruct (remote _ url); cbn;
    try (apply lookup_insert_is_Some'; by right);
    apply lookup_insert_is_Some'; right;
    apply lookup_insert_is_Some'; by right.
Qed.

Lemma exists_downloadAsync (h : Handler) (url directory name path : string)
    (retry : bool) (w : World) :
  exists_ w path = true →
  exists_ (downloadAsync h url directory name retry w).1 path = true.
Proof.
  intros Hp. unfold downloadAsync.
  destruct (remote w url); [by apply exists_download_attempt..|].
  destruct retry; cbn; auto using exists_download_attempt.
Qed.

Lemma download_attempt_target (h : Handler) (url directory name : string) (w : World) :
  exists_ (download_attempt h url directory name w)
          (path_join (platform h) directory name) = true.
Proof.
  unfold download_attempt. destruct (remote _ url); apply exists_write_file.
Qed.

Lemma downloadAsync_target (h : Handler) (url directory name : string)
    (retry : bool) (w : World) :
  exists_ (downloadAsync h url directory name retry w).1
          (path_join (platform h) directory name) = true.
Proof.
  unfold downloadAsync.
  destruct (remote w url); [apply download_attempt_target..|].
  destruct retry; apply download_attempt_target.
Qed.

Lemma download_attempt_trace (h : Handler) (url directory name : string) (w : World) :
  trace (download_attempt h url directory name w)
  = trace w ++ [Mkdir directory; Download url directory name].
Proof.
  unfold download_attempt. destruct (remote _ url); cbn;
    by rewrite <- (assoc_L (++)).
Qed.

Lemma download_attempt_remote (h : Handler) (url directory name : string) (w : World) :
  remote (download_attempt h url directory name w) = remote w.
Proof. unfold download_attempt. by destruct (remote _ url). Qed.

Lemma downloadAsync_remote (h : Handler) (url directory name : string)
    (retry : bool) (w : World) :
  remote (downloadAsync h url directory name retry w).1 = remote w.
Proof.
  unfold downloadAsync. destruct (remote w url) eqn:E; cbn;
    rewrite ?download_attempt_remote; [done..|].
  destruct retry; cbn; by rewrite ?download_attempt_remote.
Qed.

Lemma downloadAsync_trace (h : Handler) (url directory name : string)
    (retry : bool) (w : World) :
  trace (downloadAsync h url directory name retry w).1
  = trace w
    ++ [Mkdir directory; Download url directory name]
    ++ (if retry && unreachable (remote w url)
        then [Mkdir directory; Download url directory name] else []).
Proof.
  unfold downloadAsync. destruct (remote w url) eqn:E; cbn.
  - rewrite andb_false_r, download_attempt_trace. done.
  - rewrite andb_false_r, download_attempt_trace. done.
  - destruct retry; cbn; rewrite ?download_attempt_trace; [|done].
    by rewrite <- (assoc_L (++)).
Qed.

(** *** The write stream *)

Lemma fetches_app (t1 t2 : list Effect) :
  fetches (t1 ++ t2) = fetches t1 ++ fetches t2.
Proof. apply filter_app. Qed.

Lemma download_attempt_stream_fetches (h : Handler) (url directory name : string)
    (s : Stream) (w : World) :
  fetches (trace (download_attempt_stream h url directory name s w))
  = fetches (trace w) ++ [Download url directory name].
Proof.
  destruct s; cbn [download_attempt_stream].
  - rewrite download_attempt_trace, fetches_app. done.
  - match goal with |- context [if ?b then _ else _] => destruct b end; cbn;
      rewrite !fetches_app; cbn; by rewrite ?app_nil_r.
  - match goal with |- context [if ?b then _ else _] => destruct b end; cbn;
      rewrite !fetches_app; cbn; by rewrite ?app_nil_r.
Qed.

Lemma files_rm (p : Platform) (directory name : string) (w : World) :
  files (rm directory name p w) !! path_join p directory name = None.
Proof. cbn. apply lookup_delete_eq. Qed.

Lemma exists_files (w : World) (file : string) :
  exists_ w file = false → files w !! file = None.
Proof.
  unfold exists_. intros [Hf _]%orb_false_iff.
  apply bool_decide_eq_false in Hf. by apply eq_None_not_Some.
Qed.

Lemma download_attempt_stream_fails (h : Handler) (url directory name : string)
    (s : Stream) (w : World) :
  s ≠ Finishes →
  files (download_attempt_stream h url directory name s w)
    !! path_join (platform h) directory name = None.
Proof.
  intros Hs. destruct s; [done| |]; cbn [download_attempt_stream].
  - match goal with |- context [if ?b then _ else _] => destruct b eqn:E end;
      [apply files_rm | by apply exists_files].
  - rewrite exists_write_file. apply files_rm.
Qed.

Lemma downloadAsync_stream_finishes (h : Handler) (url directory name : string)
    (retry : bool) (streams : nat → Stream) (w : World) :
  streams 0 = Finishes → streams 1 = Finishes →
  downloadAsync_stream h url directory name retry streams w
  = downloadAsync h url directory name retry w.
Proof.
  intros H0 H1. unfold downloadAsync_stream, downloadAsync. rewrite H0, H1.
  cbn [finishes negb download_attempt_stream]. rewrite andb_false_r.
  destruct (remote w url); cbn [unreachable]; rewrite ?andb_false_r; [done..|].
  rewrite andb_true_r. by destruct retry.
Qed.

(** X6.  One call of [downloadAsync] issues the request once, once more
    when the request fails with a transport error and [retry] is set,
    and once more when the write stream of the first attempt raises an
    error and [retry] is set: three times at most, and twice at most
    when that stream finishes.  Its result is truthy exactly when the
    server answered with the file and the stream of the first attempt
    finished.  When the streams finish, the trace is the one or two
    attempts and a file is left at the target path whatever the network
    answered; when the stream of an attempt that is not retried fails,
    no file is left there. *)
Theorem downloadAsync_attempts (h : Handler) (url directory name : string)
    (retry : bool) (streams : nat → Stream) (w : World) :
  length (fetches (trace (downloadAsync_stream h url directory name retry streams w).1))
    = length (fetches (trace w)) + 1
      + (if retry && unreachable (remote w url) then 1 else 0)
      + (if retry && negb (finishes (streams 0)) then 1 else 0)
  ∧ ((downloadAsync_stream h url directory name retry streams w).2 = true
     ↔ (∃ sha1, remote w url = Served sha1) ∧ streams 0 = Finishes)
  ∧ (streams 0 = Finishes → streams 1 = Finishes →
     downloadAsync_stream h url directory name retry streams w
       = downloadAsync h url directory name retry w
     ∧ trace (downloadAsync_stream h url directory name retry streams w).1
       = trace w
         ++ [Mkdir directory; Download url directory name]
         ++ (if retry && unreachable (remote w url)
             then [Mkdir directory; Download url directory name] else [])
     ∧ exists_ (downloadAsync_stream h url directory name retry streams w).1
               (path_join (platform h) directory name) = true)
  ∧ (retry = false → streams 0 ≠ Finishes →
     files (downloadAsync_stream h url directory name retry streams w).1
       !! path_join (platform h) directory name = None).
Proof.
  split; [|split; [|split]].
  - unfold downloadAsync_stream. cbn [fst].
    destruct (retry && unreachable (remote w url));
      destruct (retry && negb (finishes (streams 0)));
      rewrite !download_attempt_stream_fetches, !length_app; cbn; lia.
  - unfold downloadAsync_stream. cbn [snd].
    destruct (remote w url) eqn:E.
    + destruct (streams 0); cbn; split; try done; [eauto | by intros [_ ?]..].
    + split; [done | by intros [[? ?] _]].
    + split; [done | by intros [[? ?] _]].
  - intros H0 H1. rewrite downloadAsync_stream_finishes by done.
    split; [done|]. split; [apply downloadAsync_trace | apply downloadAsync_target].
  - intros -> Hs. unfold downloadAsync_stream. cbn [andb fst].
    by apply download_attempt_stream_fails.
Qed.

Lemma downloadAsync_attempts_witness :
  (downloadAsync_stream handler_1_8_9 "https://libraries.minecraft.net/a.jar"
     "/tmp/mc/libraries" "a.jar" true (λ _, Finishes) (empty_world (serving "00")))
  = downloadAsync handler_1_8_9 "https://libraries.minecraft.net/a.jar"
      "/tmp/mc/libraries" "a.jar" true (empty_world (serving "00"))
  ∧ files (downloadAsync_stream handler_1_8_9 "https://libraries.minecraft.net/a.jar"
             "/tmp/mc/libraries" "a.jar" false (λ _, WriteFails)
             (empty_world (serving "00"))).1
      !! "/tmp/mc/libraries/a.jar" = None
  ∧ length (fetches (trace (downloadAsync_stream handler_1_8_9
                              "https://libraries.minecraft.net/a.jar"
                              "/tmp/mc/libraries" "a.jar" true (λ _, WriteFails)
                              (empty_world (λ _, Unreachable))).1)) = 3.
Proof.
  split; [|split].
  - apply (downloadAsync_attempts handler_1_8_9 "https://libraries.minecraft.net/a.jar"
             "/tmp/mc/libraries" "a.jar" true (λ _, Finishes)
             (empty_world (serving "00"))); reflexivity.
  - apply (downloadAsync_attempts handler_1_8_9 "https://libraries.minecraft.net/a.jar"
             "/tmp/mc/libraries" "a.jar" false (λ _, WriteFails)
             (empty_world (serving "00"))); [reflexivity | discriminate].
  - apply (downloadAsync_attempts handler_1_8_9 "https://libraries.minecraft.net/a.jar"
             "/tmp/mc/libraries" "a.jar" true (λ _, WriteFails)
             (empty_world (λ _, Unreachable))).
Defined.

(** ** [downloadToDirectory] *)

Lemma download_library_mono (h : Handler) (directory path : string)
    (library : option Library) (w : World) (libs : list string) :
  exists_ w path = true →
  exists_ (download_library h directory library (w, libs)).1 path = true.
Proof.
  intros Hp. destruct library as [library|]; [|done]. cbn [download_library].
  destruct (negb (exists_ w _)); [|done].
  destruct (url_set library); [by apply exists_downloadAsync|].
  destruct (artifact_of library); [by apply exists_downloadAsync | done].
Qed.

Lemma download_library_rest_mono (h : Handler) (directory : string)
    (library : option Library) (other : Library) (w : World) (libs : list string) :
  library_at_rest h directory w other →
  library_at_rest h directory (download_library h directory library (w, libs)).1 other.
Proof.
  intros [Hex | Hno]; [left | by right]. by apply download_library_mono.
Qed.

Lemma download_library_settles (h : Handler) (directory : string)
    (library : Library) (w : World) (libs : list string) :
  library_at_rest h directory
    (download_library h directory (Some library) (w, libs)).1 library.
Proof.
  cbn [download_library].
  destruct (exists_ w _) eqn:Hex; cbn [negb]; [by left|].
  destruct (url_set library) eqn:Hu; [left; apply downloadAsync_target|].
  destruct (artifact_of library) eqn:Ha; [left; apply downloadAsync_target|].
  by right.
Qed.

Lemma download_library_at_rest (h : Handler) (directory : string)
    (library : Library) (w : World) (libs : list string) :
  library_at_rest h directory w library →
  download_library h directory (Some library) (w, libs)
  = (w, libs ++ [library_entry h directory library]).
Proof.
  intros [Hex | [Hu Ha]]; cbn [download_library].
  - by rewrite Hex.
  - rewrite Hu, Ha. by destruct (negb _).
Qed.

Lemma download_fold_rest_mono (h : Handler) (directory : string)
    (libraries others : list (option Library)) :
  ∀ w libs, libraries_at_rest h directory w others →
    libraries_at_rest h directory
      (foldl (λ s library, download_library h directory library s) (w, libs) libraries).1
      others.
Proof.
  induction libraries as [|library r IH]; intros w libs Hrest; cbn [foldl]; [done|].
  destruct (download_library h directory library (w, libs)) as [w1 libs1] eqn:E.
  apply IH. eapply Forall_impl; [exact Hrest|].
  intros [other|] Ho; [|done]. cbn in *.
  replace w1 with (download_library h directory library (w, libs)).1 by by rewrite E.
  by apply download_library_rest_mono.
Qed.

Lemma download_fold_settles (h : Handler) (directory : string)
    (libraries : list (option Library)) :
  ∀ w libs,
    libraries_at_rest h directory
      (foldl (λ s library, download_library h directory library s) (w, libs) libraries).1
      libraries.
Proof.
  induction libraries as [|library r IH]; intros w libs; cbn [foldl]; [constructor|].
  destruct (download_library h directory library (w, libs)) as [w1 libs1] eqn:E.
  constructor; [|apply IH].
  destruct library as [library|]; [|done]. cbn.
  pose proof (download_fold_rest_mono h directory r [Some library] w1 libs1) as Hm.
  assert (Hone : libraries_at_rest h directory w1 [Some library]).
  { constructor; [|constructor]. cbn.
    replace w1 with (download_library h directory (Some library) (w, libs)).1
      by by rewrite E.
    apply download_library_settles. }
  specialize (Hm Hone). by inversion Hm.
Qed.

Lemma download_fold_at_rest (h : Handler) (directory : string)
    (libraries : list (option Library)) (w : World) :
  libraries_at_rest h directory w libraries →
  ∀ libs,
    foldl (λ s library, download_library h directory library s) (w, libs) libraries
    = (w, libs ++ (library_entry h directory <$> omap (λ library, library) libraries)).
Proof.
  induction libraries as [|[library|] r IH]; intros Hrest libs; cbn [foldl].
  - cbn. by rewrite app_nil_r.
  - inversion Hrest as [|? ? Hl Hr]; subst. cbn in Hl.
    rewrite download_library_at_rest by done. rewrite IH by done.
    cbn. by rewrite <- (assoc_L (++)).
  - inversion Hrest as [|? ? Hl Hr]; subst. cbn [download_library]. by apply IH.
Qed.

(** *** Completion order *)

Lemma in_order_seq {A : Type} (l : list (option A)) :
  in_order l (seq 0 (length l)) = l.
Proof.
  unfold in_order. induction l as [|x r IH]; [done|].
  cbn [length seq fmap list_fmap]. f_equal; try (by destruct x).
  rewrite <- fmap_S_seq, <- list_fmap_compose. exact IH.
Qed.

Lemma in_order_Permutation {A : Type} (l : list (option A)) (order : list nat) :
  order ≡ₚ seq 0 (length l) → in_order l order ≡ₚ l.
Proof.
  intros Ho. rewrite <- (in_order_seq l) at 2. unfold in_order. by rewrite Ho.
Qed.

Lemma downloadToDirectory_in_order (h : Handler) (directory : string)
    (libraries : list (option Library)) (order : list nat) (w : World) :
  downloadToDirectory_in h directory libraries order w
  = downloadToDirectory h directory (in_order libraries order) w.
Proof.
  unfold downloadToDirectory_in, downloadToDirectory, in_order.
  generalize (w, @nil string). induction order as [|i r IH]; intros s; [done|].
  cbn [foldl fmap list_fmap]. apply IH.
Qed.

Lemma downloadToDirectory_in_seq (h : Handler) (directory : string)
    (libraries : list (option Library)) (w : World) :
  downloadToDirectory_in h directory libraries (seq 0 (length libraries)) w
  = downloadToDirectory h directory libraries w.
Proof. by rewrite downloadToDirectory_in_order, in_order_seq. Qed.

Lemma entries_Permutation (h : Handler) (directory : string)
    (l1 l2 : list (option Library)) :
  l1 ≡ₚ l2 →
  library_entry h directory <$> omap (λ library, library) l1
  ≡ₚ library_entry h directory <$> omap (λ library, library) l2.
Proof. intros Hp. by rewrite Hp. Qed.

(** X7.  The list [downloadToDirectory] returns holds one entry
    [jarPath + sep + name] for each defined library, in the order in
    which the callbacks complete.  Whatever that order, and whatever is
    on disk and whatever the network answers, it is a permutation of
    the entries of the array; in array order it is the list of
    [downloadToDirectory]. *)
Theorem downloadToDirectory_entries (h : Handler) (directory : string)
    (libraries : list (option Library)) (order : list nat) (w : World) :
  order ≡ₚ seq 0 (length libraries) →
  (downloadToDirectory_in h directory libraries order w).2
    = library_entry h directory
        <$> omap (λ library, library) (in_order libraries order)
  ∧ (downloadToDirectory_in h directory libraries order w).2
    ≡ₚ library_entry h directory <$> omap (λ library, library) libraries
  ∧ (downloadToDirectory h directory libraries w).2
    ≡ₚ library_entry h directory <$> omap (λ library, library) libraries
  ∧ downloadToDirectory_in h directory libraries (seq 0 (length libraries)) w
    = downloadToDirectory h directory libraries w.
Proof.
  intros Ho. rewrite downloadToDirectory_in_order. unfold downloadToDirectory.
  rewrite !download_library_entries. cbn [app].
  split; [done|]. split; [|split; [done|]].
  - by apply entries_Permutation, in_order_Permutation.
  - apply downloadToDirectory_in_seq.
Qed.

Lemma downloadToDirectory_entries_witness :
  (downloadToDirectory_in handler_1_8_9 "/tmp/mc/libraries"
     [Some guava_vanilla; Some bare_library] [1; 0] (empty_world (serving "00"))).2
  = [ "/tmp/mc/libraries/com/example/optional/1.0/optional-1.0.jar";
      "/tmp/mc/libraries/com/google/guava/guava/17.0/guava-17.0.jar" ]
  ∧ (downloadToDirectory_in handler_1_8_9 "/tmp/mc/libraries"
       [Some guava_vanilla; Some bare_library] [1; 0] (empty_world (serving "00"))).2
    ≡ₚ [ "/tmp/mc/libraries/com/google/guava/guava/17.0/guava-17.0.jar";
         "/tmp/mc/libraries/com/example/optional/1.0/optional-1.0.jar" ].
Proof.
  destruct (downloadToDirectory_entries handler_1_8_9 "/tmp/mc/libraries"
              [Some guava_vanilla; Some bare_library] [1; 0]
              (empty_world (serving "00"))) as (H1 & H2 & _).
  - apply perm_swap.
  - split; [exact H1 | exact H2].
Defined.

(** X8.  When every library is on disk or names no source,
    [downloadToDirectory] leaves the world as it is: nothing is
    requested, created or logged. *)
Theorem downloadToDirectory_at_rest (h : Handler) (directory : string)
    (libraries : list (option Library)) (w : World) :
  libraries_at_rest h directory w libraries →
  (downloadToDirectory h directory libraries w).1 = w.
Proof.
  intros Hrest. unfold downloadToDirectory.
  by rewrite download_fold_at_rest.
Qed.

Lemma downloadToDirectory_at_rest_witness :
  (downloadToDirectory handler_1_8_9 "/tmp/mc/libraries"
     [Some bare_library; None] (empty_world (serving "00"))).1
  = empty_world (serving "00").
Proof.
  apply (downloadToDirectory_at_rest handler_1_8_9 "/tmp/mc/libraries"
           [Some bare_library; None] (empty_world (serving "00"))).
  constructor; [right; split; reflexivity|]. constructor; [exact I|]. constructor.
Defined.

(** X9.  After [downloadToDirectory] has run, in whatever order its
    callbacks completed and with every write stream finishing, every
    library of the array is on disk or names no source.  Running it a
    second time, again in any order, leaves the world as the first run
    left it and returns a permutation of the first list. *)
Theorem downloadToDirectory_idempotent (h : Handler) (directory : string)
    (libraries : list (option Library)) (first second : list nat) (w : World) :
  first ≡ₚ seq 0 (length libraries) →
  second ≡ₚ seq 0 (length libraries) →
  libraries_at_rest h directory
    (downloadToDirectory_in h directory libraries first w).1 libraries
  ∧ (downloadToDirectory_in h directory libraries second
       (downloadToDirectory_in h directory libraries first w).1).1
    = (downloadToDirectory_in h directory libraries first w).1
  ∧ (downloadToDirectory_in h directory libraries second
       (downloadToDirectory_in h directory libraries first w).1).2
    ≡ₚ (downloadToDirectory_in h directory libraries first w).2.
Proof.
  intros H1 H2. rewrite !downloadToDirectory_in_order.
  assert (Hrest : libraries_at_rest h directory
            (downloadToDirectory h directory (in_order libraries first) w).1 libraries).
  { unfold libraries_at_rest.
    eapply Permutation_Forall; [exact (in_order_Permutation _ _ H1)|].
    apply download_fold_settles. }
  split; [exact Hrest|].
  assert (Hrest2 : libraries_at_rest h directory
            (downloadToDirectory h directory (in_order libraries first) w).1
            (in_order libraries second)).
  { unfold libraries_at_rest.
    eapply Permutation_Forall;
      [symmetry; exact (in_order_Permutation _ _ H2)|].
    exact Hrest. }
  pose proof (download_library_entries h directory
                (in_order libraries first) w []) as Hl1.
  fold (downloadToDirectory h directory (in_order libraries first) w) in Hl1.
  cbn [app] in Hl1. rewrite Hl1.
  set (w1 := (downloadToDirectory h directory (in_order libraries first) w).1) in *.
  unfold downloadToDirectory.
  rewrite (download_fold_at_rest h directory _ w1 Hrest2 []). cbn [fst snd app].
  split; [done|]. apply entries_Permutation.
  by rewrite (in_order_Permutation _ _ H1), (in_order_Permutation _ _ H2).
Qed.

Lemma downloadToDirectory_idempotent_witness :
  ∃ w1,
    (downloadToDirectory_in handler_1_8_9 "/tmp/mc/libraries"
       [Some guava_vanilla; Some bare_library] [1; 0] (empty_world (serving "00"))).1
    = w1
    ∧ (downloadToDirectory_in handler_1_8_9 "/tmp/mc/libraries"
         [Some guava_vanilla; Some bare_library] [0; 1] w1).1 = w1.
Proof.
  eexists. split; [reflexivity|].
  apply (downloadToDirectory_idempotent handler_1_8_9 "/tmp/mc/libraries"
           [Some guava_vanilla; Some bare_library] [1; 0] [0; 1]
           (empty_world (serving "00"))).
  - apply perm_swap.
  - reflexivity.
Defined.

(** ** Where a library's JAR is kept *)

Lemma split_coordinate (l : list string) :
  l ≠ [] → Forall (λ f, has_char ":" f = false) l →
  Str.split ":" (Str.join ":" l) = l.
Proof. apply (split_join_fields ":"). Qed.

(** X10.  For a library with [downloads.artifact.path], the JAR is kept
    in the directory part of that path under the library root, under the
    last component of the path as its name. *)
Theorem artifact_path_layout (h : Handler) (directory : string)
    (library : Library) (d n : string) :
  artifact_path library = Some (d +:+ "/" +:+ n) →
  has_char "/" n = false →
  jar_name library = n
  ∧ jar_path h directory library = path_join (platform h) directory d.
Proof.
  intros Hp Hn. destruct (popString_split d n Hn) as [Hd Hl].
  unfold jar_name, jar_path. rewrite Hp, Hl, Hd. done.
Qed.

Lemma artifact_path_layout_witness :
  jar_name guava_vanilla = "guava-17.0.jar"
  ∧ jar_path handler_1_8_9 "/tmp/mc/libraries" guava_vanilla
    = "/tmp/mc/libraries/com/google/guava/guava/17.0".
Proof.
  apply (artifact_path_layout handler_1_8_9 "/tmp/mc/libraries" guava_vanilla
           "com/google/guava/guava/17.0" "guava-17.0.jar").
  - reflexivity.
  - reflexivity.
Defined.

(** X11.  For a library without [downloads.artifact.path] and with the
    name [group:artifact:version], the JAR is
    [artifact-version.jar] in [group/artifact/version] with the dots of
    the group turned into slashes; a fourth, non-empty field is appended
    to the name as a classifier. *)
Theorem maven_coordinate_layout (h : Handler) (directory : string)
    (library : Library) (g a v : string) :
  artifact_path library = None →
  has_char ":" g = false → has_char ":" a = false → has_char ":" v = false →
  (lib_name library = g +:+ ":" +:+ a +:+ ":" +:+ v →
     jar_name library = a +:+ "-" +:+ v +:+ ".jar"
     ∧ jar_path h directory library
       = path_join (platform h) directory
           (Str.dots_to_slashes g +:+ "/" +:+ a +:+ "/" +:+ v))
  ∧ (∀ c, lib_name library = g +:+ ":" +:+ a +:+ ":" +:+ v +:+ ":" +:+ c →
          has_char ":" c = false → Str.nonempty c = true →
     jar_name library = a +:+ "-" +:+ v +:+ "-" +:+ c +:+ ".jar"
     ∧ jar_path h directory library
       = path_join (platform h) directory
           (Str.dots_to_slashes g +:+ "/" +:+ a +:+ "/" +:+ v)).
Proof.
  intros Hp Hg Ha Hv. split.
  - intros Hname. unfold jar_name, jar_path, maven_dir. rewrite Hp, Hname.
    change (g +:+ ":" +:+ a +:+ ":" +:+ v) with (Str.join ":" [g; a; v]).
    rewrite split_coordinate by (done || by repeat constructor). done.
  - intros c Hname Hc Hne. unfold jar_name, jar_path, maven_dir. rewrite Hp, Hname.
    change (g +:+ ":" +:+ a +:+ ":" +:+ v +:+ ":" +:+ c)
      with (Str.join ":" [g; a; v; c]).
    rewrite split_coordinate by (done || by repeat constructor).
    cbn. by rewrite Hne.
Qed.

Lemma maven_coordinate_layout_witness :
  jar_name bare_library = "optional-1.0.jar"
  ∧ jar_path handler_1_8_9 "/tmp/mc/libraries" bare_library
    = "/tmp/mc/libraries/com/example/optional/1.0".
Proof.
  apply (maven_coordinate_layout handler_1_8_9 "/tmp/mc/libraries" bare_library
           "com.example" "optional" "1.0"); reflexivity.
Defined.

(** X12.  A library name without any colon still yields a class path
    entry: the missing artifact and version are printed as [undefined],
    giving [undefined-undefined.jar]. *)
Theorem malformed_coordinate_layout (h : Handler) (directory : string)
    (library : Library) :
  artifact_path library = None →
  has_char ":" (lib_name library) = false →
  jar_name library = "undefined-undefined.jar"
  ∧ jar_path h directory library
    = path_join (platform h) directory
        (Str.dots_to_slashes (lib_name library) +:+ "/undefined/undefined").
Proof.
  intros Hp Hn. unfold jar_name, jar_path, maven_dir.
  rewrite Hp, (split_plain _ _ Hn). done.
Qed.

Lemma malformed_coordinate_layout_witness :
  jar_name launchwrapper_bare = "undefined-undefined.jar"
  ∧ jar_path handler_1_8_9 "/tmp/mc/libraries" launchwrapper_bare
    = "/tmp/mc/libraries/launchwrapper/undefined/undefined".
Proof.
  apply (malformed_coordinate_layout handler_1_8_9 "/tmp/mc/libraries"
           launchwrapper_bare); reflexivity.
Defined.

(** ** [getNatives]: what is left on disk *)

Lemma download_attempt_files_ne (h : Handler) (url directory name k : string)
    (w : World) :
  k ≠ path_join (platform h) directory name →
  files (download_attempt h url directory name w) !! k = files w !! k.
Proof.
  intros Hk. unfold download_attempt.
  destruct (remote _ url); cbn; by rewrite lookup_insert_ne.
Qed.

Lemma downloadAsync_files_ne (h : Handler) (url directory name k : string)
    (retry : bool) (w : World) :
  k ≠ path_join (platform h) directory name →
  files (downloadAsync h url directory name retry w).1 !! k = files w !! k.
Proof.
  intros Hk. unfold downloadAsync.
  destruct (remote w url); cbn; rewrite ?download_attempt_files_ne by done; [done..|].
  destruct retry; cbn; by rewrite ?download_attempt_files_ne by done.
Qed.

Lemma downloadAsync_served (h : Handler) (url directory name sha1 : string)
    (retry : bool) (w : World) :
  remote w url = Served sha1 →
  files (downloadAsync h url directory name retry w).1
    !! path_join (platform h) directory name = Some sha1
  ∧ trace (downloadAsync h url directory name retry w).1
    = trace w ++ [Mkdir directory; Download url directory name].
Proof.
  intros Hr. unfold downloadAsync, download_attempt. cbn. rewrite Hr. cbn.
  split; [apply lookup_insert_eq | by rewrite <- (assoc_L (++))].
Qed.

Lemma install_native_files (h : Handler) (directory : string) (n : Artifact)
    (p : string) (w : World) :
  art_path n = Some p →
  ∃ w', install_native h directory (Some n) w = Normal w'
    ∧ files w' !! path_join (platform h) directory (native_name n) = None
    ∧ (∀ k, k ≠ path_join (platform h) directory (native_name n) →
            files w' !! k = files w !! k)
    ∧ remote w' = remote w.
Proof.
  intros Hp. unfold install_native, native_name. rewrite Hp. cbn [default].
  eexists. split; [reflexivity|]. split; [|split].
  - cbn. apply lookup_delete_eq.
  - intros k Hk. cbn. rewrite lookup_delete_ne by done.
    destruct (negb (checkSum _ _ _)); cbn;
      by rewrite ?downloadAsync_files_ne by done.
  - cbn. destruct (negb (checkSum _ _ _)); cbn;
      by rewrite ?downloadAsync_remote.
Qed.

(** X13.  Installing one native that has a [path] always returns
    normally with its archive deleted, whether or not the digest
    matched; when the server sends the expected digest, the archive is
    requested exactly once, handed to the extractor and removed. *)
Theorem install_native_removes_archive (h : Handler) (directory : string)
    (n : Artifact) (p : string) (w : World) :
  art_path n = Some p →
  ∃ w', install_native h directory (Some n) w = Normal w'
    ∧ files w' !! path_join (platform h) directory (native_name n) = None
    ∧ (remote w (art_url n) = Served (art_sha1 n) →
       trace w'
       = trace w ++ [ Mkdir directory;
                      Download (art_url n) directory (native_name n);
                      Unzip (path_join (platform h) directory (native_name n)) directory;
                      Remove (path_join (platform h) directory (native_name n)) ]).
Proof.
  intros Hp.
  destruct (install_native_files h directory n p w Hp) as (w' & Hrun & Hgone & _).
  exists w'. split; [done|]. split; [done|].
  intros Hserved. unfold install_native, native_name in Hrun. rewrite Hp in Hrun.
  cbn [default] in Hrun. injection Hrun as <-.
  destruct (downloadAsync_served h (art_url n) directory
              (default "" (last (Str.split "/" p))) (art_sha1 n) true w Hserved)
    as [Hfile Htrace].
  unfold checkSum. rewrite Hfile. unfold Str.eqb. rewrite String.eqb_refl. cbn [negb].
  unfold native_name. rewrite Hp. cbn. rewrite Htrace.
  by rewrite <- !(assoc_L (++)).
Qed.

Lemma install_native_removes_archive_witness :
  ∃ w', install_native handler_1_8_9 "/tmp/mc/natives/1.8.9"
          (select_native handler_1_8_9
             [ ("natives-linux",
                {| art_path := Some "org/lwjgl/lwjgl-platform-natives-linux.jar";
                   art_url := "https://libraries.minecraft.net/org/lwjgl/lwjgl-platform-natives-linux.jar";
                   art_sha1 := "931074f46c795d2f7b30ed6395df5715cfd7675b" |}) ])
          natives_present = Normal w'
    ∧ files w' !! "/tmp/mc/natives/1.8.9/lwjgl-platform-natives-linux.jar" = None.
Proof.
  destruct (install_native_removes_archive handler_1_8_9 "/tmp/mc/natives/1.8.9"
              {| art_path := Some "org/lwjgl/lwjgl-platform-natives-linux.jar";
                 art_url := "https://libraries.minecraft.net/org/lwjgl/lwjgl-platform-natives-linux.jar";
                 art_sha1 := "931074f46c795d2f7b30ed6395df5715cfd7675b" |}
              "org/lwjgl/lwjgl-platform-natives-linux.jar" natives_present eq_refl)
    as (w' & Hrun & Hgone & _).
  exists w'. split; [exact Hrun | exact Hgone].
Defined.

Lemma install_natives_files (h : Handler) (directory : string)
    (stat : list (option Artifact)) :
  ∀ w, Forall has_path stat →
    ∃ w', install_natives h directory stat w = Normal w'
      ∧ ∀ k, (files w !! k = None
              ∨ ∃ n, Some n ∈ stat ∧ k = path_join (platform h) directory (native_name n)) →
             files w' !! k = None.
Proof.
  induction stat as [|native r IH]; intros w Hstat; cbn [install_natives].
  - exists w. split; [done|]. intros k [Hk | (n & Hn & _)]; [done|].
    by apply elem_of_nil in Hn.
  - inversion Hstat as [|? ? Hp Hr]; subst.
    destruct native as [n|].
    + destruct Hp as [p Hp].
      destruct (install_native_files h directory n p w Hp)
        as (w1 & -> & Hgone & Hkeep & _).
      cbn. destruct (IH w1 Hr) as (w' & Hrun & Hw'). exists w'.
      split; [done|]. intros k Hk. apply Hw'.
      destruct (decide (k = path_join (platform h) directory (native_name n)))
        as [-> | Hne]; [by left|].
      destruct Hk as [Hk | (n' & Hn' & Hk)].
      * left. by rewrite Hkeep.
      * apply elem_of_cons in Hn' as [[= ->] | Hn']; [done|]. right. eauto.
    + cbn. destruct (IH w Hr) as (w' & Hrun & Hw'). exists w'.
      split; [done|]. intros k [Hk | (n' & Hn' & Hk)]; apply Hw'; [by left|].
      apply elem_of_cons in Hn' as [[=] | Hn']. right. eauto.
Qed.

(** X14.  When every selected native has a [path], [getNatives] returns
    the natives directory and leaves none of the downloaded archives in
    it: each one has been deleted after unpacking. *)
Theorem getNatives_archives_removed (h : Handler) (w : World)
    (stat : list (option Artifact)) :
  collect_natives h (libraries (version h)) = Normal stat →
  Forall has_path stat →
  ∃ w', getNatives h w = Normal (w', nativeDirectory h)
    ∧ ∀ n, Some n ∈ stat → files w' !! native_archive h n = None.
Proof.
  intros Hstat Hp. unfold getNatives, readdir_promise_length.
  cbn [truthy negb]. rewrite orb_true_r, Hstat. cbn.
  destruct (install_natives_files h (nativeDirectory h) stat
              (mkdir_p (nativeDirectory h) w) Hp) as (w' & -> & Hw').
  cbn. exists w'. split; [done|]. intros n Hn. apply Hw'. right. eauto.
Qed.

Lemma getNatives_archives_removed_witness :
  ∃ w', getNatives handler_1_8_9 natives_present
          = Normal (w', "/tmp/mc/natives/1.8.9")
    ∧ files w' !! "/tmp/mc/natives/1.8.9/lwjgl-platform-2.9.4-nightly-20150209-natives-linux.jar"
      = None.
Proof.
  destruct (getNatives_archives_removed handler_1_8_9 natives_present
              [ Some {| art_path := Some "org/lwjgl/lwjgl/lwjgl-platform/2.9.4-nightly-20150209/lwjgl-platform-2.9.4-nightly-20150209-natives-linux.jar";
                        art_url := "https://libraries.minecraft.net/org/lwjgl/lwjgl/lwjgl-platform/2.9.4-nightly-20150209/lwjgl-platform-2.9.4-nightly-20150209-natives-linux.jar";
                        art_sha1 := "931074f46c795d2f7b30ed6395df5715cfd7675b" |} ])
    as (w' & Hrun & Hgone).
  - reflexivity.
  - constructor; [by eexists | constructor].
  - exists w'. split; [exact Hrun|].
    apply (Hgone {| art_path := Some "org/lwjgl/lwjgl/lwjgl-platform/2.9.4-nightly-20150209/lwjgl-platform-2.9.4-nightly-20150209-natives-linux.jar";
                    art_url := "https://libraries.minecraft.net/org/lwjgl/lwjgl/lwjgl-platform/2.9.4-nightly-20150209/lwjgl-platform-2.9.4-nightly-20150209-natives-linux.jar";
                    art_sha1 := "931074f46c795d2f7b30ed6395df5715cfd7675b" |}).
    apply list_elem_of_here.
Defined.

(** ** Libraries without [downloads] *)

Lemma parseRule_throw_TypeError (h : Handler) (lib : Library) (e : string) :
  parseRule h lib = Throw e → e = TypeError.
Proof.
  unfold parseRule. destruct (lib_rules lib) as [rules|]; [|done].
  destruct (bool_decide _).
  - destruct (rules !! 0), (rules !! 1); try (by intros [= <-]).
    destruct (Str.eqb _ _); [|done]. destruct (Str.eqb _ _); [|done].
    destruct (os _) as [o|]; [by destruct (os_is_osx o) | by intros [= <-]].
  - destruct (rules !! 0); [|by intros [= <-]]. by destruct (_ && _).
Qed.

Lemma collect_natives_no_downloads (h : Handler) (lib : Library)
    (libs : list Library) :
  lib ∈ libs → lib_downloads lib = None →
  collect_natives h libs = Throw TypeError.
Proof.
  intros Hin Hd. induction libs as [|x r IH]; [by apply elem_of_nil in Hin|].
  cbn [collect_natives]. apply elem_of_cons in Hin as [<- | Hin].
  - by rewrite Hd.
  - specialize (IH Hin). destruct (lib_downloads x) as [d|]; [|done].
    destruct (classifiers d); [|done].
    destruct (parseRule h x) as [v|e] eqn:E; cbn.
    + destruct (truthy v); [done|]. by rewrite IH.
    + by rewrite (parseRule_throw_TypeError _ _ _ E).
Qed.

Lemma parsed_libraries_no_downloads (h : Handler) (lib : Library)
    (libs : list Library) :
  lib ∈ libs → lib_downloads lib = None →
  parsed_libraries h libs = Throw TypeError.
Proof.
  intros Hin Hd. induction libs as [|x r IH]; [by apply elem_of_nil in Hin|].
  cbn [parsed_libraries]. apply elem_of_cons in Hin as [<- | Hin].
  - by rewrite Hd.
  - specialize (IH Hin). destruct (lib_downloads x) as [d|]; [|done].
    destruct (artifact d).
    + destruct (parseRule h x) as [v|e] eqn:E; cbn.
      * by rewrite IH.
      * by rewrite (parseRule_throw_TypeError _ _ _ E).
    + cbn. by rewrite IH.
Qed.

(** X15.  A single library of the vanilla descriptor without a
    [downloads] field makes both [getNatives] and [getClasses] throw a
    TypeError, whatever the other libraries, the custom descriptor and
    the state of the disk are. *)
Theorem library_without_downloads_throws (h : Handler) (lib : Library) (w : World) :
  lib ∈ libraries (version h) → lib_downloads lib = None →
  getNatives h w = Throw TypeError
  ∧ ∀ classJson, getClasses h classJson w = Throw TypeError.
Proof.
  intros Hin Hd. split.
  - unfold getNatives, readdir_promise_length. cbn [truthy negb].
    rewrite orb_true_r. by rewrite (collect_natives_no_downloads h lib).
  - intros classJson. unfold getClasses.
    destruct classJson as [|d|]; cbn; [| |done].
    + by rewrite (parsed_libraries_no_downloads h lib).
    + destruct (downloadToDirectory h _ _ _) as [w1 l1]. cbn.
      by rewrite (parsed_libraries_no_downloads h lib).
Qed.

Lemma library_without_downloads_throws_witness :
  getNatives (handler_forge forge_universal [guava_vanilla; bare_library])
             universal_world = Throw TypeError
  ∧ ∀ classJson,
      getClasses (handler_forge forge_universal [guava_vanilla; bare_library])
                 classJson universal_world = Throw TypeError.
Proof.
  apply (library_without_downloads_throws
           (handler_forge forge_universal [guava_vanilla; bare_library])
           bare_library universal_world).
  - apply list_elem_of_further, list_elem_of_here.
  - reflexivity.
Defined.

(** ** Forge *)

Lemma exists_mkdir_p (directory path : string) (w : World) :
  exists_ w path = true → exists_ (mkdir_p directory w) path = true.
Proof.
  apply exists_mono_files; intros x Hx; cbn; [done|].
  apply lookup_insert_is_Some'. by right.
Qed.

(** X16.  For a Forge installer JAR (one with [install_profile.json]),
    lines 78-89 of [launch] end with [forge = false] and [custom] the
    function [getForgedWrapped] returned: nothing is fetched or run, the
    files on disk are untouched, and [version.custom], even when set, is
    never read. *)
Theorem forge_phase_installer (h : Handler) (w : World) (f : string) (zipFile : Archive) :
  forge_set (options h) = Some f →
  archives w !! path_resolve (platform h) f = Some zipFile →
  "install_profile.json" ∈ entries zipFile →
  ∃ w', forge_phase h w = Normal (w', Some ForgeFalse, CustomFactory)
    ∧ files w' = files w
    ∧ (trace w' = trace w
       ∨ trace w' = trace w ++ [Mkdir (path_join (platform h) (root (options h)) "forge")]).
Proof.
  intros Hf Hzip Hin. unfold forge_phase, getForgeDependenciesLegacy. rewrite Hf.
  destruct (negb (exists_ w _)); cbn.
  - rewrite Hzip. rewrite bool_decide_true by done. cbn.
    eexists. split; [reflexivity|]. split; [done | by right].
  - rewrite Hzip. rewrite bool_decide_true by done. cbn.
    eexists. split; [reflexivity|]. split; [done | by left].
Qed.

Lemma forge_phase_installer_witness :
  ∃ w', forge_phase (handler_forge forge_installer []) installer_world
          = Normal (w', Some ForgeFalse, CustomFactory)
    ∧ files w' = files installer_world
    ∧ (trace w' = trace installer_world
       ∨ trace w' = trace installer_world ++ [Mkdir "/tmp/mc/forge"]).
Proof.
  apply (forge_phase_installer (handler_forge forge_installer []) installer_world
           forge_installer
           {| entries := ["install_profile.json"; "version.json"; "data/client.lzma"];
              version_json := None |}).
  - reflexivity.
  - reflexivity.
  - apply list_elem_of_here.
Defined.

Lemma forge_library_step (h : Handler) (library : Library) (w w' : World)
    (paths paths' : list string) :
  forge_library h library (w, paths) = Normal (w', paths') →
  (∀ path, exists_ w path = true → exists_ w' path = true)
  ∧ (paths' = paths
     ∨ (paths' = paths ++ [forge_entry h library]
        ∧ exists_ w' (forge_target h library) = true)).
Proof.
  unfold forge_library, forge_entry, forge_target, forge_jar_dir, forge_jar_name.
  set (lib := Str.split ":" (lib_name library)).
  set (jarPath := path_join (platform h) (libraryDirectory h) (maven_dir lib)).
  set (name := Str.template_nth lib 1 +:+ "-" +:+ Str.template_nth lib 2 +:+ ".jar").
  match goal with |- context [mbind _ ?c] => destruct c as [[|]|e] end; cbn;
    [intros [= <- <-]; split; [done | by left] | | done].
  match goal with |- context [match ?u with Some _ => _ | None => Normal _ end] =>
    destruct u as [url|] end;
    [|intros [= <- <-]; split; [done | by left]].
  destruct (exists_ w _) eqn:Hex.
  { intros [= <- <-]. split; [done|]. right. by split. }
  set (w0 := if negb (exists_ w jarPath) then mkdir_p jarPath w else w).
  assert (H0 : ∀ path, exists_ w path = true → exists_ w0 path = true).
  { intros path Hp. unfold w0. destruct (negb _); [by apply exists_mkdir_p | done]. }
  pose proof (λ path Hp, exists_downloadAsync h
                (url +:+ maven_dir lib +:+ "/" +:+ name) jarPath name path true w0
                (H0 path Hp)) as H1.
  pose proof (downloadAsync_target h (url +:+ maven_dir lib +:+ "/" +:+ name)
                jarPath name true w0) as Ht.
  destruct (downloadAsync h (url +:+ maven_dir lib +:+ "/" +:+ name) jarPath name true w0)
    as [w1 download].
  cbn in H1, Ht. intros [= <- <-]. split.
  - intros path Hp. destruct (negb download); auto using exists_downloadAsync.
  - right. split; [done|].
    destruct (negb download); auto using exists_downloadAsync.
Qed.

Lemma forge_libraries_kept (h : Handler) (libs : list Library) :
  ∀ w paths0 w' paths,
    forge_libraries h libs (w, paths0) = Normal (w', paths) →
    (∀ path, exists_ w path = true → exists_ w' path = true)
    ∧ ∃ kept, kept `sublist_of` libs
        ∧ paths = paths0 ++ (forge_entry h <$> kept)
        ∧ Forall (λ library, exists_ w' (forge_target h library) = true) kept.
Proof.
  induction libs as [|library r IH]; intros w paths0 w' paths; cbn [forge_libraries].
  - intros [= <- <-]. split; [done|]. exists []. by rewrite app_nil_r.
  - destruct (forge_library h library (w, paths0)) as [[w1 paths1]|e] eqn:E; [|done].
    cbn. intros Hr.
    destruct (forge_library_step _ _ _ _ _ _ E) as [Hm1 Hstep].
    destruct (IH _ _ _ _ Hr) as (Hm2 & kept & Hsub & -> & Hex).
    split; [auto|].
    destruct Hstep as [-> | [-> Ht]].
    + exists kept. split; [by apply sublist_cons | done].
    + exists (library :: kept). split; [by apply sublist_skip|].
      split; [by rewrite <- (assoc_L (++))|]. constructor; auto.
Qed.

(** X17.  The class path entries [getForgeDependenciesLegacy] returns
    for a legacy Forge JAR are, in some order, the entries of libraries
    of the Forge descriptor, each library listed at most as often as
    the descriptor lists it; and the JAR of each exists on disk when
    the function returns: it was there already or a download has just
    written it, whatever the network answered (the write streams
    finishing). *)
Theorem forge_paths_exist (h : Handler) (forgePath : string) (w w' : World)
    (paths : list string) (forge_json : Descriptor) :
  getForgeDependenciesLegacy h forgePath w = Normal (w', ForgeLegacy paths forge_json) →
  ∃ kept, kept ⊆+ libraries forge_json
    ∧ paths ≡ₚ forge_entry h <$> kept
    ∧ Forall (λ library, exists_ w' (forge_target h library) = true) kept.
Proof.
  unfold getForgeDependenciesLegacy.
  destruct (archives _ !! forgePath) as [zipFile|]; [|done].
  destruct (bool_decide _); [done|].
  destruct (version_json zipFile) as [fj|]; [|done].
  destruct (forge_libraries h (libraries fj) _) as [[w1 paths1]|e] eqn:E; [|done].
  cbn. intros [= <- <- <-].
  destruct (forge_libraries_kept _ _ _ _ _ _ E) as (_ & kept & Hsub & Hp & Hex).
  exists kept. split; [by apply sublist_submseteq|]. by rewrite Hp.
Qed.

Lemma forge_paths_exist_witness :
  ∃ w' paths forge_json kept,
    getForgeDependenciesLegacy (handler_forge forge_universal [guava_vanilla])
      forge_universal universal_world = Normal (w', ForgeLegacy paths forge_json)
    ∧ kept ⊆+ libraries forge_json
    ∧ paths ≡ₚ forge_entry (handler_forge forge_universal [guava_vanilla]) <$> kept
    ∧ Forall (λ library,
               exists_ w' (forge_target (handler_forge forge_universal [guava_vanilla])
                                        library) = true) kept.
Proof.
  destruct (getForgeDependenciesLegacy (handler_forge forge_universal [guava_vanilla])
              forge_universal universal_world) as [[w' [| |paths fj]]|e] eqn:E;
    try (vm_compute in E; discriminate).
  destruct (forge_paths_exist _ _ _ _ _ _ E) as (kept & H1 & H2 & H3).
  by exists w', paths, fj, kept.
Defined.

(** ** [getVersion]: what is requested, and what ends up in [this.version] *)

Lemma fetch_listed_versions_trace (h : Handler) (versions : list (string * string)) :
  ∀ run,
    trace (world_after (foldl (λ run entry, fetch_listed_version h entry run) run versions))
    = trace (world_after run) ++ (Get <$> matching_urls h versions).
Proof.
  unfold matching_urls.
  induction versions as [|entry r IH]; intros run; cbn [foldl].
  - cbn. by rewrite app_nil_r.
  - rewrite IH. rewrite filter_cons. unfold fetch_listed_version.
    destruct (Str.eqb entry.1 (version_number (options h))) eqn:E.
    + apply Str_eqb_spec in E. rewrite decide_True by done.
      destruct (remote_descriptor _ _); cbn; by rewrite <- (assoc_L (++)).
    + apply Str_eqb_false in E. by rewrite decide_False by done.
Qed.



(** X18.  With the descriptor on disk and a manifest that can be read,
    [getVersion] issues one request for the manifest and then one for
    every manifest entry whose [id] is the wanted version, in manifest
    order, and nothing else.  With no descriptor on disk it issues no
    request at all and its promise is never settled. *)
Theorem getVersion_requests (h : Handler) (w : World) :
  (∀ d versions,
     descriptors w !! versionJsonPath h = Some d → manifest w = Some versions →
     trace (world_after (getVersion h w))
     = trace w ++ Get (manifest_url h) :: (Get <$> matching_urls h versions))
  ∧ (descriptors w !! versionJsonPath h = None →
     settled (getVersion h w) = Pending ∧ world_after (getVersion h w) = w).
Proof.
  split.
  - intros d versions Hd Hm. unfold getVersion. rewrite Hd, Hm.
    rewrite fetch_listed_versions_trace. cbn. by rewrite <- (assoc_L (++)).
  - intros Hd. unfold getVersion. by rewrite Hd.
Qed.

Lemma getVersion_requests_witness :
  trace (world_after (getVersion handler_1_8_9 natives_present))
  = [ Get "https://launchermeta.mojang.com/mc/game/version_manifest.json";
      Get "https://launchermeta.mojang.com/v1/packages/1.8.9.json" ]
  ∧ settled (getVersion handler_1_8_9 (empty_world (serving "00"))) = Pending.
Proof.
  destruct (getVersion_requests handler_1_8_9 natives_present) as [Hreq _].
  destruct (getVersion_requests handler_1_8_9 (empty_world (serving "00"))) as [_ Hnone].
  split.
  - apply (Hreq (version handler_1_8_9)
             [ ("1.9", "https://launchermeta.mojang.com/v1/packages/1.9.json");
               ("1.8.9", "https://launchermeta.mojang.com/v1/packages/1.8.9.json") ]);
      reflexivity.
  - apply Hnone. reflexivity.
Defined.



(** ** [getLaunchOptions]: lists of plain strings *)

Lemma sweep_strings (t : list (string * value)) (l : list value) :
  Forall (λ v, typeof_object v = false) l → sweep t l = subst1 t <$> l.
Proof.
  induction 1 as [|x r Hx _ IH]; [done|]. cbn. by rewrite Hx, IH.
Qed.

Lemma split_tokens_strings (s : string) :
  Forall (λ v, typeof_object v = false) (VString <$> Str.split " " s).
Proof. apply Forall_fmap, Forall_true. done. Qed.

(** X20.  On a list without structured entries the substitution loop is
    a map: every token is looked up in the table once, none is dropped,
    and order and length are kept. *)
Theorem substitute_strings (t : list (string * value)) (args : list value) :
  Forall (λ v, typeof_object v = false) args →
  substitute t args = subst1 t <$> args
  ∧ length (substitute t args) = length args.
Proof.
  intros Hs. rewrite substitute_sweep, sweep_strings by done.
  by rewrite length_fmap.
Qed.

Lemma substitute_strings_witness :
  substitute (fields vanilla_1_19) modern_game
  = [ VString "--username"; VString "Steve";
      VString "--version"; VString "1.19.2";
      VString "--gameDir"; VString "/tmp/mc";
      VString "--assetsDir"; VString "/tmp/mc/assets";
      VString "--assetIndex"; VString "1.19";
      VString "--uuid"; VString "U";
      VString "--accessToken"; VString "T" ]
  ∧ length (substitute (fields vanilla_1_19) modern_game) = 14.
Proof.
  apply (substitute_strings (fields vanilla_1_19) modern_game).
  repeat constructor.
Defined.

(** X21.  With a legacy descriptor (a non-empty [minecraftArguments]
    string and no modification), [getLaunchOptions] returns the words of
    that string, taken twice when there are fewer than the threshold,
    each substituted through the table, followed by the pushed tokens and
    [customLaunchArgs]; every array that existed before the call is left
    as it was. *)
Theorem getLaunchOptions_legacy (h : Handler) (st : gmap loc (list value)) (s : string) :
  minecraftArguments_set (version h) = Some s →
  ∃ st' r,
    getLaunchOptions h None st = Normal (st', r)
    ∧ st' !! r
      = Some ((subst1 (fields h)
                 <$> selected_tokens h (VString <$> Str.split " " s)
                                       (VString <$> Str.split " " s))
              ++ pushed_tokens (options h)
              ++ default [] (customLaunchArgs (options h)))
    ∧ ∀ r0, is_Some (st !! r0) → st' !! r0 = st !! r0.
Proof.
  intros Hs.
  assert (Htoks : game_tokens (version h) st = Normal (VString <$> Str.split " " s)).
  { unfold game_tokens. by rewrite Hs. }
  destruct (getLaunchOptions_run h None st _ _ Htoks Htoks)
    as (st' & r & Hrun & Hres & _ & Hframe).
  exists st', r. split; [done|]. split.
  - rewrite Hres. do 2 f_equal. rewrite substitute_sweep. apply sweep_strings.
    unfold selected_tokens. destruct (bool_decide _);
      [apply Forall_app; split|]; apply split_tokens_strings.
  - intros r0 Hr0. apply Hframe; [done|]. cbn. intros [[Hnone _] _]. congruence.
Qed.

Lemma getLaunchOptions_legacy_witness :
  ∃ st' r,
    getLaunchOptions (handler_forge forge_universal []) None store_three
      = Normal (st', r)
    ∧ st' !! r = Some [ VString "--username"; VString "Steve";
                        VString "--username"; VString "Steve" ]
    ∧ st' !! 0 = Some three_structured.
Proof.
  destruct (getLaunchOptions_legacy (handler_forge forge_universal []) store_three
              "--username ${auth_player_name}" eq_refl)
    as (st' & r & Hrun & Hres & Hframe).
  exists st', r. split; [exact Hrun|]. split; [exact Hres|].
  rewrite Hframe; [reflexivity | by eexists].
Defined.

(** X22.  A modification descriptor with neither a non-empty
    [minecraftArguments] nor [arguments] makes [getLaunchOptions] throw a
    TypeError; the vanilla descriptor is not used as a fallback, and the
    store is not consulted. *)
Theorem getLaunchOptions_no_arguments (h : Handler) (d : Descriptor)
    (st : gmap loc (list value)) :
  minecraftArguments_set d = None → arguments_game d = None →
  getLaunchOptions h (Some d) st = Throw TypeError.
Proof.
  intros Hm Ha. unfold getLaunchOptions, game_array. cbn. by rewrite Hm, Ha.
Qed.

Lemma getLaunchOptions_no_arguments_witness :
  getLaunchOptions vanilla_1_19 (Some (bare_descriptor "fabric-loader" "1.19"))
                   store_three = Throw TypeError.
Proof.
  apply (getLaunchOptions_no_arguments vanilla_1_19
           (bare_descriptor "fabric-loader" "1.19") store_three);
    reflexivity.
Defined.

(** ** [cleanUp] and the class path string *)

Lemma filter_all (P : string → Prop) `{∀ x, Decision (P x)} (l : list string) :
  Forall P l → filter P l = l.
Proof.
  induction 1 as [|x r Hx _ IH]; [done|]. by rewrite filter_cons_True, IH.
Qed.

Lemma first_occurrences_NoDup_id (l : list string) :
  NoDup l → first_occurrences l = l.
Proof.
  induction 1 as [|x r Hx _ IH]; [done|]. cbn. rewrite IH. f_equal.
  apply filter_all. apply Forall_forall. intros y Hy ->. done.
Qed.

Lemma first_occurrences_app (l1 l2 : list string) :
  first_occurrences (l1 ++ l2)
  = first_occurrences l1 ++ filter (λ y, y ∉ l1) (first_occurrences l2).
Proof.
  induction l1 as [|x r IH]; cbn.
  - symmetry. apply filter_all. apply Forall_forall.
    intros y _. apply not_elem_of_nil.
  - f_equal. rewrite IH, filter_app. f_equal.
    rewrite list_filter_filter. apply list_filter_iff.
    intros y. rewrite elem_of_cons. tauto.
Qed.

(** X23.  [cleanUp] is idempotent, leaves a list without duplicates as
    it is, and on a concatenation keeps the first list's entries first:
    of the second list only the paths not already in the first survive.
    [getClasses] returns the custom libraries followed by the vanilla
    ones, so a custom library wins over the same vanilla path. *)
Theorem cleanUp_composes (l1 l2 : list string) :
  cleanUp (cleanUp l1) = cleanUp l1
  ∧ (NoDup l1 → cleanUp l1 = l1)
  ∧ cleanUp (l1 ++ l2) = cleanUp l1 ++ filter (λ y, y ∉ l1) (cleanUp l2).
Proof.
  rewrite !cleanUp_eq. split; [|split].
  - apply first_occurrences_NoDup_id, first_occurrences_NoDup.
  - apply first_occurrences_NoDup_id.
  - apply first_occurrences_app.
Qed.

Lemma cleanUp_composes_witness :
  cleanUp (cleanUp ["/l/a.jar"; "/l/b.jar"]) = cleanUp ["/l/a.jar"; "/l/b.jar"]
  ∧ cleanUp ["/l/a.jar"; "/l/b.jar"] = ["/l/a.jar"; "/l/b.jar"]
  ∧ cleanUp (["/l/a.jar"; "/l/b.jar"] ++ ["/l/b.jar"; "/l/c.jar"])
    = ["/l/a.jar"; "/l/b.jar"; "/l/c.jar"].
Proof.
  destruct (cleanUp_composes ["/l/a.jar"; "/l/b.jar"] ["/l/b.jar"; "/l/c.jar"])
    as (Hidem & Hfix & Happ).
  split; [exact Hidem|]. split.
  - apply Hfix. compute_done.
  - rewrite Happ. reflexivity.
Defined.

Lemma split_app (c : ascii) (a b : string) :
  Str.split c (a +:+ String c b) = Str.split c a ++ Str.split c b.
Proof. apply (split_go_app c a b ""). Qed.

Lemma cleanUp_nonempty (raw : list string) : raw ≠ [] → cleanUp raw ≠ [].
Proof.
  destruct raw as [|x r]; [done|]. intros _ Hnil.
  assert (x ∈ cleanUp (x :: r)) as Hx by (apply cleanUp_elem, list_elem_of_here).
  rewrite Hnil in Hx. by apply elem_of_nil in Hx.
Qed.

Lemma cleanUp_Forall (P : string → Prop) (raw : list string) :
  Forall P raw → Forall P (cleanUp raw).
Proof.
  rewrite !Forall_forall. intros H x Hx. by apply H, cleanUp_elem.
Qed.

Lemma split_joined (h : Handler) (l : list string) :
  l ≠ [] → Forall (no_separator h) l →
  Str.split (separator_char h) (Str.join (separator h) l) = l.
Proof. apply split_join_fields. Qed.

(** X24.  Without legacy Forge and without [overrides.classes], when
    [getClasses] returns at least one path and neither those paths nor
    the client JAR contain the separator, the entries of the string
    after [-cp] are the deduplicated library paths followed by the
    client JAR; they are free of duplicates exactly when the client JAR
    is not one of the library paths. *)
Theorem classpath_entries_vanilla (h : Handler) (w w1 w2 : World)
    (forge : option ForgeResult) (custom : CustomValue) (raw : list string) :
  classes (overrides (options h)) = None →
  forge_phase h w = Normal (w1, forge, custom) →
  (∀ paths forge_json, forge ≠ Some (ForgeLegacy paths forge_json)) →
  getClasses h custom w1 = Normal (w2, raw) →
  raw ≠ [] → Forall (no_separator h) raw → no_separator h (client_jar h w2) →
  ∃ c, launch_classpath h w = Normal (w2, c)
    ∧ classpath_entries h (cp c) = cleanUp raw ++ [client_jar h w2]
    ∧ (NoDup (classpath_entries h (cp c)) ↔ client_jar h w2 ∉ raw).
Proof.
  intros Hc Hf Hforge Hg Hraw Hsep Hjar.
  assert (Hentries :
    Str.split (separator_char h)
      (Str.join (separator h) (cleanUp raw) +:+ separator h +:+ client_jar h w2)
    = cleanUp raw ++ [client_jar h w2]).
  { change (Str.join (separator h) (cleanUp raw) +:+ separator h +:+ client_jar h w2)
      with (Str.join (separator h) (cleanUp raw)
            +:+ String (separator_char h) (client_jar h w2)).
    rewrite split_app, split_joined, split_plain;
      auto using cleanUp_nonempty, cleanUp_Forall. }
  assert (Hnodup : NoDup (cleanUp raw ++ [client_jar h w2]) ↔ client_jar h w2 ∉ raw).
  { rewrite NoDup_app. rewrite cleanUp_eq. split.
    - intros (_ & Hdis & _) Hin. apply (Hdis (client_jar h w2)).
      + by apply first_occurrences_elem.
      + apply list_elem_of_here.
    - intros Hnot. split; [apply first_occurrences_NoDup|]. split.
      + intros x Hx Hx2%list_elem_of_singleton.
        apply (proj1 (first_occurrences_elem raw x)) in Hx.
        subst x. by apply Hnot.
      + apply NoDup_singleton. }
  unfold launch_classpath. rewrite Hf. cbn. rewrite Hc, Hg. cbn.
  unfold classpath_entries, client_jar in *.
  destruct forge as [[| |paths fj]|]; try (by exfalso; eapply Hforge);
    (eexists; split; [reflexivity|]; cbn [cp];
     destruct (exists_ w2 (mcPath h)); by rewrite Hentries).
Qed.

Lemma classpath_entries_vanilla_witness :
  ∃ w2 c, launch_classpath handler_guava (empty_world (serving "00")) = Normal (w2, c)
    ∧ classpath_entries handler_guava (cp c)
      = [ "/tmp/mc/libraries/com/google/guava/guava/17.0/guava-17.0.jar";
          "/tmp/mc/versions/1.8.9/1.8.9.jar" ].
Proof.
  destruct (getClasses handler_guava CustomNull (empty_world (serving "00")))
    as [[w2 raw]|e] eqn:E; [|vm_compute in E; discriminate].
  assert (Hraw : raw = [ "/tmp/mc/libraries/com/google/guava/guava/17.0/guava-17.0.jar";
                         "/tmp/mc/libraries/com/google/guava/guava/17.0/guava-17.0.jar" ]).
  { pose proof E as E'. vm_compute in E'. by injection E' as _ <-. }
  assert (Hjar : client_jar handler_guava w2 = "/tmp/mc/versions/1.8.9/1.8.9.jar").
  { pose proof E as E'. vm_compute in E'. injection E' as <- _. by vm_compute. }
  destruct (classpath_entries_vanilla handler_guava (empty_world (serving "00"))
              (empty_world (serving "00")) w2 None CustomNull raw)
    as (c & Hrun & Hent & _).
  - reflexivity.
  - reflexivity.
  - discriminate.
  - exact E.
  - by rewrite Hraw.
  - rewrite Hraw. repeat constructor.
  - unfold no_separator. by rewrite Hjar.
  - exists w2, c. split; [exact Hrun|]. rewrite Hent, Hjar, Hraw. reflexivity.
Defined.

(** X25.  With a legacy Forge JAR and without [overrides.classes], when
    the Forge and library lists are not empty and no path contains the
    separator, the entries of the string after [-cp] are, in this order:
    the Forge JAR, the Forge library paths as returned, the deduplicated
    custom and vanilla library paths, and the client JAR; the main class
    is the Forge descriptor's.  Any path that is both a Forge library
    and a vanilla one occurs twice. *)
Theorem classpath_entries_forge (h : Handler) (w w1 w2 : World)
    (paths raw : list string) (forge_json : Descriptor) (custom : CustomValue) :
  classes (overrides (options h)) = None →
  forge_phase h w = Normal (w1, Some (ForgeLegacy paths forge_json), custom) →
  getClasses h custom w1 = Normal (w2, raw) →
  paths ≠ [] → raw ≠ [] →
  no_separator h (forge_jar h) → Forall (no_separator h) paths →
  Forall (no_separator h) raw → no_separator h (mcPath h) →
  ∃ c, launch_classpath h w = Normal (w2, c)
    ∧ classpath_entries h (cp c)
      = forge_jar h :: paths ++ cleanUp raw ++ [mcPath h]
    ∧ main c = VString (mainClass forge_json)
    ∧ (∀ x, x ∈ paths → x ∈ raw → ¬ NoDup (classpath_entries h (cp c))).
Proof.
  intros Hc Hf Hg Hpaths Hraw Hfj Hps Hrs Hmc.
  unfold launch_classpath. rewrite Hf. cbn. rewrite Hc, Hg. cbn.
  eexists. split; [reflexivity|]. cbn [cp main].
  assert (Hentries :
    classpath_entries h
      (path_resolve (platform h)
         (path_resolve (platform h) (default "" (forge_set (options h))))
       +:+ separator h +:+ Str.join (separator h) paths
       +:+ separator h +:+ Str.join (separator h) (cleanUp raw)
       +:+ separator h +:+ mcPath h)
    = forge_jar h :: paths ++ cleanUp raw ++ [mcPath h]).
  { unfold classpath_entries. fold (forge_jar h).
    change (forge_jar h +:+ separator h +:+ Str.join (separator h) paths
            +:+ separator h +:+ Str.join (separator h) (cleanUp raw)
            +:+ separator h +:+ mcPath h)
      with (forge_jar h +:+ String (separator_char h)
              (Str.join (separator h) paths +:+ String (separator_char h)
                 (Str.join (separator h) (cleanUp raw)
                    +:+ String (separator_char h) (mcPath h)))).
    rewrite !split_app, !split_joined, !split_plain;
      auto using cleanUp_nonempty, cleanUp_Forall. }
  rewrite Hentries. split; [done|]. split; [done|].
  intros x Hx1 Hx2 Hnd. apply NoDup_cons in Hnd as [_ Hnd].
  apply NoDup_app in Hnd as (_ & Hdis & _). apply (Hdis x Hx1).
  apply elem_of_app. left. by apply cleanUp_elem.
Qed.

Lemma classpath_entries_forge_witness :
  ∃ w2 c,
    launch_classpath (handler_forge forge_universal [guava_vanilla]) universal_world
      = Normal (w2, c)
    ∧ classpath_entries (handler_forge forge_universal [guava_vanilla]) (cp c)
      = [ "/tmp/forge-1.8.9-universal.jar";
          "/tmp/mc/libraries/com/google/guava/guava/17.0/guava-17.0.jar";
          "/tmp/mc/libraries/com/google/guava/guava/17.0/guava-17.0.jar";
          "/tmp/mc/versions/1.8.9/1.8.9.jar" ]
    ∧ main c = VString "net.minecraft.launchwrapper.Launch".
Proof.
  destruct (forge_phase (handler_forge forge_universal [guava_vanilla]) universal_world)
    as [[[w1 forge] custom]|e] eqn:Ef; [|vm_compute in Ef; discriminate].
  assert (Hfc : ∃ fj, forge = Some (ForgeLegacy
                  ["/tmp/mc/libraries/com/google/guava/guava/17.0/guava-17.0.jar"] fj)
                ∧ mainClass fj = "net.minecraft.launchwrapper.Launch"
                ∧ custom = CustomNull).
  { pose proof Ef as E'. vm_compute in E'. injection E' as _ <- <-.
    eexists. split; [reflexivity|]. split; reflexivity. }
  destruct Hfc as (fj & -> & Hmain & ->).
  destruct (getClasses (handler_forge forge_universal [guava_vanilla]) CustomNull w1)
    as [[w2 raw]|e] eqn:Eg.
  2:{ pose proof Ef as E'. vm_compute in E'. injection E' as <- _.
      vm_compute in Eg. discriminate. }
  assert (Hraw : raw = ["/tmp/mc/libraries/com/google/guava/guava/17.0/guava-17.0.jar"]).
  { pose proof Ef as E'. vm_compute in E'. injection E' as <- _.
    vm_compute in Eg. by injection Eg as _ <-. }
  destruct (classpath_entries_forge (handler_forge forge_universal [guava_vanilla])
              universal_world w1 w2
              ["/tmp/mc/libraries/com/google/guava/guava/17.0/guava-17.0.jar"]
              raw fj CustomNull)
    as (c & Hrun & Hent & Hm & _).
  - reflexivity.
  - exact Ef.
  - exact Eg.
  - discriminate.
  - by rewrite Hraw.
  - reflexivity.
  - repeat constructor.
  - rewrite Hraw. repeat constructor.
  - reflexivity.
  - exists w2, c. split; [exact Hrun|]. rewrite Hent, Hm, Hmain, Hraw.
    split; reflexivity.
Defined.

(** ** [getJar] and [getVersion] *)

(** X26.  What [getJar] writes is what [getVersion] reads: without a
    [versionJson] override, a later [getVersion] resolves with the
    descriptor [getJar] persisted, and the client JAR is on disk. *)
Theorem getJar_getVersion_roundtrip (h : Handler) (client_url json_sha1 : string)
    (w : World) :
  versionJson (overrides (options h)) = None →
  settled (getVersion h (getJar h client_url json_sha1 w)) = Resolved (version h)
  ∧ exists_ (getJar h client_url json_sha1 w)
            (path_join (platform h) (directory (options h))
                       (version_number (options h) +:+ ".jar")) = true.
Proof.
  intros Hv. split.
  - assert (Hd : descriptors (getJar h client_url json_sha1 w) !! versionJsonPath h
                 = Some (version h)).
    { unfold versionJsonPath, getJar, write_json. rewrite Hv. cbn.
      apply lookup_insert_eq. }
    unfold getVersion. rewrite Hd.
    destruct (manifest _) as [versions|]; [|done].
    destruct (fetch_listed_versions_keep h (version h)
                (Get (manifest_url h)) versions
                {| settled := resolve Pending (Resolved (version h));
                   this_version := Some (version h);
                   world_after := log (Get (manifest_url h))
                                      (getJar h client_url json_sha1 w) |})
      as [Hs _]; [done | | done].
    cbn. apply elem_of_app. right. apply list_elem_of_here.
  - unfold getJar.
    apply exists_mono_files with
      (w := (downloadAsync h client_url (directory (options h))
               (version_number (options h) +:+ ".jar") true w).1).
    + intros x Hx. cbn. apply lookup_insert_is_Some'. by right.
    + intros x Hx. cbn. apply lookup_insert_is_Some'. by right.
    + apply downloadAsync_target.
Qed.

Lemma getJar_getVersion_roundtrip_witness :
  settled (getVersion handler_1_8_9
             (getJar handler_1_8_9 "https://launcher.mojang.com/client.jar" "77aa"
                     (empty_world (serving "9a"))))
    = Resolved (version handler_1_8_9)
  ∧ exists_ (getJar handler_1_8_9 "https://launcher.mojang.com/client.jar" "77aa"
                    (empty_world (serving "9a")))
            "/tmp/mc/versions/1.8.9/1.8.9.jar" = true.
Proof.
  apply (getJar_getVersion_roundtrip handler_1_8_9
           "https://launcher.mojang.com/client.jar" "77aa"
           (empty_world (serving "9a"))).
  reflexivity.
Defined.

(** ** [getAssets] *)

Lemma exists_of_file (w : World) (path sha1 : string) :
  files w !! path = Some sha1 → exists_ w path = true.
Proof.
  intros H. unfold exists_. rewrite H. by rewrite bool_decide_true by eauto.
Qed.

Lemma checkSum_true (w : World) (hash file : string) :
  checkSum w hash file = true ↔ files w !! file = Some hash.
Proof.
  unfold checkSum. destruct (files w !! file) as [d|]; [|done].
  rewrite Str_eqb_spec. split; [by intros -> | by intros [= ->]].
Qed.

Lemma fetch_asset_present (h : Handler) (resource : string) (w : World)
    (object : string * string) :
  files w !! asset_file h object.2 = Some object.2 →
  fetch_asset h resource w object = w.
Proof.
  intros Hf. unfold fetch_asset.
  rewrite (exists_of_file _ _ _ Hf), (proj2 (checkSum_true _ _ _) Hf). done.
Qed.

Lemma fetch_all_present (h : Handler) (resource : string)
    (objects : list (string * string)) (w : World) :
  (∀ object, object ∈ objects → files w !! asset_file h object.2 = Some object.2) →
  foldl (fetch_asset h resource) w objects = w.
Proof.
  induction objects as [|object r IH]; intros Hall; cbn [foldl]; [done|].
  rewrite fetch_asset_present by (apply Hall, list_elem_of_here).
  apply IH. intros o Ho. by apply Hall, list_elem_of_further.
Qed.

(** X27.  On a modern version, when the asset index is on disk and every
    object it lists is stored under its hash with that digest,
    [getAssets] changes nothing: no request, no file, no log entry. *)
Theorem getAssets_at_rest (h : Handler) (index_url resource : string)
    (parse_index : string → option (list (string * string))) (w : World)
    (sha1 : string) (objects : list (string * string)) :
  isLegacy h = false →
  files w !! index_file h = Some sha1 →
  parse_index sha1 = Some objects →
  (∀ object, object ∈ objects → files w !! asset_file h object.2 = Some object.2) →
  getAssets h index_url resource parse_index w = Normal w.
Proof.
  intros Hl Hi Hp Hall. unfold getAssets.
  rewrite (exists_of_file _ _ _ Hi). cbn [negb]. rewrite Hi, Hp, Hl.
  by rewrite fetch_all_present.
Qed.

Lemma getAssets_at_rest_witness :
  getAssets handler_1_8_9 "https://launchermeta.mojang.com/indexes/1.8.json"
            "https://resources.download.minecraft.net" index_1_8 assets_complete
  = Normal assets_complete.
Proof.
  apply (getAssets_at_rest handler_1_8_9
           "https://launchermeta.mojang.com/indexes/1.8.json"
           "https://resources.download.minecraft.net" index_1_8 assets_complete
           "1d5c" [ ("icons/icon_16x16.png", icon_hash);
                    ("minecraft/lang/en_GB.lang", lang_hash) ]).
  - reflexivity.
  - reflexivity.
  - reflexivity.
  - intros object Ho.
    apply elem_of_cons in Ho as [-> | Ho]; [reflexivity|].
    apply elem_of_cons in Ho as [-> | Ho]; [reflexivity|].
    by apply elem_of_nil in Ho.
Defined.

Lemma fetch_asset_step (h : Handler) (resource : string) (w : World)
    (object : string * string) :
  remote w (asset_url resource object.2) = Served object.2 →
  files (fetch_asset h resource w object) !! asset_file h object.2 = Some object.2
  ∧ (∀ k, k ≠ asset_file h object.2 →
          files (fetch_asset h resource w object) !! k = files w !! k)
  ∧ remote (fetch_asset h resource w object) = remote w.
Proof.
  intros Hr. unfold fetch_asset.
  destruct (negb (exists_ w _) || negb (checkSum w _ _)) eqn:E.
  - destruct (downloadAsync_served h _ (subAsset h object.2) object.2 object.2 true w Hr)
      as [Hf _].
    split; [exact Hf|]. split; [|apply downloadAsync_remote].
    intros k Hk. by apply downloadAsync_files_ne.
  - apply orb_false_iff in E as [_ E]. apply negb_false_iff in E.
    by apply checkSum_true in E.
Qed.

Lemma fetch_all_step (h : Handler) (resource : string)
    (objects : list (string * string)) :
  ∀ (w : World) (all : list (string * string)),
    (∀ o, o ∈ objects → o ∈ all) →
    (∀ o, o ∈ all → remote w (asset_url resource o.2) = Served o.2) →
    (∀ o1 o2, o1 ∈ all → o2 ∈ all →
       asset_file h o1.2 = asset_file h o2.2 → o1.2 = o2.2) →
    (∀ o, o ∈ objects →
       files (foldl (fetch_asset h resource) w objects) !! asset_file h o.2 = Some o.2)
    ∧ (∀ o, o ∈ all → files w !! asset_file h o.2 = Some o.2 →
       files (foldl (fetch_asset h resource) w objects) !! asset_file h o.2 = Some o.2).
Proof.
  induction objects as [|object r IH]; intros w all Hsub Hserved Hinj; cbn [foldl].
  - split; [|done]. intros o Ho. by apply elem_of_nil in Ho.
  - assert (Hobj : object ∈ all) by (apply Hsub, list_elem_of_here).
    destruct (fetch_asset_step h resource w object (Hserved _ Hobj))
      as (Hnew & Hkeep & Hrem).
    assert (Hpres : ∀ o, o ∈ all → files w !! asset_file h o.2 = Some o.2 →
              files (fetch_asset h resource w object) !! asset_file h o.2 = Some o.2).
    { intros o Ho Hgood.
      destruct (decide (asset_file h o.2 = asset_file h object.2)) as [Heq | Hne].
      - rewrite (Hinj o object Ho Hobj Heq). exact Hnew.
      - by rewrite Hkeep. }
    destruct (IH (fetch_asset h resource w object) all) as [IH1 IH2].
    + intros o Ho. by apply Hsub, list_elem_of_further.
    + intros o Ho. rewrite Hrem. by apply Hserved.
    + exact Hinj.
    + split.
      * intros o [-> | Ho]%elem_of_cons; [by apply IH2 | by apply IH1].
      * intros o Ho Hgood. apply IH2; [done|]. by apply Hpres.
Qed.

(** X28.  On a modern version with the asset index on disk, if the
    resource server answers each object's URL with that object and
    distinct hashes are kept in distinct files, then after [getAssets]
    every object of the index is stored under its hash with matching
    digest. *)
Theorem getAssets_content_addressed (h : Handler) (index_url resource : string)
    (parse_index : string → option (list (string * string))) (w : World)
    (sha1 : string) (objects : list (string * string)) :
  isLegacy h = false →
  files w !! index_file h = Some sha1 →
  parse_index sha1 = Some objects →
  (∀ o, o ∈ objects → remote w (asset_url resource o.2) = Served o.2) →
  (∀ o1 o2, o1 ∈ objects → o2 ∈ objects →
     asset_file h o1.2 = asset_file h o2.2 → o1.2 = o2.2) →
  ∃ w', getAssets h index_url resource parse_index w = Normal w'
    ∧ ∀ o, o ∈ objects → checkSum w' o.2 (asset_file h o.2) = true.
Proof.
  intros Hl Hi Hp Hserved Hinj. unfold getAssets.
  rewrite (exists_of_file _ _ _ Hi). cbn [negb]. rewrite Hi, Hp, Hl.
  eexists. split; [reflexivity|]. intros o Ho. apply checkSum_true.
  destruct (fetch_all_step h resource objects w objects) as [Hgood _]; auto.
Qed.

Lemma getAssets_content_addressed_witness :
  ∃ w', getAssets handler_1_8_9 "https://launchermeta.mojang.com/indexes/1.8.json"
                  "https://resources.download.minecraft.net" index_1_8 assets_indexed
        = Normal w'
    ∧ checkSum w' icon_hash
        "/tmp/mc/assets/objects/bd/bdf48ef6b5d0d23bbb02e17d04865216179f510a" = true
    ∧ checkSum w' lang_hash
        "/tmp/mc/assets/objects/e9/e9c4ff0f1e2b4d8c9a3f5b7d6e8a0c1b2d3f4a5b" = true.
Proof.
  destruct (getAssets_content_addressed handler_1_8_9
              "https://launchermeta.mojang.com/indexes/1.8.json"
              "https://resources.download.minecraft.net" index_1_8 assets_indexed
              "1d5c" [ ("icons/icon_16x16.png", icon_hash);
                       ("minecraft/lang/en_GB.lang", lang_hash) ])
    as (w' & Hrun & Hgood).
  - reflexivity.
  - reflexivity.
  - reflexivity.
  - intros o Ho.
    apply elem_of_cons in Ho as [-> | Ho]; [reflexivity|].
    apply elem_of_cons in Ho as [-> | Ho]; [reflexivity|].
    by apply elem_of_nil in Ho.
  - intros o1 o2 H1 H2.
    apply elem_of_cons in H1 as [-> | H1];
      [|apply elem_of_cons in H1 as [-> | H1]; [|by apply elem_of_nil in H1]];
      (apply elem_of_cons in H2 as [-> | H2];
       [|apply elem_of_cons in H2 as [-> | H2]; [|by apply elem_of_nil in H2]]);
      vm_compute; congruence.
  - exists w'. split; [exact Hrun|]. split.
    + apply (Hgood ("icons/icon_16x16.png", icon_hash)). apply list_elem_of_here.
    + apply (Hgood ("minecraft/lang/en_GB.lang", lang_hash)).
      apply list_elem_of_further, list_elem_of_here.
Defined.










(** ** [getClasses] *)



